(** * DNS-Resolver-GO: a shallow embedding of the resolution pipeline

    The development follows the Go sources file by file:
    - [GoStrings]   the functions of [strings], [strconv] and [fmt] the
                    program calls, on ASCII strings;
    - [RateLimit]   the token-bucket wrapper ([NewRateLimiter], [SetLimit]);
    - [QueryTypes]  [parseQueryTypes] of main.go;
    - [Dns]         messages and resource records as the program sees them,
                    and the library functions it calls;
    - [World]       the state the sequential code threads: resolver pool,
                    wildcard cache, counters, output, and the log of
                    datagrams sent;
    - [Pool]        resolver.go: [GetResolver], [GetRandomResolver];
    - [Lookup]      main.go: [performDNSQuery];
    - [Wildcard]    wildcard.go: [IsWildcard], [detectWildcard];
    - [NetIP]       the text form of an address, [net.IP.String];
    - [Output]      output.go: [extractRecords], [WriteResult];
    - [Processor]   stats.go and the body of [resultProcessor];
    - [Pipeline]    the goroutines of [processDNSQueries] as a transition
                    system;
    - [Scenario]    concrete networks and runs;
    - [GoStringsFacts], [QueryTypesFacts], [WildcardFacts], [SettingsFacts],
      [LookupFacts], [OutputFacts], [ProcessorFacts], [PipelineFacts]
                    further properties of the modules above;
    - [Resolvers]   resolver.go: [NewResolverPool], [createResolver],
                    [loadResolversFromFile];
    - [Input]       input.go: [FilterDomains], [generateSubdomains];
    - [Cases]       the theorems applied to concrete inputs. *)

From Stdlib Require Import ZArith Lia Ascii DecimalString.
From Stdlib Require HexadecimalString.
From stdpp Require Import gmap strings list.

(** ** Strings as Go sees them (ASCII) *)

Module GoStrings.

Definition byte_of (c : ascii) : N := Ascii.N_of_ascii c.

(** [unicode.IsSpace] on the characters of ASCII.  (Go also counts U+0085,
    U+00A0 and the other white space of Unicode, which take several bytes
    each.) *)
Definition isSpace (c : ascii) : bool :=
  let n := byte_of c in
  ((9 <=? n) && (n <=? 13))%N || (n =? 32)%N.

Definition isLower (c : ascii) : bool :=
  let n := byte_of c in ((97 <=? n) && (n <=? 122))%N.

Definition upper (c : ascii) : ascii :=
  if isLower c then Ascii.ascii_of_N (byte_of c - 32) else c.

(** [strings.ToUpper] on an ASCII string: bytes above 127 are left alone,
    where Go maps the letters of Unicode as well. *)
Fixpoint ToUpper (s : string) : string :=
  match s with
  | EmptyString => EmptyString
  | String c r => String (upper c) (ToUpper r)
  end.

Fixpoint TrimLeftSpace (s : string) : string :=
  match s with
  | EmptyString => EmptyString
  | String c r => if isSpace c then TrimLeftSpace r else s
  end.

Fixpoint TrimRightSpace (s : string) : string :=
  match s with
  | EmptyString => EmptyString
  | String c r =>
      match TrimRightSpace r with
      | EmptyString => if isSpace c then EmptyString else String c EmptyString
      | r' => String c r'
      end
  end.

(** [strings.TrimSpace] on an ASCII string: the white space of ASCII is
    trimmed, where Go trims the white space of Unicode as well. *)
Definition TrimSpace (s : string) : string := TrimRightSpace (TrimLeftSpace s).

(** [strings.Split s sep] for a one-byte separator: always at least one
    piece, the empty string gives one empty piece. *)
Fixpoint Split (s : string) (sep : ascii) : list string :=
  match s with
  | EmptyString => [EmptyString]
  | String c r =>
      if Ascii.eqb c sep then EmptyString :: Split r sep
      else match Split r sep with
           | [] => [String c EmptyString]
           | h :: t => String c h :: t
           end
  end.

(** [strings.Join] *)
Fixpoint Join (l : list string) (sep : string) : string :=
  match l with
  | [] => EmptyString
  | [x] => x
  | x :: r => x +:+ sep +:+ Join r sep
  end.

(** [strings.TrimSuffix s suffix] *)
Definition TrimSuffix (s suffix : string) : string :=
  let n := String.length s in
  let k := String.length suffix in
  if (k <=? n)%nat && String.eqb (String.substring (n - k) k s) suffix
  then String.substring 0 (n - k) s else s.

(** [strings.HasPrefix] *)
Definition HasPrefix (s p : string) : bool := String.prefix p s.

(** The verb [%d] on an unsigned value. *)
Definition itoa (n : N) : string := NilZero.string_of_uint (N.to_uint n).

(** The verb [%d] on a Go [int]. *)
Definition itoaZ (n : Z) : string :=
  if (n <? 0)%Z then "-" +:+ itoa (Z.to_N (- n)) else itoa (Z.to_N n).

Definition digit (c : ascii) : option Z :=
  let n := byte_of c in
  if ((48 <=? n) && (n <=? 57))%N then Some (Z.of_N n - 48)%Z else None.

Fixpoint digits (acc : Z) (s : string) : option Z :=
  match s with
  | EmptyString => Some acc
  | String c r =>
      match digit c with
      | Some d => digits (acc * 10 + d)%Z r
      | None => None
      end
  end.

(** The strings on which the functions above are those of Go: every byte
    below 128. *)
Definition is_ascii (c : ascii) : bool := (byte_of c <? 128)%N.

Fixpoint ascii_only (s : string) : bool :=
  match s with
  | EmptyString => true
  | String c r => is_ascii c && ascii_only r
  end.

Definition minInt : Z := (- 2 ^ 63)%Z.
Definition maxInt : Z := (2 ^ 63 - 1)%Z.

(** [strconv.Atoi] on a 64-bit platform: an optional sign, at least one
    decimal digit, nothing else; [None] stands for its error, which is
    either a syntax error or a value out of the range of [int]. *)
Definition Atoi (s : string) : option Z :=
  match s with
  | EmptyString => None
  | String c r =>
      let body := if Ascii.eqb c "-" || Ascii.eqb c "+" then r else s in
      match body with
      | EmptyString => None
      | _ =>
          match digits 0 body with
          | None => None
          | Some n =>
              let v := if Ascii.eqb c "-" then (- n)%Z else n in
              if (minInt <=? v)%Z && (v <=? maxInt)%Z then Some v else None
          end
      end
  end.

Example Split_pieces : Split "a,b,,c" "," = ["a"; "b"; ""; "c"].
Proof. reflexivity. Qed.

Example Split_empty : Split "" "," = [""].
Proof. reflexivity. Qed.

Example TrimSpace_both_ends : TrimSpace "  a b  " = "a b".
Proof. reflexivity. Qed.

Example ToUpper_mixed : ToUpper "aAaa,Mx1" = "AAAA,MX1".
Proof. reflexivity. Qed.

Example TrimSuffix_root : TrimSuffix "www.example.com." "." = "www.example.com".
Proof. reflexivity. Qed.

Example TrimSuffix_absent : TrimSuffix "www.example.com" "." = "www.example.com".
Proof. reflexivity. Qed.

Example Atoi_signed : Atoi "-12" = Some (-12)%Z /\ Atoi "+7" = Some 7%Z /\ Atoi "007" = Some 7%Z.
Proof. repeat split. Qed.

Example Atoi_rejects :
  Atoi "" = None /\ Atoi "+" = None /\ Atoi "1x" = None /\ Atoi " 1" = None /\
  Atoi "9223372036854775808" = None.
Proof. repeat split. Qed.

Example itoa_digits : itoa 0 = "0" /\ itoa 65535 = "65535" /\ itoaZ (-3) = "-3".
Proof. repeat split. Qed.

End GoStrings.

(** ** ratelimit.go *)

Module RateLimit.
Local Open Scope Z_scope.

Definition defaultQPS : Z := 100.

(** The two parameters of [rate.Limiter] the program sets.  [limit] holds
    the integer that [rate.Limit(qps)] converts; the bucket's tokens and
    clock belong to the library and are not modelled. *)
Record Limiter := { limit : Z; burst : Z }.

Record RateLimiter := { limiter : Limiter }.

Definition NewLimiter (r : Z) (b : Z) : Limiter := {| limit := r; burst := b |}.

Definition NewRateLimiter (qps : Z) : RateLimiter :=
  let qps := if qps <=? 0 then defaultQPS else qps in
  let burst := qps ÷ 10 in
  let burst := if burst <? 1 then 1 else burst in
  {| limiter := NewLimiter qps burst |}.

Definition Limiter_SetLimit (l : Limiter) (r : Z) : Limiter :=
  {| limit := r; burst := burst l |}.

Definition Limiter_SetBurst (l : Limiter) (b : Z) : Limiter :=
  {| limit := limit l; burst := b |}.

Definition SetLimit (r : RateLimiter) (qps : Z) : RateLimiter :=
  let qps := if qps <=? 0 then defaultQPS else qps in
  let burst := qps ÷ 10 in
  let burst := if burst <? 1 then 1 else burst in
  {| limiter := Limiter_SetBurst (Limiter_SetLimit (limiter r) qps) burst |}.

(** The rate the program asks for once the default is substituted. *)
Definition effective_qps (qps : Z) : Z := if qps <=? 0 then defaultQPS else qps.

Lemma effective_qps_pos qps : 0 < effective_qps qps.
Proof. unfold effective_qps, defaultQPS. destruct (Z.leb_spec qps 0); lia. Qed.

Lemma burst_formula q : 0 < q -> (if q ÷ 10 <? 1 then 1 else q ÷ 10) = Z.max 1 (q / 10).
Proof.
  intros Hq. rewrite Z.quot_div_nonneg by lia.
  destruct (Z.ltb_spec (q / 10) 1); lia.
Qed.

(** C8: the limiter is built with rate [qps] and burst [max 1 (qps / 10)],
    a non-positive [qps] being replaced by 100 first; [SetLimit] installs
    the same two values on any limiter. *)
Theorem rate_limiter_parameters (qps : Z) :
  let q := if qps <=? 0 then 100 else qps in
  limit (limiter (NewRateLimiter qps)) = q /\
  burst (limiter (NewRateLimiter qps)) = Z.max 1 (q / 10) /\
  forall r : RateLimiter,
    limit (limiter (SetLimit r qps)) = q /\
    burst (limiter (SetLimit r qps)) = Z.max 1 (q / 10).
Proof.
  pose proof (effective_qps_pos qps) as Hpos.
  unfold effective_qps, defaultQPS in Hpos.
  cbv zeta. unfold NewRateLimiter, SetLimit, defaultQPS. cbn.
  rewrite burst_formula by exact Hpos. auto.
Qed.

End RateLimit.

(** ** main.go: parseQueryTypes *)

Module QueryTypes.
Import GoStrings.

(** Record type codes of [github.com/miekg/dns]. *)
Definition TypeA : N := 1.
Definition TypeNS : N := 2.
Definition TypeCNAME : N := 5.
Definition TypeSOA : N := 6.
Definition TypePTR : N := 12.
Definition TypeMX : N := 15.
Definition TypeTXT : N := 16.
Definition TypeAAAA : N := 28.
Definition TypeSRV : N := 33.

Definition typeMap : gmap string N :=
  list_to_map
    [ ("A", TypeA); ("AAAA", TypeAAAA); ("CNAME", TypeCNAME); ("MX", TypeMX);
      ("NS", TypeNS); ("TXT", TypeTXT); ("SOA", TypeSOA); ("PTR", TypePTR);
      ("SRV", TypeSRV) ].

(** [uint16(num)] *)
Definition uint16 (num : Z) : N := Z.to_N (num mod 65536).

Definition unknown_query_type (t : string) : string := "unknown query type: " +:+ t.

(** The loop [for _, t := range types], with [result] as accumulator. *)
Fixpoint parse_tokens (types : list string) (result : list N) : list N + string :=
  match types with
  | [] => inl result
  | t :: rest =>
      let t := TrimSpace t in
      match typeMap !! t with
      | Some qtype => parse_tokens rest (result ++ [qtype])
      | None =>
          match Atoi t with
          | Some num =>
              if (0 <? num)%Z && (num <? 65536)%Z
              then parse_tokens rest (result ++ [uint16 num])
              else inr (unknown_query_type t)
          | None => inr (unknown_query_type t)
          end
      end
  end.

Definition parseQueryTypes (queryTypesStr : string) : list N + string :=
  let types := Split (ToUpper queryTypesStr) "," in
  match parse_tokens types [] with
  | inr e => inr e
  | inl result => if (length result =? 0)%nat then inl [TypeA] else inl result
  end.

Example parse_mixed_case : parseQueryTypes "a, aaaa ,Cname,mx" = inl [1; 28; 5; 15]%N.
Proof. vm_compute. reflexivity. Qed.

Example parse_numeric : parseQueryTypes "65535,+257" = inl [65535; 257]%N.
Proof. vm_compute. reflexivity. Qed.

Example parse_out_of_range : parseQueryTypes "A,65536" = inr "unknown query type: 65536".
Proof. vm_compute. reflexivity. Qed.

Example parse_zero : parseQueryTypes "0" = inr "unknown query type: 0".
Proof. vm_compute. reflexivity. Qed.

Example parse_unknown : parseQueryTypes "A,HINFO" = inr "unknown query type: HINFO".
Proof. vm_compute. reflexivity. Qed.

Lemma Split_nonempty s sep : Split s sep <> [].
Proof.
  destruct s as [|c r]; cbn; [discriminate|].
  destruct (Ascii.eqb c sep); [discriminate|].
  destruct (Split r sep); discriminate.
Qed.

Lemma parse_tokens_cons t rest result :
  parse_tokens (t :: rest) result =
  match typeMap !! TrimSpace t with
  | Some qtype => parse_tokens rest (result ++ [qtype])
  | None =>
      match Atoi (TrimSpace t) with
      | Some num =>
          if (0 <? num)%Z && (num <? 65536)%Z
          then parse_tokens rest (result ++ [uint16 num])
          else inr (unknown_query_type (TrimSpace t))
      | None => inr (unknown_query_type (TrimSpace t))
      end
  end.
Proof. reflexivity. Qed.

Lemma parse_tokens_length types : forall result l,
  parse_tokens types result = inl l ->
  length l = (length result + length types)%nat.
Proof.
  induction types as [|t rest IH]; intros result l H.
  - injection H as <-. cbn. lia.
  - rewrite parse_tokens_cons in H.
    destruct (typeMap !! TrimSpace t) as [q|].
    + apply IH in H. rewrite length_app in H. cbn in *. lia.
    + destruct (Atoi (TrimSpace t)) as [num|]; [|discriminate].
      destruct ((0 <? num)%Z && (num <? 65536)%Z); [|discriminate].
      apply IH in H. rewrite length_app in H. cbn in *. lia.
Qed.

(** The branch [len(result) == 0] is never taken: a list of tokens that
    parses has as many types as [strings.Split] returned pieces, and that
    is at least one. *)
Lemma default_branch_unreachable s l :
  parse_tokens (Split (ToUpper s) ",") [] = inl l -> l <> [].
Proof.
  intros H. apply parse_tokens_length in H.
  pose proof (Split_nonempty (ToUpper s) ",") as Hne.
  destruct (Split (ToUpper s) ","); [congruence|].
  destruct l; [cbn in H; lia | discriminate].
Qed.

(** C7, at the input the claim's last clause is about: the empty list of
    types is the empty string, [strings.Split] turns it into one empty
    token, and that token is rejected as an unknown type; [A] is not
    returned. *)
Theorem parseQueryTypes_empty_string :
  parseQueryTypes "" = inr "unknown query type: ".
Proof. vm_compute. reflexivity. Qed.

End QueryTypes.

(** ** DNS messages, as far as the program reads them *)

Module Dns.
Import GoStrings.

Record RR_Header := { Name : string; Rrtype : N; Ttl : N }.

(** An IPv4 address, four octets. *)
Record IPv4 := { o1 : N; o2 : N; o3 : N; o4 : N }.

(** An IPv6 address, sixteen octets. *)
Definition IPv6 := list N.

(** The resource records the program tells apart by their Go type; every
    other record type is [RR_Other] and keeps its wire data. *)
Inductive RR :=
| RR_A (Hdr : RR_Header) (A : IPv4)
| RR_AAAA (Hdr : RR_Header) (AAAA : IPv6)
| RR_CNAME (Hdr : RR_Header) (Target : string)
| RR_MX (Hdr : RR_Header) (Preference : N) (Mx : string)
| RR_NS (Hdr : RR_Header) (Ns : string)
| RR_TXT (Hdr : RR_Header) (Txt : list string)
| RR_SOA (Hdr : RR_Header) (Ns Mbox : string) (Serial Refresh Retry Expire Minttl : N)
| RR_PTR (Hdr : RR_Header) (Ptr : string)
| RR_SRV (Hdr : RR_Header) (Priority Weight Port : N) (Target : string)
| RR_Other (Hdr : RR_Header) (Rdata : string).

(** [rr.Header()] *)
Definition Header (rr : RR) : RR_Header :=
  match rr with
  | RR_A h _ | RR_AAAA h _ | RR_CNAME h _ | RR_MX h _ _ | RR_NS h _
  | RR_TXT h _ | RR_SOA h _ _ _ _ _ _ _ | RR_PTR h _ | RR_SRV h _ _ _ _
  | RR_Other h _ => h
  end.

(** Only the answer section of a [dns.Msg] is read. *)
Record Msg := { Answer : list RR }.

Record Question := { Qname : string; Qtype : N }.

(** What [Client.Exchange] hands back: a response pointer, which may be
    nil, or an error. *)
Inductive ExchangeOutcome :=
| Exchanged (response : option Msg)
| ExchangeFailed (err : string).

(** [net.IP.String] on a four-octet address: dotted decimal. *)
Definition IPv4_String (ip : IPv4) : string :=
  itoa (o1 ip) +:+ "." +:+ itoa (o2 ip) +:+ "." +:+ itoa (o3 ip) +:+ "." +:+ itoa (o4 ip).

(** The functions of the libraries the program links against and whose
    code is not part of it. *)
Record Library := {
  (** [publicsuffix.EffectiveTLDPlusOne]; [None] is its error. *)
  EffectiveTLDPlusOne : string -> option string;
  (** [dns.Fqdn] *)
  Fqdn : string -> string;
  (** [rr.String()], the presentation form of a record. *)
  RR_String : RR -> string;
  (** [net.IP.String] on a sixteen-octet address. *)
  IPv6_String : IPv6 -> string;
  (** the table [dns.TypeToString] *)
  TypeToString : gmap N string
}.

(** The outside world: the generator behind [rand.Intn], draw by draw, and
    the network, exchange by exchange.  The [n]-th exchange of a run may
    answer differently from the one before, also for the same question. *)
Record Network := {
  rand : nat -> nat;
  Exchange : nat -> string -> Question -> ExchangeOutcome
}.

End Dns.

(** ** The state the sequential code reads and writes *)

Module World.
Import Dns.
Local Open Scope Z_scope.

(** resolver.go: [DNSResolver]; its [Client] fixes the transport and the
    timeout, which the network oracle stands for. *)
Record DNSResolver := { Address : string }.

(** resolver.go: [ResolverPool] *)
Record ResolverPool := { resolvers : list DNSResolver; index : Z }.

(** config.go: [DNSResult] *)
Record DNSResult := {
  Domain : string;
  Type_ : N;
  Response : option Msg;
  Error : option string;
  Resolver : string
}.

(** stats.go: the six [int64] counters of [Stats]. *)
Record Stats := {
  totalDomains : Z;
  processedQueries : Z;
  successfulQueries : Z;
  errorQueries : Z;
  noAnswerQueries : Z;
  wildcardQueries : Z
}.

(** One datagram handed to the network. *)
Record Datagram := { dest : string; asked : Question }.

Record State := {
  pool : ResolverPool;
  cache : gmap string bool;
  stats : Stats;
  output : list string;
  draws : nat;
  sent : list Datagram
}.

Definition set_pool (p : ResolverPool) (st : State) : State :=
  {| pool := p; cache := cache st; stats := stats st; output := output st;
     draws := draws st; sent := sent st |}.

Definition set_cache (c : gmap string bool) (st : State) : State :=
  {| pool := pool st; cache := c; stats := stats st; output := output st;
     draws := draws st; sent := sent st |}.

Definition set_stats (s : Stats) (st : State) : State :=
  {| pool := pool st; cache := cache st; stats := s; output := output st;
     draws := draws st; sent := sent st |}.

Definition set_output (o : list string) (st : State) : State :=
  {| pool := pool st; cache := cache st; stats := stats st; output := o;
     draws := draws st; sent := sent st |}.

Definition set_draws (n : nat) (st : State) : State :=
  {| pool := pool st; cache := cache st; stats := stats st; output := output st;
     draws := n; sent := sent st |}.

Definition set_sent (l : list Datagram) (st : State) : State :=
  {| pool := pool st; cache := cache st; stats := stats st; output := output st;
     draws := draws st; sent := l |}.

(** A computation on the state; [None] is a Go run-time panic. *)
Definition M (A : Type) : Type := State -> option (A * State).

Definition ret {A} (a : A) : M A := fun st => Some (a, st).

Definition bind {A B} (m : M A) (f : A -> M B) : M B :=
  fun st => match m st with
            | Some (a, st') => f a st'
            | None => None
            end.

Definition panic {A} : M A := fun _ => None.

Definition get : M State := fun st => Some (st, st).

Definition modify (f : State -> State) : M unit := fun st => Some (tt, f st).

Declare Scope go_scope.
Delimit Scope go_scope with go.
Notation "'let*' x ':=' m 'in' f" := (bind m (fun x => f))
  (at level 10, x name, m at level 100, f at level 200) : go_scope.
Notation "m ';;' f" := (bind m (fun _ => f))
  (at level 100, f at level 200, right associativity) : go_scope.

(** [rand.Intn n] for [n > 0]: the next draw, reduced to [0, n). *)
Definition Intn (net : Network) (n : nat) : M nat :=
  fun st => Some ((rand net (draws st) mod n)%nat, set_draws (S (draws st)) st).

(** One exchange with the resolver at [addr]: the datagram is logged and
    the network answers. *)
Definition exchange (net : Network) (addr : string) (q : Question) : M ExchangeOutcome :=
  fun st =>
    Some (Exchange net (length (sent st)) addr q,
          set_sent (sent st ++ [{| dest := addr; asked := q |}]) st).

End World.

(** ** resolver.go: the two accessors of the pool *)

Module Pool.
Import Dns World.
Local Open Scope Z_scope.
Local Open Scope go_scope.

(** [p.resolvers[i]] for a Go [int]: a panic when out of range. *)
Definition at_index (l : list DNSResolver) (i : Z) : M DNSResolver :=
  if i <? 0 then panic
  else match l !! Z.to_nat i with
       | Some r => ret r
       | None => panic
       end.

Definition len (l : list DNSResolver) : Z := Z.of_nat (length l).

(** [GetResolver]; Go's [%] is the remainder of the truncated division. *)
Definition GetResolver : M (option DNSResolver) :=
  let* st := get in
  let p := pool st in
  if len (resolvers p) =? 0 then ret None
  else
    let* resolver := at_index (resolvers p) (index p) in
    modify (set_pool {| resolvers := resolvers p;
                        index := Z.rem (index p + 1) (len (resolvers p)) |});;
    ret (Some resolver).

(** [GetRandomResolver] *)
Definition GetRandomResolver (net : Network) : M (option DNSResolver) :=
  let* st := get in
  let p := pool st in
  if len (resolvers p) =? 0 then ret None
  else
    let* i := Intn net (length (resolvers p)) in
    let* resolver := at_index (resolvers p) (Z.of_nat i) in
    ret (Some resolver).

(** [GetResolverCount] *)
Definition GetResolverCount (st : State) : Z := len (resolvers (pool st)).

(** [k] calls of [GetResolver] in a row, with what each returned. *)
Fixpoint GetResolver_times (k : nat) : M (list (option DNSResolver)) :=
  match k with
  | O => ret []
  | S k' =>
      let* r := GetResolver in
      let* rs := GetResolver_times k' in
      ret (r :: rs)
  end.

(** The invariant of the pool: a cursor inside a non-empty list. *)
Definition cursor_ok (p : ResolverPool) : Prop :=
  0 <= index p < len (resolvers p).

Lemma at_index_in_range (l : list DNSResolver) (i : Z) (st : State) :
  0 <= i < len l ->
  exists r, l !! Z.to_nat i = Some r /\ at_index l i st = Some (r, st).
Proof.
  intros [Hlo Hhi]. unfold at_index, len in *.
  destruct (Z.ltb_spec i 0) as [?|_]; [lia|].
  destruct (lookup_lt_is_Some_2 l (Z.to_nat i)) as [r Hr]; [lia|].
  exists r. rewrite Hr. split; reflexivity.
Qed.

Lemma GetResolver_step (st : State) :
  cursor_ok (pool st) ->
  exists r,
    resolvers (pool st) !! Z.to_nat (index (pool st)) = Some r /\
    GetResolver st =
      Some (Some r,
            set_pool {| resolvers := resolvers (pool st);
                        index := (index (pool st) + 1) mod len (resolvers (pool st)) |} st).
Proof.
  intros Hok. unfold cursor_ok in Hok.
  destruct (at_index_in_range (resolvers (pool st)) (index (pool st)) st Hok)
    as (r & Hr & Hat).
  exists r. split; [exact Hr|].
  unfold GetResolver, bind, get, modify, ret.
  destruct (Z.eqb_spec (len (resolvers (pool st))) 0) as [E|_]; [lia|].
  rewrite Hat. rewrite Z.rem_mod_nonneg by lia. reflexivity.
Qed.

Lemma GetResolver_empty (st : State) :
  resolvers (pool st) = [] -> GetResolver st = Some (None, st).
Proof. intros E. unfold GetResolver, bind, get. rewrite E. reflexivity. Qed.

(** C6: on a pool with [count > 0] whose cursor starts inside the list, [k]
    calls of [GetResolver] all return, leave the cursor at
    [(initial + k) mod count], inside [0, count), and the [j]-th of them
    returned the resolver at position [(initial + j - 1) mod count]. *)
Theorem round_robin_cursor (k : nat) : forall st : State,
  0 < len (resolvers (pool st)) ->
  0 <= index (pool st) < len (resolvers (pool st)) ->
  exists rs st',
    GetResolver_times k st = Some (rs, st') /\
    resolvers (pool st') = resolvers (pool st) /\
    index (pool st') = (index (pool st) + Z.of_nat k) mod len (resolvers (pool st)) /\
    0 <= index (pool st') < len (resolvers (pool st)) /\
    length rs = k /\
    forall j : nat, (1 <= j <= k)%nat ->
      exists r,
        resolvers (pool st) !!
          Z.to_nat ((index (pool st) + Z.of_nat j - 1) mod len (resolvers (pool st))) = Some r /\
        rs !! (j - 1)%nat = Some (Some r).
Proof.
  induction k as [|k IH]; intros st Hn Hi.
  - exists [], st. cbn. rewrite Z.add_0_r, Z.mod_small by lia.
    repeat split; try lia.
  - destruct (GetResolver_step st Hi) as (r & Hr & Hstep).
    set (st1 := set_pool {| resolvers := resolvers (pool st);
                            index := (index (pool st) + 1) mod len (resolvers (pool st)) |} st)
      in *.
    assert (Hn1 : 0 < len (resolvers (pool st1))) by exact Hn.
    assert (Hi1 : 0 <= index (pool st1) < len (resolvers (pool st1))).
    { cbn. apply Z.mod_pos_bound. exact Hn. }
    destruct (IH st1 Hn1 Hi1) as (rs & st' & Hrun & Hres & Hidx & Hrange & Hlen & Hnth).
    exists (Some r :: rs), st'. cbn [GetResolver_times]. unfold bind at 1.
    rewrite Hstep. unfold bind at 1. rewrite Hrun. cbn [ret].
    cbn [pool set_pool resolvers index st1] in Hres, Hidx, Hrange, Hnth.
    repeat split; try assumption; try lia.
    + rewrite Hidx. rewrite Zplus_mod_idemp_l. f_equal. lia.
    + cbn. lia.
    + intros j Hj. destruct (decide (j = 1%nat)) as [->|Hne].
      * exists r. split; [|reflexivity].
        replace (index (pool st) + Z.of_nat 1 - 1) with (index (pool st)) by lia.
        rewrite Z.mod_small by lia. exact Hr.
      * destruct (Hnth (j - 1)%nat) as (r' & Hr' & Hrs); [lia|].
        exists r'. split.
        -- rewrite <- Hr'. f_equal. f_equal.
           replace ((index (pool st) + 1) mod len (resolvers (pool st))
                    + Z.of_nat (j - 1) - 1)
             with ((index (pool st) + 1) mod len (resolvers (pool st))
                   + (Z.of_nat (j - 1) - 1)) by lia.
           rewrite Zplus_mod_idemp_l. f_equal. lia.
        -- replace (j - 1)%nat with (S (j - 1 - 1)) by lia. exact Hrs.
Qed.

(** The theorem at a pool of three resolvers whose cursor stands at 2. *)
Definition pool3 : State :=
  {| pool := {| resolvers := [ {| Address := "8.8.8.8:53" |};
                               {| Address := "1.1.1.1:53" |};
                               {| Address := "9.9.9.9:53" |} ];
                index := 2 |};
     cache := ∅;
     stats := {| totalDomains := 0; processedQueries := 0; successfulQueries := 0;
                 errorQueries := 0; noAnswerQueries := 0; wildcardQueries := 0 |};
     output := []; draws := 0; sent := [] |}.

Lemma round_robin_cursor_witness :
  exists rs st',
    GetResolver_times 5 pool3 = Some (rs, st') /\
    resolvers (pool st') = resolvers (pool pool3) /\
    index (pool st') = (2 + 5) mod 3 /\
    0 <= index (pool st') < 3 /\
    length rs = 5%nat /\
    forall j : nat, (1 <= j <= 5)%nat ->
      exists r,
        resolvers (pool pool3) !! Z.to_nat ((2 + Z.of_nat j - 1) mod 3) = Some r /\
        rs !! (j - 1)%nat = Some (Some r).
Proof.
  apply (round_robin_cursor 5 pool3); unfold len; simpl; lia.
Defined.

End Pool.

(** ** main.go: one query with its retries *)

Module Lookup.
Import Dns World Pool.
Local Open Scope Z_scope.
Local Open Scope go_scope.

(** config.go: the fields of [Config] the pipeline reads. *)
Record Config := {
  QueryTypes : string;
  Retries : Z;
  Workers : Z;
  WildcardDetection : bool;
  Verbose : bool
}.

Section WithWorld.
Context (lib : Library) (net : Network).

(** The question section [SetQuestion(dns.Fqdn(domain), qtype)] builds. *)
Definition question (domain : string) (qtype : N) : Question :=
  {| Qname := Fqdn lib domain; Qtype := qtype |}.

(** The loop of [performDNSQuery], by the number of attempts left to make.
    The counter [attempt] itself only feeds the log line. *)
Fixpoint attempts (left : nat) (domain : string) (qtype : N)
    (lastErr : option string) : M DNSResult :=
  match left with
  | O =>
      ret {| Domain := domain; Type_ := qtype; Response := None;
             Error := lastErr; Resolver := "" |}
  | S left' =>
      let* resolver := GetResolver in
      match resolver with
      | None => attempts left' domain qtype (Some "no resolvers available")
      | Some resolver =>
          let* out := exchange net (Address resolver) (question domain qtype) in
          match out with
          | ExchangeFailed err => attempts left' domain qtype (Some err)
          | Exchanged response =>
              ret {| Domain := domain; Type_ := qtype; Response := response;
                     Error := None; Resolver := Address resolver |}
          end
      end
  end.

(** [for attempt := 0; attempt <= config.Retries; attempt++] makes
    [Retries + 1] rounds, none when [Retries] is negative.  ([Retries] equal
    to the largest [int] would make [attempt++] wrap; the model covers the
    values below it.) *)
Definition performDNSQuery (config : Config) (domain : string) (qtype : N) : M DNSResult :=
  attempts (Z.to_nat (Retries config + 1)) domain qtype None.

(** One attempt as seen from outside: the resolver asked and the outcome. *)
Definition Attempt : Type := DNSResolver * ExchangeOutcome.

Definition datagram_of (domain : string) (qtype : N) (a : Attempt) : Datagram :=
  {| dest := Address (fst a); asked := question domain qtype |}.

Definition failed (a : Attempt) : Prop := exists e, snd a = ExchangeFailed e.

(** The [i]-th attempt went to the resolver [i] places after the cursor and
    got the network's answer for that exchange. *)
Definition round_robin (st : State) (domain : string) (qtype : N)
    (atts : list Attempt) : Prop :=
  forall (i : nat) (a : Attempt), atts !! i = Some a ->
    resolvers (pool st) !!
      Z.to_nat ((index (pool st) + Z.of_nat i) mod len (resolvers (pool st))) = Some (fst a) /\
    snd a = Exchange net (length (sent st) + i) (Address (fst a)) (question domain qtype).

(** What the last attempt decides. *)
Definition concludes (budget : nat) (domain : string) (qtype : N)
    (atts : list Attempt) (res : DNSResult) : Prop :=
  match last atts with
  | Some (r, Exchanged response) =>
      res = {| Domain := domain; Type_ := qtype; Response := response;
               Error := None; Resolver := Address r |}
  | Some (r, ExchangeFailed e) =>
      length atts = budget /\
      res = {| Domain := domain; Type_ := qtype; Response := None;
               Error := Some e; Resolver := "" |}
  | None => False
  end.

Lemma exchange_eq (addr : string) (q : Question) (st : State) :
  exchange net addr q st =
  Some (Exchange net (length (sent st)) addr q,
        set_sent (sent st ++ [{| dest := addr; asked := q |}]) st).
Proof. reflexivity. Qed.

Lemma attempts_nonempty_pool (domain : string) (qtype : N) (left : nat) :
  forall (st : State) (lastErr : option string),
  cursor_ok (pool st) -> (1 <= left)%nat ->
  exists (atts : list Attempt) (res : DNSResult) (st' : State),
    attempts left domain qtype lastErr st = Some (res, st') /\
    (1 <= length atts <= left)%nat /\
    round_robin st domain qtype atts /\
    sent st' = sent st ++ map (datagram_of domain qtype) atts /\
    resolvers (pool st') = resolvers (pool st) /\
    index (pool st') =
      (index (pool st) + Z.of_nat (length atts)) mod len (resolvers (pool st)) /\
    Forall failed (removelast atts) /\
    concludes left domain qtype atts res.
Proof.
  induction left as [|left IH]; intros st lastErr Hok Hleft; [lia|].
  destruct (GetResolver_step st Hok) as (r & Hr & Hstep).
  cbn [attempts]. unfold bind at 1. rewrite Hstep.
  unfold bind at 1. rewrite exchange_eq.
  set (st0 := set_pool _ st).
  set (o := Exchange net (length (sent st0)) (Address r) (question domain qtype)).
  set (st1 := set_sent _ st0).
  assert (Hfirst : round_robin st domain qtype [(r, o)]).
  { intros i a Hi. destruct i as [|i]; [|destruct i; discriminate].
    injection Hi as <-. cbn [fst snd]. split.
    - rewrite Z.add_0_r, Z.mod_small by exact Hok. exact Hr.
    - subst o. cbn. rewrite Nat.add_0_r. reflexivity. }
  assert (Hidx1 : index (pool st1) = (index (pool st) + 1) mod len (resolvers (pool st)))
    by reflexivity.
  destruct o as [response|err] eqn:Ho.
  - (* the exchange succeeded: the loop returns *)
    exists [(r, Exchanged response)]. eexists. exists st1.
    split; [reflexivity|]. cbn [length map removelast].
    split_and!; try assumption; try lia; try reflexivity.
    constructor.
  - destruct left as [|left].
    + (* that was the last attempt *)
      exists [(r, ExchangeFailed err)]. eexists. exists st1.
      split; [reflexivity|]. cbn [length map removelast].
      split_and!; try assumption; try lia; try reflexivity.
      * constructor.
      * split; reflexivity.
    + (* attempts remain: the loop goes on from [st1] *)
      assert (Hok1 : cursor_ok (pool st1)).
      { unfold cursor_ok. rewrite Hidx1. apply Z.mod_pos_bound.
        unfold cursor_ok in Hok. cbn. lia. }
      destruct (IH st1 (Some err) Hok1 ltac:(lia))
        as (atts & res & st' & Hrun & Hlen & Hrr & Hsent & Hres & Hidx & Hfail & Hconc).
      exists ((r, ExchangeFailed err) :: atts), res, st'.
      split; [exact Hrun|].
      assert (Hne : atts <> []) by (destruct atts; [cbn in Hlen; lia | discriminate]).
      split_and!.
      * cbn. lia.
      * cbn. lia.
      * intros i a Hi. destruct i as [|i].
        { apply (Hfirst 0%nat a). exact Hi. }
        { destruct (Hrr i a Hi) as [Hep Hout].
          change (resolvers (pool st1)) with (resolvers (pool st)) in Hep.
          rewrite Hidx1, Zplus_mod_idemp_l in Hep.
          split.
          - rewrite <- Hep. f_equal. f_equal. f_equal. lia.
          - rewrite Hout. f_equal. subst st1. cbn. rewrite length_app. cbn. lia. }
      * rewrite Hsent. subst st1. cbn. rewrite <- app_assoc. reflexivity.
      * exact Hres.
      * rewrite Hidx, Hidx1. change (resolvers (pool st1)) with (resolvers (pool st)).
        rewrite Zplus_mod_idemp_l. f_equal. cbn [length]. lia.
      * destruct atts as [|a atts]; [congruence|].
        cbn [removelast]. constructor; [exists err; reflexivity | exact Hfail].
      * unfold concludes in *. destruct atts as [|a atts]; [congruence|].
        rewrite last_cons_cons.
        destruct (last (a :: atts)) as [[r' [response|e]]|]; try assumption.
        destruct Hconc as [Hl ->]. split; [cbn in *; lia | reflexivity].
Qed.

Lemma attempts_empty_pool (domain : string) (qtype : N) (left : nat) :
  forall (st : State) (lastErr : option string),
  resolvers (pool st) = [] ->
  attempts left domain qtype lastErr st =
  Some ({| Domain := domain; Type_ := qtype; Response := None;
           Error := match left with
                    | O => lastErr
                    | S _ => Some "no resolvers available"
                    end;
           Resolver := "" |}, st).
Proof.
  induction left as [|left IH]; intros st lastErr Hempty; [reflexivity|].
  cbn [attempts]. unfold bind. rewrite (GetResolver_empty st Hempty).
  rewrite (IH st _ Hempty). destruct left; reflexivity.
Qed.

(** C5: with [r = Retries >= 0], [performDNSQuery] returns.  On a pool in
    order it made [k] attempts, [1 <= k <= r + 1]; attempt [i] asked the
    resolver [i] places after the cursor, which ends [k] places further;
    every attempt but the last failed; if the last one succeeded the result
    is that Success, otherwise [k = r + 1] and the result is the Failure
    with the error of the last attempt.  On an empty pool every attempt
    finds no resolver, nothing is sent, and the result is the Failure with
    that error. *)
Theorem performDNSQuery_retry_policy (config : Config) (domain : string) (qtype : N)
    (st : State) :
  0 <= Retries config < GoStrings.maxInt ->
  (cursor_ok (pool st) ->
   exists (atts : list Attempt) (res : DNSResult) (st' : State),
     performDNSQuery config domain qtype st = Some (res, st') /\
     1 <= Z.of_nat (length atts) <= Retries config + 1 /\
     round_robin st domain qtype atts /\
     sent st' = sent st ++ map (datagram_of domain qtype) atts /\
     resolvers (pool st') = resolvers (pool st) /\
     index (pool st') =
       (index (pool st) + Z.of_nat (length atts)) mod len (resolvers (pool st)) /\
     Forall failed (removelast atts) /\
     concludes (Z.to_nat (Retries config + 1)) domain qtype atts res) /\
  (resolvers (pool st) = [] ->
   performDNSQuery config domain qtype st =
   Some ({| Domain := domain; Type_ := qtype; Response := None;
            Error := Some "no resolvers available"; Resolver := "" |}, st)).
Proof.
  intros Hr. split.
  - intros Hok.
    destruct (attempts_nonempty_pool domain qtype (Z.to_nat (Retries config + 1))
                st None Hok ltac:(lia))
      as (atts & res & st' & Hrun & Hlen & Hrest).
    exists atts, res, st'. split; [exact Hrun|]. split; [lia | exact Hrest].
  - intros Hempty. unfold performDNSQuery.
    rewrite (attempts_empty_pool domain qtype _ st None Hempty).
    destruct (Z.to_nat (Retries config + 1)) eqn:E; [lia | reflexivity].
Qed.

End WithWorld.
End Lookup.

(** ** wildcard.go: the wildcard detector *)

Module Wildcard.
Import GoStrings QueryTypes Dns World Pool Lookup.
Local Open Scope go_scope.

Section WithWorld.
Context (lib : Library) (net : Network).

Definition charset : string := "abcdefghijklmnopqrstuvwxyz0123456789".

(** [charset[i]] *)
Definition charset_at (i : nat) : ascii :=
  match String.get i charset with
  | Some c => c
  | None => "a"%char
  end.

(** [generateRandomString]: one draw of [rand.Intn(len(charset))] per byte.
    The call of [rand.Seed] before the draws is part of the generator the
    world stands for. *)
Fixpoint generateRandomString (length : nat) : M string :=
  match length with
  | O => ret EmptyString
  | S length' =>
      let* i := Intn net (String.length charset) in
      let* rest := generateRandomString length' in
      ret (String (charset_at i) rest)
  end.

(** [generateRandomSubdomains] *)
Fixpoint generateRandomSubdomains (baseDomain : string) (count : nat) : M (list string) :=
  match count with
  | O => ret []
  | S count' =>
      let* randomString := generateRandomString 12 in
      let subdomain := randomString +:+ "." +:+ baseDomain in
      let* subdomains := generateRandomSubdomains baseDomain count' in
      ret (subdomain :: subdomains)
  end.

(** The body of the loop over [response.Answer] in [queryDomain]: what one
    record appends to [answers]. *)
Definition answers_of (qtype : N) (rr : RR) : list string :=
  if (qtype =? TypeA)%N then
    match rr with RR_A _ a => [IPv4_String a] | _ => [] end
  else if (qtype =? TypeAAAA)%N then
    match rr with RR_AAAA _ aaaa => [IPv6_String lib aaaa] | _ => [] end
  else if (qtype =? TypeCNAME)%N then
    match rr with RR_CNAME _ target => [target] | _ => [] end
  else [RR_String lib rr].

(** [queryDomain]; a nil slice and an empty one are the same list. *)
Definition queryDomain (domain : string) (qtype : N) : M (list string) :=
  let* resolver := GetRandomResolver net in
  match resolver with
  | None => ret []
  | Some resolver =>
      let* out := exchange net (Address resolver) (question lib domain qtype) in
      match out with
      | ExchangeFailed _ => ret []
      | Exchanged None => ret []
      | Exchanged (Some response) => ret (flat_map (answers_of qtype) (Answer response))
      end
  end.

(** The loop [for i := range a] of [sliceEqual], entered with equal lengths. *)
Fixpoint sliceEqual_loop (a b : list string) : bool :=
  match a, b with
  | [], _ => true
  | x :: a', y :: b' => if String.eqb x y then sliceEqual_loop a' b' else false
  | _ :: _, [] => false
  end.

(** [sliceEqual] *)
Definition sliceEqual (a b : list string) : bool :=
  if (length a =? length b)%nat then sliceEqual_loop a b else false.

(** The first loop of [detectWildcard]: [None] is its [return false]. *)
Fixpoint probe (testSubdomains : list string) (qtype : N)
    (responses : list (list string)) : M (option (list (list string))) :=
  match testSubdomains with
  | [] => ret (Some responses)
  | testDomain :: rest =>
      let* answers := queryDomain testDomain qtype in
      let responses := responses ++ [answers] in
      if (length answers =? 0)%nat then ret None
      else probe rest qtype responses
  end.

(** The second loop: [consistentResponses] after comparing [firstResponse]
    with [responses[1:]]. *)
Fixpoint consistent (firstResponse : list string) (others : list (list string)) : bool :=
  match others with
  | [] => true
  | r :: rest => if sliceEqual firstResponse r then consistent firstResponse rest else false
  end.

(** [detectWildcard] *)
Definition detectWildcard (baseDomain : string) (qtype : N) : M bool :=
  let* testSubdomains := generateRandomSubdomains baseDomain 3 in
  let* probed := probe testSubdomains qtype [] in
  match probed with
  | None => ret false
  | Some responses =>
      if (length responses <? 2)%nat then ret false
      else match responses with
           | [] => ret false
           | firstResponse :: others =>
               ret (consistent firstResponse others && (0 <? length firstResponse)%nat)
           end
  end.

(** [IsWildcard] *)
Definition IsWildcard (result : DNSResult) : M bool :=
  match Response result with
  | None => ret false
  | Some response =>
      if (length (Answer response) =? 0)%nat then ret false
      else
        let domain := TrimSuffix (Domain result) "." in
        match EffectiveTLDPlusOne lib domain with
        | None => ret false
        | Some baseDomain =>
            let* st := get in
            match cache st !! baseDomain with
            | Some isWildcard => ret isWildcard
            | None =>
                let* isWildcard := detectWildcard baseDomain (Type_ result) in
                modify (fun st => set_cache (<[baseDomain := isWildcard]> (cache st)) st);;
                ret isWildcard
            end
        end
  end.

(** [ClearCache] and [GetCacheSize] *)
Definition ClearCache : M unit := modify (set_cache ∅).
Definition GetCacheSize (st : State) : nat := size (cache st).

End WithWorld.

(** *** The detector as the specification words it

    Three probes are issued whatever they return, each answer list is
    normalized by sorting, and the verdict compares the normalized lists. *)






Section Facts.
Context (lib : Library) (net : Network).

(** What a computation leaves alone when it only draws and sends. *)
Definition frame (st st' : State) : Prop :=
  pool st' = pool st /\ cache st' = cache st /\
  stats st' = stats st /\ output st' = output st.

Lemma frame_refl st : frame st st.
Proof. repeat split. Qed.

Lemma frame_trans st1 st2 st3 : frame st1 st2 -> frame st2 st3 -> frame st1 st3.
Proof. unfold frame. intros (?&?&?&?) (?&?&?&?). split_and!; congruence. Qed.

Lemma generateRandomString_total (n : nat) : forall st,
  exists s st', generateRandomString net n st = Some (s, st') /\
    String.length s = n /\ frame st st' /\ sent st' = sent st.
Proof.
  induction n as [|n IH]; intros st.
  - exists EmptyString, st. split_and!; try reflexivity. apply frame_refl.
  - cbn [generateRandomString]. unfold bind at 1. cbn [Intn].
    destruct (IH (set_draws (S (draws st)) st)) as (s & st' & Hrun & Hlen & Hfr & Hsent).
    unfold bind at 1. rewrite Hrun. eexists. exists st'.
    split; [reflexivity|]. split_and!.
    + cbn. congruence.
    + exact Hfr.
    + exact Hsent.
Qed.

(** A probe name: twelve generated bytes, a dot, the base domain. *)
Definition probe_name (baseDomain t : string) : Prop :=
  exists label, t = label +:+ "." +:+ baseDomain /\ String.length label = 12%nat.

Lemma generateRandomSubdomains_total (baseDomain : string) (count : nat) : forall st,
  exists l st', generateRandomSubdomains net baseDomain count st = Some (l, st') /\
    length l = count /\ Forall (probe_name baseDomain) l /\
    frame st st' /\ sent st' = sent st.
Proof.
  induction count as [|count IH]; intros st.
  - exists [], st. split_and!; try reflexivity; [constructor | apply frame_refl].
  - destruct (generateRandomString_total 12 st) as (s & st1 & Hs & Hlen & Hfr1 & Hsent1).
    destruct (IH st1) as (l & st' & Hrun & Hl & Hall & Hfr & Hsent).
    exists ((s +:+ "." +:+ baseDomain) :: l), st'.
    cbn [generateRandomSubdomains]. unfold bind at 1. rewrite Hs.
    unfold bind at 1. rewrite Hrun. split; [reflexivity|]. split_and!.
    + cbn. congruence.
    + constructor; [exists s; split; [reflexivity | exact Hlen] | exact Hall].
    + exact (frame_trans _ _ _ Hfr1 Hfr).
    + congruence.
Qed.

Lemma GetRandomResolver_total (st : State) :
  exists r st', GetRandomResolver net st = Some (r, st') /\
    frame st st' /\ sent st' = sent st /\
    (resolvers (pool st) = [] -> r = None /\ st' = st) /\
    (forall x, r = Some x -> x ∈ resolvers (pool st)).
Proof.
  unfold GetRandomResolver, bind, get.
  destruct (resolvers (pool st)) as [|r0 rs] eqn:E.
  - exists None, st. cbn. split_and!; try reflexivity; try apply frame_refl; auto.
    intros x Hx. discriminate.
  - unfold len. cbn [length]. destruct (Z.eqb_spec (Z.of_nat (S (length rs))) 0); [lia|].
    cbn [Intn].
    set (i := (rand net (draws st) mod S (length rs))%nat).
    assert (Hi : (i < S (length rs))%nat) by (apply Nat.mod_upper_bound; lia).
    destruct (at_index_in_range (r0 :: rs) (Z.of_nat i) (set_draws (S (draws st)) st))
      as (r & Hr & Hat).
    { unfold len. cbn [length]. lia. }
    rewrite Hat. exists (Some r), (set_draws (S (draws st)) st).
    split_and!; try reflexivity.
    + repeat split.
    + intros H. discriminate.
    + intros x [= <-]. rewrite <- E in Hr |- *.
      apply list_elem_of_lookup. eauto.
Qed.

Lemma queryDomain_total (domain : string) (qtype : N) (st : State) :
  exists a st', queryDomain lib net domain qtype st = Some (a, st') /\
    frame st st' /\
    (sent st' = sent st \/
     exists r, r ∈ resolvers (pool st) /\
       sent st' = sent st ++ [{| dest := Address r; asked := question lib domain qtype |}]) /\
    (resolvers (pool st) = [] -> a = [] /\ st' = st).
Proof.
  destruct (GetRandomResolver_total st) as (r & st1 & Hr & Hfr & Hsent & Hempty & Hin).
  unfold queryDomain, bind. rewrite Hr. destruct r as [r|].
  - rewrite exchange_eq.
    assert (Hne : resolvers (pool st) = [] -> False).
    { intros E. destruct (Hempty E) as [? _]. discriminate. }
    assert (Hfr2 : frame st (set_sent (sent st1 ++ [{| dest := Address r;
                     asked := question lib domain qtype |}]) st1)).
    { destruct Hfr as (?&?&?&?). split_and!; assumption. }
    destruct (Exchange net (length (sent st1)) (Address r) (question lib domain qtype))
      as [[response|]|err]; eexists; eexists; (split; [reflexivity|]);
      (split_and!; [exact Hfr2 | right; exists r; split; [auto | cbn; congruence]
                   | intros E; destruct (Hne E)]).
  - exists [], st1. split; [reflexivity|]. split_and!; auto.
    intros E. destruct (Hempty E) as [_ ->]. auto.
Qed.

Lemma sliceEqual_loop_spec (a : list string) : forall b,
  length a = length b -> sliceEqual_loop a b = bool_decide (a = b).
Proof.
  induction a as [|x a IH]; intros [|y b] Hlen; try discriminate.
  - reflexivity.
  - cbn [sliceEqual_loop]. destruct (String.eqb_spec x y) as [->|Hne].
    + rewrite IH by (cbn in Hlen; lia).
      apply bool_decide_ext. split; [intros ->; reflexivity | intros [= ->]; reflexivity].
    + symmetry. apply bool_decide_eq_false. intros [= ? ?]. contradiction.
Qed.

(** [sliceEqual] decides equality of the two slices as sequences: same
    length, same string at every index. *)
Lemma sliceEqual_spec (a b : list string) : sliceEqual a b = bool_decide (a = b).
Proof.
  unfold sliceEqual. destruct (Nat.eqb_spec (length a) (length b)) as [E|Hne].
  - apply sliceEqual_loop_spec. exact E.
  - symmetry. apply bool_decide_eq_false. intros ->. contradiction.
Qed.

(** The run of [detectWildcard], probe by probe: three names are
    generated; the probes are sent one after the other and the first that
    brings no answer ends the detection; with three non-empty answer lists
    the verdict compares the second and the third with the first. *)
Lemma detectWildcard_steps (baseDomain : string) (qtype : N) (st : State) :
  exists t1 t2 t3 st0 a1 st1 a2 st2 a3 st3,
    generateRandomSubdomains net baseDomain 3 st = Some ([t1; t2; t3], st0) /\
    Forall (probe_name baseDomain) [t1; t2; t3] /\
    queryDomain lib net t1 qtype st0 = Some (a1, st1) /\
    queryDomain lib net t2 qtype st1 = Some (a2, st2) /\
    queryDomain lib net t3 qtype st2 = Some (a3, st3) /\
    detectWildcard lib net baseDomain qtype st =
      match a1, a2, a3 with
      | [], _, _ => Some (false, st1)
      | _ :: _, [], _ => Some (false, st2)
      | _ :: _, _ :: _, [] => Some (false, st3)
      | _ :: _, _ :: _, _ :: _ => Some (bool_decide (a2 = a1 /\ a3 = a1), st3)
      end.
Proof.
  destruct (generateRandomSubdomains_total baseDomain 3 st)
    as (l & st0 & Hgen & Hlen & Hnames & _ & _).
  destruct l as [|t1 [|t2 [|t3 [|? ?]]]]; try (cbn in Hlen; lia).
  destruct (queryDomain_total t1 qtype st0) as (a1 & st1 & Hq1 & _).
  destruct (queryDomain_total t2 qtype st1) as (a2 & st2 & Hq2 & _).
  destruct (queryDomain_total t3 qtype st2) as (a3 & st3 & Hq3 & _).
  exists t1, t2, t3, st0, a1, st1, a2, st2, a3, st3.
  split_and!; try assumption.
  unfold detectWildcard. unfold bind at 1. rewrite Hgen.
  unfold bind at 1. cbn [probe]. unfold bind at 1. rewrite Hq1.
  destruct a1 as [|x1 a1]; [reflexivity|]. cbn [length Nat.eqb].
  unfold bind at 1. rewrite Hq2.
  destruct a2 as [|x2 a2]; [reflexivity|]. cbn [length Nat.eqb].
  unfold bind at 1. rewrite Hq3.
  destruct a3 as [|x3 a3]; [reflexivity|]. cbn [length Nat.eqb].
  cbn [ret app length Nat.ltb Nat.leb consistent].
  rewrite !sliceEqual_spec. unfold ret. f_equal. f_equal.
  clear Hgen Hq1 Hq2 Hq3.
  repeat case_bool_decide; cbn; try reflexivity; exfalso;
    repeat match goal with
           | H : _ /\ _ |- _ => destruct H
           | H : ~ (_ /\ _) |- False => apply H; split
           end; congruence.
Qed.






(** A base domain already in the cache is answered from it. *)
Lemma IsWildcard_cached (result : DNSResult) (response : Msg) (baseDomain : string)
    (w : bool) (st : State) :
  Response result = Some response ->
  Answer response <> [] ->
  EffectiveTLDPlusOne lib (GoStrings.TrimSuffix (Domain result) ".") = Some baseDomain ->
  cache st !! baseDomain = Some w ->
  IsWildcard lib net result st = Some (w, st).
Proof.
  intros Hresp Hans Hbase Hhit. unfold IsWildcard. rewrite Hresp.
  destruct (Answer response) as [|rr rrs]; [congruence|]. cbn [length Nat.eqb].
  rewrite Hbase. unfold bind at 1. cbn [get]. rewrite Hhit. reflexivity.
Qed.

(** The verdict the detector stores for [baseDomain] once it had to probe. *)
Lemma IsWildcard_probes (result : DNSResult) (response : Msg) (baseDomain : string)
    (st : State) :
  Response result = Some response ->
  Answer response <> [] ->
  EffectiveTLDPlusOne lib (GoStrings.TrimSuffix (Domain result) ".") = Some baseDomain ->
  cache st !! baseDomain = None ->
  exists v st1,
    detectWildcard lib net baseDomain (Type_ result) st = Some (v, st1) /\
    IsWildcard lib net result st =
      Some (v, set_cache (<[baseDomain := v]> (cache st1)) st1).
Proof.
  intros Hresp Hans Hbase Hmiss.
  destruct (detectWildcard_steps baseDomain (Type_ result) st)
    as (t1 & t2 & t3 & st0 & a1 & st1 & a2 & st2 & a3 & st3 & _ & _ & _ & _ & _ & Hrun).
  assert (Hdet : exists v st1,
             detectWildcard lib net baseDomain (Type_ result) st = Some (v, st1)).
  { rewrite Hrun. destruct a1, a2, a3; eauto. }
  destruct Hdet as (v & stv & Hv). exists v, stv. split; [exact Hv|].
  unfold IsWildcard. rewrite Hresp.
  destruct (Answer response) as [|rr rrs]; [congruence|]. cbn [length Nat.eqb].
  rewrite Hbase. unfold bind at 1. cbn [get]. rewrite Hmiss.
  unfold bind at 1. rewrite Hv. reflexivity.
Qed.

Lemma IsWildcard_unparsed (result : DNSResult) (st : State) :
  EffectiveTLDPlusOne lib (GoStrings.TrimSuffix (Domain result) ".") = None ->
  IsWildcard lib net result st = Some (false, st).
Proof.
  intros Hbase. unfold IsWildcard.
  destruct (Response result) as [response|]; [|reflexivity].
  destruct (length (Answer response) =? 0)%nat; [reflexivity|].
  rewrite Hbase. reflexivity.
Qed.

(** C4, as the code behaves: when [EffectiveTLDPlusOne] rejects the domain,
    [IsWildcard] answers not-wildcard and changes nothing; when the pool is
    empty, so that the first probe finds no endpoint, it answers
    not-wildcard, sends nothing, and stores the verdict [false] for the
    base domain in the cache. *)
Theorem IsWildcard_failure_paths (result : DNSResult) (st : State) :
  (EffectiveTLDPlusOne lib (GoStrings.TrimSuffix (Domain result) ".") = None ->
   IsWildcard lib net result st = Some (false, st)) /\
  (forall response baseDomain,
     Response result = Some response ->
     Answer response <> [] ->
     EffectiveTLDPlusOne lib (GoStrings.TrimSuffix (Domain result) ".") = Some baseDomain ->
     cache st !! baseDomain = None ->
     resolvers (pool st) = [] ->
     exists st',
       IsWildcard lib net result st = Some (false, st') /\
       cache st' = <[baseDomain := false]> (cache st) /\
       sent st' = sent st /\ pool st' = pool st /\
       stats st' = stats st /\ output st' = output st).
Proof.
  split.
  - apply IsWildcard_unparsed.
  - intros response baseDomain Hresp Hans Hbase Hmiss Hempty.
    destruct (IsWildcard_probes result response baseDomain st Hresp Hans Hbase Hmiss)
      as (v & st1 & Hdet & Hrun).
    destruct (detectWildcard_steps baseDomain (Type_ result) st)
      as (t1 & t2 & t3 & st0 & a1 & s1 & a2 & s2 & a3 & s3
          & Hgen & _ & Hq1 & _ & _ & Hverdict).
    destruct (generateRandomSubdomains_total baseDomain 3 st)
      as (l & st0' & Hgen' & _ & _ & Hfr & Hsent).
    rewrite Hgen in Hgen'. injection Hgen' as <- <-.
    destruct Hfr as (Hp & Hc & Hs & Ho).
    destruct (queryDomain_total t1 (Type_ result) st0) as (a & s & Hq & _ & _ & Hnone).
    rewrite Hq1 in Hq. injection Hq as <- <-.
    destruct Hnone as [-> ->]; [congruence|].
    rewrite Hverdict in Hdet. injection Hdet as <- <-.
    exists (set_cache (<[baseDomain := false]> (cache st0)) st0).
    split; [exact Hrun|]. cbn. rewrite Hc. split_and!; auto.
Qed.

(** The early return of [IsWildcard]: a result without a response, or with an
    empty answer section, makes [IsWildcard] return [false] at once; no
    name is generated, nothing is sent, the cache and everything else stay
    as they were. *)
Lemma IsWildcard_no_answer (result : DNSResult) (st : State) :
  (Response result = None \/
   exists response, Response result = Some response /\ Answer response = []) ->
  IsWildcard lib net result st = Some (false, st).
Proof.
  intros [Hnil | (response & Hresp & Hempty)]; unfold IsWildcard.
  - rewrite Hnil. reflexivity.
  - rewrite Hresp, Hempty. reflexivity.
Qed.

End Facts.
End Wildcard.

(** ** net: the text form of an address *)

Module NetIP.
Import GoStrings Dns.
Local Open Scope N_scope.

Definition hexDigit : list ascii := String.list_ascii_of_string "0123456789abcdef".

Definition digit_at (v : N) : string :=
  String (nth (N.to_nat v) hexDigit "0"%char) EmptyString.

(** [appendHex] of net/netip: a 16-bit group without leading zeros. *)
Definition appendHex (x : N) : string :=
  (if 4096 <=? x then digit_at (N.shiftr x 12) else EmptyString) +:+
  (if 256 <=? x then digit_at (N.land (N.shiftr x 8) 15) else EmptyString) +:+
  (if 16 <=? x then digit_at (N.land (N.shiftr x 4) 15) else EmptyString) +:+
  digit_at (N.land x 15).

(** [ip[i]] *)
Definition at_ (ip : list N) (i : nat) : N := nth i ip 0.

(** [netip.AddrFrom16]: the sixteen octets as eight 16-bit groups. *)
Definition AddrFrom16 (ip : list N) : list N :=
  map (fun i => at_ ip (2 * i) * 256 + at_ ip (2 * i + 1)) (seq 0 8).

Definition v6u16 (a : list N) (i : nat) : N := nth i a 0.

(** The inner loop of [appendTo6]: [for j < 8 && ip.v6u16(j) == 0 { j++ }]. *)
Fixpoint zero_run_end (a : list N) (j : nat) (fuel : nat) : nat :=
  match fuel with
  | O => j
  | S fuel' =>
      if (j <? 8)%nat && (v6u16 a j =? 0) then zero_run_end a (S j) fuel' else j
  end.

(** One round of its outer loop: a run of two groups or more that is longer
    than the one kept replaces it. *)
Definition zero_run_step (a : list N) (z : nat * nat) (i : nat) : nat * nat :=
  let j := zero_run_end a i 8 in
  let l := (j - i)%nat in
  if (2 <=? l)%nat && (snd z - fst z <? l)%nat then (i, j) else z.

(** [zeroStart, zeroEnd], both 255 when nothing is to be compressed. *)
Definition zero_run (a : list N) : nat * nat :=
  fold_left (zero_run_step a) (seq 0 8) (255%nat, 255%nat).

(** The printing loop of [appendTo6]. *)
Fixpoint print6 (a : list N) (zeroStart zeroEnd : nat) (i : nat) (fuel : nat)
    (ret : string) : string :=
  match fuel with
  | O => ret
  | S fuel' =>
      if (8 <=? i)%nat then ret
      else if (i =? zeroStart)%nat then
        let ret := ret +:+ "::" in
        let i := zeroEnd in
        if (8 <=? i)%nat then ret
        else print6 a zeroStart zeroEnd (S i) fuel' (ret +:+ appendHex (v6u16 a i))
      else
        let ret := if (0 <? i)%nat then ret +:+ ":" else ret in
        print6 a zeroStart zeroEnd (S i) fuel' (ret +:+ appendHex (v6u16 a i))
  end.

(** [netip.Addr.String] on an address without zone that [To4] left alone. *)
Definition string6 (a : list N) : string :=
  let z := zero_run a in print6 a (fst z) (snd z) 0 8 EmptyString.

(** [netip.Addr.String] on a four-octet address. *)
Definition string4 (p4 : list N) : string :=
  itoa (at_ p4 0) +:+ "." +:+ itoa (at_ p4 1) +:+ "." +:+ itoa (at_ p4 2) +:+ "."
    +:+ itoa (at_ p4 3).

Definition isZeros (p : list N) : bool := forallb (fun b => b =? 0) p.

(** [net.IP.To4]; [None] is nil. *)
Definition To4 (ip : list N) : option (list N) :=
  if (length ip =? 4)%nat then Some ip
  else if (length ip =? 16)%nat && isZeros (take 10 ip) && (at_ ip 10 =? 255)
          && (at_ ip 11 =? 255)
       then Some (drop 12 ip)
       else None.

Fixpoint hexString (b : list N) : string :=
  match b with
  | [] => EmptyString
  | tn :: rest => digit_at (N.shiftr tn 4) +:+ digit_at (N.land tn 15) +:+ hexString rest
  end.

(** [net.IP.String] *)
Definition String_ (ip : IPv6) : string :=
  if (length ip =? 0)%nat then "<nil>"
  else if negb (length ip =? 4)%nat && negb (length ip =? 16)%nat then "?" +:+ hexString ip
  else match To4 ip with
       | Some p4 => string4 p4
       | None => string6 (AddrFrom16 ip)
       end.

Example String_forms :
  String_ [32; 1; 13; 184; 0; 0; 0; 0; 0; 0; 0; 0; 0; 0; 0; 1] = "2001:db8::1" /\
  String_ [0; 1; 0; 0; 0; 0; 0; 2; 0; 0; 0; 0; 0; 0; 0; 3] = "1:0:0:2::3" /\
  String_ [32; 1; 13; 184; 0; 0; 0; 1; 0; 1; 0; 1; 0; 1; 0; 1] = "2001:db8:0:1:1:1:1:1" /\
  String_ [0; 0; 0; 0; 0; 0; 0; 0; 0; 0; 0; 0; 0; 0; 0; 1] = "::1" /\
  String_ [0; 0; 0; 0; 0; 0; 0; 0; 0; 0; 255; 255; 93; 184; 216; 34] = "93.184.216.34".
Proof. vm_compute. split_and!; reflexivity. Qed.

End NetIP.

(** ** output.go *)

Module Output.
Import GoStrings Dns World.
Local Open Scope go_scope.

(** [OutputRecord]; [Type] and [Record] are reserved words here. *)
Record OutputRecord := {
  Domain : string;
  Type_ : string;
  Record_ : string;
  Value : string;
  TTL : N;
  Resolver : string
}.

(** [OutputHandler]: the format; what is written to [file] is appended to
    the [output] of the state, one element per write. *)
Record OutputHandler := { format : string }.

(** The two encoders of the standard library the other formats use. *)
Record Encoders := {
  json_Marshal : OutputRecord -> option string;
  csv_Write : list string -> string
}.

Definition tab : string := String (Ascii.ascii_of_nat 9) EmptyString.
Definition newline : string := String (Ascii.ascii_of_nat 10) EmptyString.

Section WithLibrary.
Context (lib : Library) (enc : Encoders).

(** [dns.TypeToString[t]]: the empty string for a type not in the table. *)
Definition type_name (t : N) : string := default EmptyString (TypeToString lib !! t).

(** The type switch of [extractRecords]. *)
Definition record_value (rr : RR) : string :=
  match rr with
  | RR_A _ a => IPv4_String a
  | RR_AAAA _ aaaa => IPv6_String lib aaaa
  | RR_CNAME _ target => target
  | RR_MX _ preference mx => itoa preference +:+ " " +:+ mx
  | RR_NS _ ns => ns
  | RR_TXT _ txt => Join txt " "
  | RR_SOA _ ns mbox serial refresh retry expire minttl =>
      ns +:+ " " +:+ mbox +:+ " " +:+ itoa serial +:+ " " +:+ itoa refresh +:+ " "
         +:+ itoa retry +:+ " " +:+ itoa expire +:+ " " +:+ itoa minttl
  | RR_PTR _ ptr => ptr
  | RR_SRV _ priority weight port target =>
      itoa priority +:+ " " +:+ itoa weight +:+ " " +:+ itoa port +:+ " " +:+ target
  | RR_Other _ _ => RR_String lib rr
  end.

Definition extractRecord (result : DNSResult) (rr : RR) : OutputRecord :=
  {| Domain := World.Domain result;
     Type_ := type_name (World.Type_ result);
     Record_ := Name (Header rr);
     Value := record_value rr;
     TTL := Ttl (Header rr);
     Resolver := World.Resolver result |}.

(** [extractRecords]; reading the answers of a nil response panics. *)
Definition extractRecords (result : DNSResult) : M (list OutputRecord) :=
  match Response result with
  | None => panic
  | Some response => ret (map (extractRecord result) (Answer response))
  end.

Definition write (chunk : string) : M unit :=
  modify (fun st => set_output (output st ++ [chunk]) st).

(** [writeSimple]: one [Fprintf] of ["%s\t%s\t%s\t%d\n"] per record. *)
Fixpoint writeSimple (records : list OutputRecord) : M unit :=
  match records with
  | [] => ret tt
  | record :: rest =>
      write (Domain record +:+ tab +:+ Type_ record +:+ tab +:+ Value record
               +:+ tab +:+ itoa (TTL record) +:+ newline);;
      writeSimple rest
  end.

(** [writeJSON]: a record that does not marshal is skipped. *)
Fixpoint writeJSON (records : list OutputRecord) : M unit :=
  match records with
  | [] => ret tt
  | record :: rest =>
      match json_Marshal enc record with
      | None => writeJSON rest
      | Some data => write (data +:+ newline);; writeJSON rest
      end
  end.

(** [writeCSV], for a handler whose writer is the CSV writer. *)
Fixpoint writeCSV (records : list OutputRecord) : M unit :=
  match records with
  | [] => ret tt
  | record :: rest =>
      write (csv_Write enc [Domain record; Type_ record; Record_ record; Value record;
                            itoa (TTL record); Resolver record]);;
      writeCSV rest
  end.

(** [WriteResult] *)
Definition WriteResult (o : OutputHandler) (result : DNSResult) : M unit :=
  match Response result with
  | None => ret tt
  | Some response =>
      if (length (Answer response) =? 0)%nat then ret tt
      else
        let* records := extractRecords result in
        if String.eqb (format o) "json" then writeJSON records
        else if String.eqb (format o) "csv" then writeCSV records
        else writeSimple records
  end.

(** *** The table of the specification *)

Definition spaced (fields : list string) : string := Join fields " ".

(** A group in hexadecimal, lower case, without leading zeros. *)
Definition spec_hex (g : N) : string :=
  HexadecimalString.NilZero.string_of_uint (N.to_hex_uint g).

(** The eight groups of a sixteen-octet address. *)
Fixpoint spec_groups (ip : IPv6) : list N :=
  match ip with
  | hi :: lo :: rest => (hi * 256 + lo)%N :: spec_groups rest
  | _ => []
  end.

(** The windows [(start, length)] of two groups or more, the longer ones
    first and, at equal length, the ones further left first. *)
Definition spec_windows : list (nat * nat) :=
  flat_map (fun l => map (fun i => (i, l)) (seq 0 (9 - l))) [8; 7; 6; 5; 4; 3; 2]%nat.

Definition spec_all_zero (g : list N) (w : nat * nat) : bool :=
  forallb (fun x => (x =? 0)%N) (take (snd w) (drop (fst w) g)).

(** The canonical hex form: the groups separated by colons, the longest
    run of two or more zero groups (the leftmost of the longest) written
    as a double colon. *)
Definition spec_hex_form (ip : IPv6) : string :=
  let g := spec_groups ip in
  match List.find (spec_all_zero g) spec_windows with
  | None => Join (map spec_hex g) ":"
  | Some (i, l) =>
      Join (map spec_hex (take i g)) ":" +:+ "::" +:+ Join (map spec_hex (drop (i + l) g)) ":"
  end.

(** An IPv4-mapped address, [::ffff:a.b.c.d]. *)
Definition spec_v4_mapped (ip : IPv6) : bool :=
  bool_decide (take 12 ip = [0; 0; 0; 0; 0; 0; 0; 0; 0; 0; 255; 255]%N).

Definition spec_dotted_quad (octets : list N) : string := Join (map itoa octets) ".".

(** The text of an AAAA record as the program prints it. *)
Definition spec_AAAA (ip : IPv6) : string :=
  if spec_v4_mapped ip then spec_dotted_quad (drop 12 ip) else spec_hex_form ip.

(** The table, with the AAAA row as the program fills it. *)
Definition spec_value (rr : RR) : string :=
  match rr with
  | RR_A _ a => spec_dotted_quad [o1 a; o2 a; o3 a; o4 a]
  | RR_AAAA _ aaaa => spec_AAAA aaaa
  | RR_CNAME _ target | RR_NS _ target | RR_PTR _ target => target
  | RR_MX _ pref exchange => spaced [itoa pref; exchange]
  | RR_TXT _ strings => spaced strings
  | RR_SOA _ ns mbox serial refresh retry expire minttl =>
      spaced [ns; mbox; itoa serial; itoa refresh; itoa retry; itoa expire; itoa minttl]
  | RR_SRV _ prio weight port target =>
      spaced [itoa prio; itoa weight; itoa port; target]
  | RR_Other _ _ => RR_String lib rr
  end.

(** The table as the claim has it: AAAA always in hex form. *)
Definition claimed_value (rr : RR) : string :=
  match rr with
  | RR_AAAA _ aaaa => spec_hex_form aaaa
  | _ => spec_value rr
  end.

(** A line of the simple format. *)
Definition spec_simple_line (domain type_name value : string) (ttl : N) : string :=
  Join [domain; type_name; value; itoa ttl] (String "009"%char EmptyString)
    +:+ String "010"%char EmptyString.

(** An AAAA record as it comes off the wire: sixteen octets. *)
Definition wire_form (rr : RR) : bool :=
  match rr with
  | RR_AAAA _ aaaa => (length aaaa =? 16)%nat && forallb (fun b => (b <? 256)%N) aaaa
  | _ => true
  end.

Lemma append_assoc (a b c : string) : (a +:+ b) +:+ c = a +:+ (b +:+ c).
Proof.
  induction a as [|x a IH]; [reflexivity|].
  change (String x ((a +:+ b) +:+ c) = String x (a +:+ (b +:+ c))).
  rewrite IH. reflexivity.
Qed.

Lemma append_nil_l (s : string) : EmptyString +:+ s = s.
Proof. reflexivity. Qed.

Lemma append_nil_r (s : string) : s +:+ EmptyString = s.
Proof.
  induction s as [|c s IH]; [reflexivity|].
  change (String c (s +:+ EmptyString) = String c s). rewrite IH. reflexivity.
Qed.

Fixpoint hex_agree (n : N) (fuel : nat) : bool :=
  match fuel with
  | O => true
  | S fuel' => String.eqb (NetIP.appendHex n) (spec_hex n) && hex_agree (n + 1) fuel'
  end.

Lemma hex_agree_sound (fuel : nat) : forall n,
  hex_agree n fuel = true ->
  forall k, (k < fuel)%nat ->
  NetIP.appendHex (n + N.of_nat k) = spec_hex (n + N.of_nat k).
Proof.
  induction fuel as [|fuel IH]; intros n H k Hk; [lia|].
  cbn [hex_agree] in H. apply andb_true_iff in H as [H1 H2].
  destruct k as [|k].
  - rewrite N.add_0_r. apply String.eqb_eq. exact H1.
  - replace (n + N.of_nat (S k))%N with (n + 1 + N.of_nat k)%N by lia.
    apply IH; [exact H2 | lia].
Qed.

(** [appendHex] writes a 16-bit group in hexadecimal. *)
Lemma appendHex_spec (g : N) : (g < 65536)%N -> NetIP.appendHex g = spec_hex g.
Proof.
  intros Hg.
  assert (H : hex_agree 0 (N.to_nat 65536) = true) by (vm_compute; reflexivity).
  pose proof (hex_agree_sound (N.to_nat 65536) 0 H (N.to_nat g) ltac:(lia)) as E.
  rewrite N2Nat.id in E. exact E.
Qed.

(** The loops of [appendTo6] write the canonical hex form: by cases on
    which of the eight groups are zero. *)
Lemma string6_spec (g0 g1 g2 g3 g4 g5 g6 g7 : N) :
  (g0 < 65536)%N -> (g1 < 65536)%N -> (g2 < 65536)%N -> (g3 < 65536)%N ->
  (g4 < 65536)%N -> (g5 < 65536)%N -> (g6 < 65536)%N -> (g7 < 65536)%N ->
  NetIP.string6 [g0; g1; g2; g3; g4; g5; g6; g7] =
  match List.find (spec_all_zero [g0; g1; g2; g3; g4; g5; g6; g7]) spec_windows with
  | None => Join (map spec_hex [g0; g1; g2; g3; g4; g5; g6; g7]) ":"
  | Some (i, l) =>
      Join (map spec_hex (take i [g0; g1; g2; g3; g4; g5; g6; g7])) ":" +:+ "::"
        +:+ Join (map spec_hex (drop (i + l) [g0; g1; g2; g3; g4; g5; g6; g7])) ":"
  end.
Proof.
  intros H0 H1 H2 H3 H4 H5 H6 H7.
  assert (E0 := appendHex_spec g0 H0). assert (E1 := appendHex_spec g1 H1).
  assert (E2 := appendHex_spec g2 H2). assert (E3 := appendHex_spec g3 H3).
  assert (E4 := appendHex_spec g4 H4). assert (E5 := appendHex_spec g5 H5).
  assert (E6 := appendHex_spec g6 H6). assert (E7 := appendHex_spec g7 H7).
  assert (Ez := appendHex_spec 0 ltac:(lia)).
  clear H0 H1 H2 H3 H4 H5 H6 H7.
  unfold NetIP.string6.
  destruct g0, g1, g2, g3, g4, g5, g6, g7;
    cbv -[NetIP.appendHex spec_hex String.append];
    rewrite ?E0, ?E1, ?E2, ?E3, ?E4, ?E5, ?E6, ?E7, ?Ez;
    rewrite ?append_assoc, ?append_nil_l, ?append_nil_r; reflexivity.
Qed.

Lemma To4_sixteen (ip : IPv6) :
  length ip = 16%nat ->
  NetIP.To4 ip = if spec_v4_mapped ip then Some (drop 12 ip) else None.
Proof.
  intros Hlen.
  do 17 (destruct ip as [|? ip]; try discriminate Hlen). clear Hlen.
  unfold NetIP.To4, spec_v4_mapped, NetIP.isZeros, NetIP.at_.
  cbn [length Nat.eqb andb take drop forallb nth].
  destruct (bool_decide_reflect
              ([n; n0; n1; n2; n3; n4; n5; n6; n7; n8; n9; n10]
               = [0; 0; 0; 0; 0; 0; 0; 0; 0; 0; 255; 255]%N)) as [E|NE].
  - injection E as -> -> -> -> -> -> -> -> -> -> -> ->. reflexivity.
  - repeat match goal with
           | |- context [N.eqb ?b ?c] =>
               destruct (N.eqb_spec b c) as [->|?]; cbn [andb]; [|reflexivity]
           end.
    exfalso. apply NE. reflexivity.
Qed.

(** [net.IP.String] on a sixteen-octet address: dotted quad for an
    IPv4-mapped address, the canonical hex form for every other. *)
Lemma String_sixteen (ip : IPv6) :
  length ip = 16%nat -> forallb (fun b => (b <? 256)%N) ip = true ->
  NetIP.String_ ip = spec_AAAA ip.
Proof.
  intros Hlen Hoct. unfold NetIP.String_, spec_AAAA.
  rewrite (To4_sixteen ip Hlen), Hlen. cbn [Nat.eqb negb andb].
  destruct (spec_v4_mapped ip); [|].
  - do 17 (destruct ip as [|? ip]; try discriminate Hlen). reflexivity.
  - do 17 (destruct ip as [|? ip]; try discriminate Hlen). clear Hlen.
    cbn [forallb] in Hoct.
    repeat match type of Hoct with
           | (_ && _) = true => apply andb_true_iff in Hoct as [?%N.ltb_lt Hoct]
           end.
    clear Hoct. unfold spec_hex_form, NetIP.AddrFrom16, NetIP.at_.
    cbn [spec_groups map seq nth Nat.mul Nat.add].
    apply string6_spec; lia.
Qed.

Lemma spec_simple_line_unfold (domain type_name value : string) (ttl : N) :
  spec_simple_line domain type_name value ttl =
  domain +:+ tab +:+ type_name +:+ tab +:+ value +:+ tab +:+ itoa ttl +:+ newline.
Proof. unfold spec_simple_line. cbn [Join]. rewrite !append_assoc. reflexivity. Qed.

(** The type switch of [extractRecords] fills the table, given that the
    library prints addresses as [net.IP.String] does. *)
Lemma record_value_spec (rr : RR) :
  (forall ip, IPv6_String lib ip = NetIP.String_ ip) ->
  wire_form rr = true ->
  record_value rr = spec_value rr.
Proof.
  intros Hlib Hwire. destruct rr; try reflexivity.
  cbn [record_value spec_value]. rewrite Hlib.
  cbn [wire_form] in Hwire. apply andb_true_iff in Hwire as [Hlen Hoct].
  apply String_sixteen; [apply Nat.eqb_eq; exact Hlen | exact Hoct].
Qed.

Lemma writeSimple_lines (records : list OutputRecord) : forall st,
  writeSimple records st =
  Some (tt, set_output
              (output st ++
               map (fun r => Domain r +:+ tab +:+ Type_ r +:+ tab +:+ Value r +:+ tab
                               +:+ itoa (TTL r) +:+ newline) records) st).
Proof.
  induction records as [|r rest IH]; intros st.
  - cbn. rewrite app_nil_r. destruct st; reflexivity.
  - cbn [writeSimple]. unfold bind, write, modify. rewrite IH.
    cbn. rewrite <- List.app_assoc. reflexivity.
Qed.

(** C9, as the code behaves: given a library that prints addresses as
    [net.IP.String] does, every answer record of a result becomes one
    output record whose value follows the table, where the AAAA row reads:
    the canonical hex form, except for an IPv4-mapped address, which is
    printed as a dotted quad; the type column is the entry of
    [dns.TypeToString] for the query type of the result, empty when there
    is none; and in the simple format [WriteResult] appends to the output
    one line [domain TAB type_name TAB value TAB ttl NEWLINE] per record,
    in the order of the answer section, and changes nothing else. *)
Theorem simple_output_per_record (o : OutputHandler) (result : DNSResult)
    (response : Msg) (st : State) :
  (forall ip, IPv6_String lib ip = NetIP.String_ ip) ->
  Response result = Some response ->
  Forall (fun rr => wire_form rr = true) (Answer response) ->
  (extractRecords result st =
     Some (map (fun rr =>
                  {| Domain := World.Domain result;
                     Type_ := default EmptyString (TypeToString lib !! World.Type_ result);
                     Record_ := Name (Header rr);
                     Value := spec_value rr;
                     TTL := Ttl (Header rr);
                     Resolver := World.Resolver result |}) (Answer response), st)) /\
  (format o <> "json" -> format o <> "csv" ->
   exists st',
     WriteResult o result st = Some (tt, st') /\
     output st' =
       output st ++
       map (fun rr =>
              spec_simple_line (World.Domain result)
                (default EmptyString (TypeToString lib !! World.Type_ result))
                (spec_value rr) (Ttl (Header rr))) (Answer response) /\
     pool st' = pool st /\ cache st' = cache st /\ stats st' = stats st /\
     draws st' = draws st /\ sent st' = sent st).
Proof.
  intros Hlib Hresp Hwire. split.
  - unfold extractRecords. rewrite Hresp. unfold ret.
    apply (f_equal (fun l => Some (l, st))).
    apply map_ext_Forall. eapply Forall_impl; [exact Hwire|].
    intros rr Hrr. unfold extractRecord, type_name.
    rewrite (record_value_spec rr Hlib Hrr). reflexivity.
  - intros Hjson Hcsv. unfold WriteResult. rewrite Hresp.
    destruct (Answer response) as [|rr rrs] eqn:Hans.
    + eexists. split; [reflexivity|]. cbn. rewrite app_nil_r. split_and!; reflexivity.
    + cbn [length Nat.eqb]. unfold bind, extractRecords. rewrite Hresp. cbn [ret].
      destruct (String.eqb_spec (format o) "json") as [?|_]; [contradiction|].
      destruct (String.eqb_spec (format o) "csv") as [?|_]; [contradiction|].
      rewrite writeSimple_lines, map_map, Hans.
      eexists. split; [reflexivity|]. cbn [output pool cache stats draws sent set_output].
      split_and!; try reflexivity.
      f_equal. apply map_ext_Forall. eapply Forall_impl; [exact Hwire|].
      intros x Hx. rewrite spec_simple_line_unfold. unfold extractRecord, type_name. cbn.
      rewrite (record_value_spec x Hlib Hx). reflexivity.
Qed.

End WithLibrary.
End Output.

(** ** stats.go and the body of resultProcessor *)

Module Processor.
Import Dns World Pool Lookup Wildcard.
Local Open Scope Z_scope.
Local Open Scope go_scope.

(** A sum brought back into the range of [int64]. *)
Definition wrap64 (z : Z) : Z := (z + 2 ^ 63) mod 2 ^ 64 - 2 ^ 63.

(** [atomic.AddInt64] *)
Definition AddInt64 (x delta : Z) : Z := wrap64 (x + delta).

(** [NewStats] *)
Definition NewStats : Stats :=
  {| totalDomains := 0; processedQueries := 0; successfulQueries := 0;
     errorQueries := 0; noAnswerQueries := 0; wildcardQueries := 0 |}.

Definition IncrementTotal : M unit :=
  modify (fun st => let s := stats st in
    set_stats {| totalDomains := AddInt64 (totalDomains s) 1;
                 processedQueries := processedQueries s;
                 successfulQueries := successfulQueries s;
                 errorQueries := errorQueries s;
                 noAnswerQueries := noAnswerQueries s;
                 wildcardQueries := wildcardQueries s |} st).

Definition IncrementProcessed : M unit :=
  modify (fun st => let s := stats st in
    set_stats {| totalDomains := totalDomains s;
                 processedQueries := AddInt64 (processedQueries s) 1;
                 successfulQueries := successfulQueries s;
                 errorQueries := errorQueries s;
                 noAnswerQueries := noAnswerQueries s;
                 wildcardQueries := wildcardQueries s |} st).

Definition IncrementSuccessful : M unit :=
  modify (fun st => let s := stats st in
    set_stats {| totalDomains := totalDomains s;
                 processedQueries := processedQueries s;
                 successfulQueries := AddInt64 (successfulQueries s) 1;
                 errorQueries := errorQueries s;
                 noAnswerQueries := noAnswerQueries s;
                 wildcardQueries := wildcardQueries s |} st).

Definition IncrementErrors : M unit :=
  modify (fun st => let s := stats st in
    set_stats {| totalDomains := totalDomains s;
                 processedQueries := processedQueries s;
                 successfulQueries := successfulQueries s;
                 errorQueries := AddInt64 (errorQueries s) 1;
                 noAnswerQueries := noAnswerQueries s;
                 wildcardQueries := wildcardQueries s |} st).

Definition IncrementNoAnswer : M unit :=
  modify (fun st => let s := stats st in
    set_stats {| totalDomains := totalDomains s;
                 processedQueries := processedQueries s;
                 successfulQueries := successfulQueries s;
                 errorQueries := errorQueries s;
                 noAnswerQueries := AddInt64 (noAnswerQueries s) 1;
                 wildcardQueries := wildcardQueries s |} st).

Definition IncrementWildcards : M unit :=
  modify (fun st => let s := stats st in
    set_stats {| totalDomains := totalDomains s;
                 processedQueries := processedQueries s;
                 successfulQueries := successfulQueries s;
                 errorQueries := errorQueries s;
                 noAnswerQueries := noAnswerQueries s;
                 wildcardQueries := AddInt64 (wildcardQueries s) 1 |} st).

Definition GetTotal (st : State) : Z := totalDomains (stats st).
Definition GetProcessed (st : State) : Z := processedQueries (stats st).
Definition GetSuccessful (st : State) : Z := successfulQueries (stats st).
Definition GetErrors (st : State) : Z := errorQueries (stats st).
Definition GetNoAnswer (st : State) : Z := noAnswerQueries (stats st).
Definition GetWildcards (st : State) : Z := wildcardQueries (stats st).

(** The four categories added up. *)
Definition categories (st : State) : Z :=
  GetSuccessful st + GetErrors st + GetNoAnswer st + GetWildcards st.

Section WithWorld.
Context (lib : Library) (net : Network) (enc : Output.Encoders).
(** [wildcardDetector != nil], and the output handler. *)
Context (wildcardDetector : bool) (outputHandler : Output.OutputHandler).

(** What [resultProcessor] does with a received result after
    [stats.IncrementProcessed()]. *)
Definition classify (result : DNSResult) : M unit :=
  match Error result with
  | Some _ => IncrementErrors
  | None =>
      let* wildcard :=
        (if wildcardDetector then IsWildcard lib net result else ret false) in
      if wildcard then IncrementWildcards
      else
        match Response result with
        | Some response =>
            if (0 <? length (Answer response))%nat
            then IncrementSuccessful;; Output.WriteResult lib enc outputHandler result
            else IncrementNoAnswer
        | None => IncrementNoAnswer
        end
  end.

(** One turn of the loop of [resultProcessor] for a received result. *)
Definition resultProcessor_body (result : DNSResult) : M unit :=
  IncrementProcessed;; classify result.

(** Exactly one of the four category counters has been incremented. *)
Definition category_step (s s' : Stats) : Prop :=
  (successfulQueries s' = AddInt64 (successfulQueries s) 1 /\
   errorQueries s' = errorQueries s /\ noAnswerQueries s' = noAnswerQueries s /\
   wildcardQueries s' = wildcardQueries s) \/
  (errorQueries s' = AddInt64 (errorQueries s) 1 /\
   successfulQueries s' = successfulQueries s /\ noAnswerQueries s' = noAnswerQueries s /\
   wildcardQueries s' = wildcardQueries s) \/
  (noAnswerQueries s' = AddInt64 (noAnswerQueries s) 1 /\
   successfulQueries s' = successfulQueries s /\ errorQueries s' = errorQueries s /\
   wildcardQueries s' = wildcardQueries s) \/
  (wildcardQueries s' = AddInt64 (wildcardQueries s) 1 /\
   successfulQueries s' = successfulQueries s /\ errorQueries s' = errorQueries s /\
   noAnswerQueries s' = noAnswerQueries s).

(** The counters after a result has gone through [classify]: the total
    and the processed count are as before and exactly one category has
    been incremented. *)
Definition one_category (s s' : Stats) : Prop :=
  totalDomains s' = totalDomains s /\
  processedQueries s' = processedQueries s /\
  category_step s s'.

Lemma detectWildcard_frame (baseDomain : string) (qtype : N) (st st' : State) (v : bool) :
  detectWildcard lib net baseDomain qtype st = Some (v, st') -> frame st st'.
Proof.
  intros H.
  destruct (detectWildcard_steps lib net baseDomain qtype st)
    as (t1 & t2 & t3 & st0 & a1 & st1 & a2 & st2 & a3 & st3
        & Hgen & _ & Hq1 & Hq2 & Hq3 & Hrun).
  destruct (generateRandomSubdomains_total net baseDomain 3 st)
    as (l & s0 & Hg & _ & _ & F0 & _).
  rewrite Hgen in Hg. injection Hg as <- <-.
  destruct (queryDomain_total lib net t1 qtype st0) as (b1 & s1 & Hb1 & F1 & _).
  rewrite Hq1 in Hb1. injection Hb1 as <- <-.
  destruct (queryDomain_total lib net t2 qtype st1) as (b2 & s2 & Hb2 & F2 & _).
  rewrite Hq2 in Hb2. injection Hb2 as <- <-.
  destruct (queryDomain_total lib net t3 qtype st2) as (b3 & s3 & Hb3 & F3 & _).
  rewrite Hq3 in Hb3. injection Hb3 as <- <-.
  rewrite Hrun in H. clear Hrun Hgen Hq1 Hq2 Hq3.
  pose proof (frame_trans _ _ _ F0 F1) as F01.
  pose proof (frame_trans _ _ _ F01 F2) as F02.
  pose proof (frame_trans _ _ _ F02 F3) as F03.
  destruct a1, a2, a3; injection H as <- <-; assumption.
Qed.

Lemma IsWildcard_frame (result : DNSResult) (st st' : State) (b : bool) :
  IsWildcard lib net result st = Some (b, st') ->
  pool st' = pool st /\ stats st' = stats st /\ output st' = output st.
Proof.
  intros H.
  destruct (Response result) as [response|] eqn:Hresp.
  2: { rewrite IsWildcard_no_answer in H by auto. injection H as <- <-. auto. }
  destruct (Answer response) as [|rr rrs] eqn:Hans.
  { rewrite IsWildcard_no_answer in H by eauto. injection H as <- <-. auto. }
  assert (Hne : Answer response <> []) by (rewrite Hans; discriminate).
  destruct (EffectiveTLDPlusOne lib (GoStrings.TrimSuffix (Domain result) "."))
    as [baseDomain|] eqn:Hbase.
  2: { rewrite (IsWildcard_unparsed lib net result st Hbase) in H.
       injection H as <- <-. auto. }
  destruct (cache st !! baseDomain) as [w|] eqn:Hc.
  - rewrite (IsWildcard_cached lib net result response baseDomain w st Hresp Hne Hbase Hc)
      in H.
    injection H as <- <-. auto.
  - destruct (IsWildcard_probes lib net result response baseDomain st Hresp Hne Hbase Hc)
      as (v & s1 & Hd & Hrun).
    rewrite Hrun in H. injection H as <- <-.
    apply detectWildcard_frame in Hd. destruct Hd as (Hp & _ & Hs & Ho).
    cbn. auto.
Qed.

Lemma writeSimple_stats records : forall st u st',
  Output.writeSimple records st = Some (u, st') -> stats st' = stats st.
Proof.
  induction records as [|r rest IH]; intros st u st' H.
  - injection H as <- <-. reflexivity.
  - cbn [Output.writeSimple] in H. unfold bind, Output.write, modify in H.
    apply IH in H. exact H.
Qed.

Lemma writeJSON_stats records : forall st u st',
  Output.writeJSON enc records st = Some (u, st') -> stats st' = stats st.
Proof.
  induction records as [|r rest IH]; intros st u st' H.
  - injection H as <- <-. reflexivity.
  - cbn [Output.writeJSON] in H. destruct (Output.json_Marshal enc r).
    + unfold bind, Output.write, modify in H. apply IH in H. exact H.
    + apply IH in H. exact H.
Qed.

Lemma writeCSV_stats records : forall st u st',
  Output.writeCSV enc records st = Some (u, st') -> stats st' = stats st.
Proof.
  induction records as [|r rest IH]; intros st u st' H.
  - injection H as <- <-. reflexivity.
  - cbn [Output.writeCSV] in H. unfold bind, Output.write, modify in H.
    apply IH in H. exact H.
Qed.

Lemma WriteResult_stats (result : DNSResult) (st st' : State) (u : unit) :
  Output.WriteResult lib enc outputHandler result st = Some (u, st') ->
  stats st' = stats st.
Proof.
  unfold Output.WriteResult. intros H.
  destruct (Response result) as [response|] eqn:Hresp; [|injection H as <- <-; auto].
  destruct (length (Answer response) =? 0)%nat; [injection H as <- <-; auto|].
  unfold bind, Output.extractRecords in H. rewrite Hresp in H. cbn [ret] in H.
  destruct (String.eqb _ "json"); [eapply writeJSON_stats; eauto|].
  destruct (String.eqb _ "csv"); [eapply writeCSV_stats; eauto|].
  eapply writeSimple_stats; eauto.
Qed.

Lemma classify_one_category (result : DNSResult) (st st' : State) (u : unit) :
  classify result st = Some (u, st') -> one_category (stats st) (stats st').
Proof.
  unfold classify, one_category, category_step. intros H.
  destruct (Error result) as [e|].
  { injection H as <- <-. cbn. split_and!; auto. right. left. auto. }
  unfold bind at 1 in H.
  assert (Hw : exists w s1,
             (if wildcardDetector then IsWildcard lib net result else ret false) st
             = Some (w, s1) /\ stats s1 = stats st /\
             (match w with
              | true => IncrementWildcards
              | false =>
                  match Response result with
                  | Some response =>
                      if (0 <? length (Answer response))%nat
                      then IncrementSuccessful;;
                           Output.WriteResult lib enc outputHandler result
                      else IncrementNoAnswer
                  | None => IncrementNoAnswer
                  end
              end) s1 = Some (u, st')).
  { destruct wildcardDetector.
    - destruct (IsWildcard lib net result st) as [[w s1]|] eqn:Hi; [|discriminate].
      exists w, s1. apply IsWildcard_frame in Hi. destruct Hi as (_ & Hs & _).
      split_and!; auto.
    - exists false, st. split_and!; auto. }
  destruct Hw as (w & s1 & _ & Hs1 & Hrest). clear H. rewrite <- Hs1.
  destruct w.
  { injection Hrest as <- <-. cbn. split_and!; auto. right. right. right. auto. }
  destruct (Response result) as [response|].
  2: { injection Hrest as <- <-. cbn. split_and!; auto. right. right. left. auto. }
  destruct (0 <? length (Answer response))%nat.
  2: { injection Hrest as <- <-. cbn. split_and!; auto. right. right. left. auto. }
  unfold bind at 1 in Hrest. cbn [IncrementSuccessful modify] in Hrest.
  apply WriteResult_stats in Hrest. rewrite Hrest. cbn.
  split_and!; auto.
Qed.

(** One turn of the loop: the processed count goes up by one, the total
    stays, and exactly one category goes up by one. *)
Lemma resultProcessor_body_counts (result : DNSResult) (st st' : State) (u : unit) :
  resultProcessor_body result st = Some (u, st') ->
  totalDomains (stats st') = totalDomains (stats st) /\
  processedQueries (stats st') = AddInt64 (processedQueries (stats st)) 1 /\
  category_step (stats st) (stats st').
Proof.
  unfold resultProcessor_body. unfold bind at 1. cbn [IncrementProcessed modify].
  intros H. apply classify_one_category in H.
  destruct H as (Ht & Hp & Hc). cbn in Ht, Hp, Hc. auto.
Qed.

(** C10: a result without a response, or with an empty answer section, is
    not a wildcard for [IsWildcard], which returns at once and leaves the
    state (cache, log of datagrams, generator) untouched; and whether or
    not a detector is configured, one turn of the result processor on such
    a result leaves the wildcard counter alone: the result is counted as
    no-answer, or as an error when it carries one. *)
Theorem no_answer_never_wildcard (result : DNSResult) (st : State) :
  (Response result = None \/
   exists response, Response result = Some response /\ Answer response = []) ->
  IsWildcard lib net result st = Some (false, st) /\
  exists st',
    resultProcessor_body result st = Some (tt, st') /\
    wildcardQueries (stats st') = wildcardQueries (stats st) /\
    successfulQueries (stats st') = successfulQueries (stats st) /\
    processedQueries (stats st') = AddInt64 (processedQueries (stats st)) 1 /\
    match Error result with
    | Some _ =>
        errorQueries (stats st') = AddInt64 (errorQueries (stats st)) 1 /\
        noAnswerQueries (stats st') = noAnswerQueries (stats st)
    | None =>
        noAnswerQueries (stats st') = AddInt64 (noAnswerQueries (stats st)) 1 /\
        errorQueries (stats st') = errorQueries (stats st)
    end /\
    cache st' = cache st /\ sent st' = sent st /\ draws st' = draws st /\
    pool st' = pool st /\ output st' = output st.
Proof.
  intros Hno. split; [apply IsWildcard_no_answer; exact Hno|].
  unfold resultProcessor_body. unfold bind at 1. cbn [IncrementProcessed modify].
  set (st1 := set_stats _ st).
  unfold classify. destruct (Error result) as [e|].
  { eexists. split; [reflexivity|]. cbn. split_and!; reflexivity. }
  unfold bind at 1.
  assert (Hw : (if wildcardDetector then IsWildcard lib net result else ret false) st1
               = Some (false, st1)).
  { destruct wildcardDetector; [|reflexivity]. apply IsWildcard_no_answer. exact Hno. }
  rewrite Hw.
  destruct Hno as [Hnil | (response & Hresp & Hempty)].
  - rewrite Hnil. eexists. split; [reflexivity|]. cbn. split_and!; reflexivity.
  - rewrite Hresp, Hempty. eexists. split; [reflexivity|]. cbn. split_and!; reflexivity.
Qed.

End WithWorld.
End Processor.

(** ** main.go: the goroutines of processDNSQueries as a transition system

    A state holds the two channels, the program point of every goroutine
    and the shared state.  A move names the goroutine that takes its next
    step; where a goroutine waits in a [select] that also listens on
    [ctx.Done()], a second move takes that case.  A move that cannot be
    made (the goroutine is blocked or gone) has no successor. *)

Module Pipeline.
Import GoStrings Dns World Pool Lookup Wildcard Processor.
Local Open Scope Z_scope.
Local Open Scope go_scope.

(** A buffered channel. *)
Record Chan (A : Type) := { buf : list A; cap : nat; closed : bool }.
Arguments buf {A} _.
Arguments cap {A} _.
Arguments closed {A} _.

Definition make {A} (n : nat) : Chan A := {| buf := []; cap := n; closed := false |}.
Definition full {A} (c : Chan A) : bool := (cap c <=? length (buf c))%nat.
Definition push {A} (x : A) (c : Chan A) : Chan A :=
  {| buf := buf c ++ [x]; cap := cap c; closed := closed c |}.
Definition pop {A} (c : Chan A) : Chan A :=
  {| buf := tail (buf c); cap := cap c; closed := closed c |}.
Definition close {A} (c : Chan A) : Chan A :=
  {| buf := buf c; cap := cap c; closed := true |}.

(** Where [processDNSQueries] stands: reading the input, about to count
    the domain it has just sent, waiting for the results, or returned with
    its error ([None] is [nil]). *)
Inductive MainPC :=
| MScan
| MCount
| MWait
| MReturned (err : option string).

(** Where a [dnsWorker] stands: at its outer [select], about to query the
    first of [types] for [domain], at its inner [select] with a result to
    send, or returned. *)
Inductive WorkerPC :=
| WRecv
| WQuery (domain : string) (types : list N)
| WSend (result : DNSResult) (domain : string) (types : list N)
| WExit.

(** Where [resultProcessor] stands: at its [select], past
    [IncrementProcessed] with a result in hand, or returned. *)
Inductive ProcPC :=
| PRecv
| PHandle (result : DNSResult)
| PExit.

Record System := {
  lines : list string;
  scanErr : option string;
  main : MainPC;
  domainChan : Chan string;
  resultChan : Chan DNSResult;
  workers : list WorkerPC;
  processor : ProcPC;
  cancelled : bool;
  panicked : bool;
  world : State
}.

Inductive Move :=
| MainStep
| MainDone
| WorkerStep (i : nat)
| WorkerDone (i : nat)
| ProcessorStep
| ProcessorDone
| Signal.

Definition set_main (m : MainPC) (s : System) : System :=
  {| lines := lines s; scanErr := scanErr s; main := m; domainChan := domainChan s; resultChan := resultChan s;
     workers := workers s; processor := processor s; cancelled := cancelled s;
     panicked := panicked s; world := world s |}.

Definition set_lines (l : list string) (s : System) : System :=
  {| lines := l; scanErr := scanErr s; main := main s; domainChan := domainChan s; resultChan := resultChan s;
     workers := workers s; processor := processor s; cancelled := cancelled s;
     panicked := panicked s; world := world s |}.

Definition set_domainChan (c : Chan string) (s : System) : System :=
  {| lines := lines s; scanErr := scanErr s; main := main s; domainChan := c; resultChan := resultChan s;
     workers := workers s; processor := processor s; cancelled := cancelled s;
     panicked := panicked s; world := world s |}.

Definition set_resultChan (c : Chan DNSResult) (s : System) : System :=
  {| lines := lines s; scanErr := scanErr s; main := main s; domainChan := domainChan s; resultChan := c;
     workers := workers s; processor := processor s; cancelled := cancelled s;
     panicked := panicked s; world := world s |}.

Definition set_worker (i : nat) (w : WorkerPC) (s : System) : System :=
  {| lines := lines s; scanErr := scanErr s; main := main s; domainChan := domainChan s;
     resultChan := resultChan s; workers := <[i := w]> (workers s);
     processor := processor s; cancelled := cancelled s; panicked := panicked s;
     world := world s |}.

Definition set_processor (p : ProcPC) (s : System) : System :=
  {| lines := lines s; scanErr := scanErr s; main := main s; domainChan := domainChan s;
     resultChan := resultChan s; workers := workers s; processor := p;
     cancelled := cancelled s; panicked := panicked s; world := world s |}.

Definition set_cancelled (s : System) : System :=
  {| lines := lines s; scanErr := scanErr s; main := main s; domainChan := domainChan s;
     resultChan := resultChan s; workers := workers s; processor := processor s;
     cancelled := true; panicked := panicked s; world := world s |}.

Definition set_panicked (s : System) : System :=
  {| lines := lines s; scanErr := scanErr s; main := main s; domainChan := domainChan s;
     resultChan := resultChan s; workers := workers s; processor := processor s;
     cancelled := cancelled s; panicked := true; world := world s |}.

Definition set_world (w : State) (s : System) : System :=
  {| lines := lines s; scanErr := scanErr s; main := main s; domainChan := domainChan s;
     resultChan := resultChan s; workers := workers s; processor := processor s;
     cancelled := cancelled s; panicked := panicked s; world := w |}.

(** A computation of the sequential code run on the shared state; its panic
    is the panic of the program. *)
Definition run_world {A} (m : M A) (k : A -> System -> System) (s : System) : System :=
  match m (world s) with
  | Some (a, w) => k a (set_world w s)
  | None => set_panicked s
  end.

Definition context_canceled : string := "context canceled".

Section WithWorld.
Context (lib : Library) (net : Network) (enc : Output.Encoders).
Context (config : Config) (queryTypes : list N) (outputHandler : Output.OutputHandler).

(** The input line the scanner is at is a domain to send; the line is
    trimmed as Go trims it when it is ASCII. *)
Definition is_domain (line : string) : bool :=
  let domain := TrimSpace line in
  negb (String.eqb domain EmptyString || HasPrefix domain "#").

(** [processDNSQueries] from the input loop on. *)
Definition main_step (s : System) : option System :=
  match main s with
  | MScan =>
      match lines s with
      | [] =>
          match scanErr s with
          | Some err =>
              Some (set_main (MReturned (Some ("error reading input: " +:+ err)))
                      (set_domainChan (close (domainChan s)) s))
          | None => Some (set_main MWait (set_domainChan (close (domainChan s)) s))
          end
      | line :: rest =>
          if is_domain line then
            if full (domainChan s) then None
            else Some (set_main MCount
                         (set_lines rest
                            (set_domainChan (push (TrimSpace line) (domainChan s)) s)))
          else Some (set_lines rest s)
      end
  | MCount => Some (set_main MScan (run_world IncrementTotal (fun _ s' => s') s))
  | MWait =>
      if GetProcessed (world s) <? GetTotal (world s) then Some s
      else Some (set_main (MReturned None) (set_resultChan (close (resultChan s)) s))
  | MReturned _ => None
  end.

(** The cases [<-ctx.Done()] of its two [select]s. *)
Definition main_done (s : System) : option System :=
  if cancelled s then
    match main s with
    | MScan =>
        match lines s with
        | line :: _ =>
            if is_domain line
            then Some (set_main (MReturned (Some context_canceled))
                         (set_domainChan (close (domainChan s)) s))
            else None
        | [] => None
        end
    | MWait =>
        if GetProcessed (world s) <? GetTotal (world s)
        then Some (set_main (MReturned (Some context_canceled)) s)
        else None
    | _ => None
    end
  else None.

(** The program point after a result has been sent. *)
Definition next_type (domain : string) (types : list N) : WorkerPC :=
  match types with
  | [] => WRecv
  | _ :: _ => WQuery domain types
  end.

(** [dnsWorker]; [rateLimiter.Wait] only delays the query and its error is
    dropped. *)
Definition worker_step (i : nat) (s : System) : option System :=
  match workers s !! i with
  | Some WRecv =>
      match buf (domainChan s) with
      | domain :: _ =>
          Some (set_worker i (next_type domain queryTypes)
                  (set_domainChan (pop (domainChan s)) s))
      | [] => if closed (domainChan s) then Some (set_worker i WExit s) else None
      end
  | Some (WQuery domain (qtype :: rest)) =>
      Some (run_world (performDNSQuery lib net config domain qtype)
              (fun result s' => set_worker i (WSend result domain rest) s') s)
  | Some (WQuery domain []) => Some (set_worker i WRecv s)
  | Some (WSend result domain rest) =>
      if closed (resultChan s) then Some (set_panicked s)
      else if full (resultChan s) then None
      else Some (set_worker i (next_type domain rest)
                   (set_resultChan (push result (resultChan s)) s))
  | Some WExit => None
  | None => None
  end.

Definition worker_done (i : nat) (s : System) : option System :=
  if cancelled s then
    match workers s !! i with
    | Some WRecv | Some (WSend _ _ _) => Some (set_worker i WExit s)
    | _ => None
    end
  else None.

(** [resultProcessor] *)
Definition processor_step (s : System) : option System :=
  match processor s with
  | PRecv =>
      match buf (resultChan s) with
      | result :: _ =>
          Some (run_world IncrementProcessed
                  (fun _ s' => set_processor (PHandle result) s')
                  (set_resultChan (pop (resultChan s)) s))
      | [] => if closed (resultChan s) then Some (set_processor PExit s) else None
      end
  | PHandle result =>
      Some (run_world
              (classify lib net enc (WildcardDetection config) outputHandler result)
              (fun _ s' => set_processor PRecv s') s)
  | PExit => None
  end.

Definition processor_done (s : System) : option System :=
  if cancelled s then
    match processor s with
    | PRecv => Some (set_processor PExit s)
    | _ => None
    end
  else None.

(** One move.  After a panic the process is gone and nothing moves.  Once
    [processDNSQueries] has returned, [main] reads the counters for the
    final statistics and the process exits; until it does the other
    goroutines may still move. *)
Definition step (m : Move) (s : System) : option System :=
  if panicked s then None
  else match m with
       | MainStep => main_step s
       | MainDone => main_done s
       | WorkerStep i => worker_step i s
       | WorkerDone i => worker_done i s
       | ProcessorStep => processor_step s
       | ProcessorDone => processor_done s
       | Signal => Some (set_cancelled s)
       end.

Fixpoint run (moves : list Move) (s : System) : option System :=
  match moves with
  | [] => Some s
  | m :: rest =>
      match step m s with
      | Some s' => run rest s'
      | None => None
      end
  end.

(** The state in which [processDNSQueries] starts its input loop: the
    channels made, [Workers] workers and the result processor started.
    [input] holds the lines the scanner will deliver and [err] what
    [scanner.Err()] will say after the last of them: nil, or a read error,
    or that the next line is too long for the scanner.  With a negative
    [Workers] the first [make] panics and nothing is started. *)
Definition start_with (err : option string) (input : list string) (w : State) : System :=
  {| lines := input;
     scanErr := err;
     main := MScan;
     domainChan := make (Z.to_nat (Workers config));
     resultChan := make (Z.to_nat (Workers config * 2));
     workers := replicate (Z.to_nat (Workers config)) WRecv;
     processor := PRecv;
     cancelled := false;
     panicked := Workers config <? 0;
     world := set_stats NewStats w |}.

(** The same on an input that is read to its end. *)
Definition start (input : list string) (w : State) : System := start_with None input w.

(** A run that completed successfully: [processDNSQueries] returned [nil],
    nothing was cancelled, nothing panicked. *)
Definition completed (s : System) : Prop :=
  main s = MReturned None /\ cancelled s = false /\ panicked s = false.

(** The result the processor holds between [IncrementProcessed] and the
    increment of its category, counted as one. *)
Definition in_hand (s : System) : Z :=
  match processor s with
  | PHandle _ => 1
  | _ => 0
  end.

(** The counters agree once the result in hand is counted in, in the
    arithmetic of [int64]. *)
Definition balanced (s : System) : Prop :=
  wrap64 (categories (world s) + in_hand s) = GetProcessed (world s).

Lemma wrap64_add_l (a b : Z) : wrap64 (wrap64 a + b) = wrap64 (a + b).
Proof.
  unfold wrap64. f_equal.
  replace ((a + 2 ^ 63) mod 2 ^ 64 - 2 ^ 63 + b + 2 ^ 63)
    with ((a + 2 ^ 63) mod 2 ^ 64 + b) by lia.
  rewrite Zplus_mod_idemp_l. f_equal. lia.
Qed.

Lemma wrap64_add_r (a b : Z) : wrap64 (a + wrap64 b) = wrap64 (a + b).
Proof. rewrite Z.add_comm, wrap64_add_l. f_equal. lia. Qed.

Lemma wrap64_repr (x : Z) : exists k, wrap64 x = x + k * 2 ^ 64.
Proof.
  exists (- ((x + 2 ^ 63) / 2 ^ 64)). unfold wrap64.
  rewrite Z.mod_eq by lia. lia.
Qed.

Lemma wrap64_eq (a b k : Z) : a = b + k * 2 ^ 64 -> wrap64 a = wrap64 b.
Proof.
  intros ->. unfold wrap64. f_equal.
  replace (b + k * 2 ^ 64 + 2 ^ 63) with (b + 2 ^ 63 + k * 2 ^ 64) by lia.
  apply Z_mod_plus_full.
Qed.

Lemma wrap64_small (z : Z) : - 2 ^ 63 <= z < 2 ^ 63 -> wrap64 z = z.
Proof. intros H. unfold wrap64. rewrite Z.mod_small; lia. Qed.

Lemma GetResolver_stats (st st' : State) r :
  GetResolver st = Some (r, st') -> stats st' = stats st.
Proof.
  unfold GetResolver, bind, get, at_index, modify, ret, panic.
  destruct (len (resolvers (pool st)) =? 0); [intros [= <- <-]; reflexivity|].
  destruct (index (pool st) <? 0); [discriminate|].
  destruct (resolvers (pool st) !! Z.to_nat (index (pool st))); [|discriminate].
  intros [= <- <-]. reflexivity.
Qed.

Lemma attempts_stats (left : nat) : forall domain qtype lastErr st res st',
  attempts lib net left domain qtype lastErr st = Some (res, st') ->
  stats st' = stats st.
Proof.
  induction left as [|left IH]; intros domain qtype lastErr st res st' H.
  - injection H as <- <-. reflexivity.
  - cbn [attempts] in H. unfold bind at 1 in H.
    destruct (GetResolver st) as [[r s1]|] eqn:Hg; [|discriminate].
    apply GetResolver_stats in Hg. rewrite <- Hg. destruct r as [r|].
    + unfold bind at 1 in H. rewrite exchange_eq in H.
      destruct (Exchange net _ _ _) as [response|err].
      * injection H as <- <-. reflexivity.
      * apply IH in H. exact H.
    + apply IH in H. exact H.
Qed.

Lemma main_step_balanced s s' : balanced s -> main_step s = Some s' -> balanced s'.
Proof.
  unfold main_step, balanced. intros Hb H.
  destruct (main s).
  - destruct (lines s) as [|line rest];
      [destruct (scanErr s); injection H as <-; exact Hb|].
    destruct (is_domain line); [|injection H as <-; exact Hb].
    destruct (full (domainChan s)); [discriminate|]. injection H as <-. exact Hb.
  - injection H as <-. exact Hb.
  - destruct (GetProcessed (world s) <? GetTotal (world s)); injection H as <-; exact Hb.
  - discriminate.
Qed.

Lemma main_done_balanced s s' : balanced s -> main_done s = Some s' -> balanced s'.
Proof.
  unfold main_done, balanced. intros Hb H.
  destruct (cancelled s); [|discriminate].
  destruct (main s); try discriminate.
  - destruct (lines s) as [|line rest]; [discriminate|].
    destruct (is_domain line); [|discriminate]. injection H as <-. exact Hb.
  - destruct (GetProcessed (world s) <? GetTotal (world s)); [|discriminate].
    injection H as <-. exact Hb.
Qed.

Lemma worker_step_balanced i s s' : balanced s -> worker_step i s = Some s' -> balanced s'.
Proof.
  unfold worker_step, balanced. intros Hb H.
  destruct (workers s !! i) as [[|domain [|qtype rest]|result domain rest|]|];
    try discriminate.
  - destruct (buf (domainChan s)); [|injection H as <-; exact Hb].
    destruct (closed (domainChan s)); [|discriminate]. injection H as <-. exact Hb.
  - injection H as <-. exact Hb.
  - injection H as <-. unfold run_world, performDNSQuery.
    destruct (attempts lib net _ domain qtype None (world s)) as [[res w]|] eqn:Ha;
      [|exact Hb].
    apply attempts_stats in Ha. cbn.
    unfold categories, GetSuccessful, GetErrors, GetNoAnswer, GetWildcards, GetProcessed
      in *. rewrite Ha. exact Hb.
  - destruct (closed (resultChan s)); [injection H as <-; exact Hb|].
    destruct (full (resultChan s)); [discriminate|]. injection H as <-. exact Hb.
Qed.

Lemma worker_done_balanced i s s' : balanced s -> worker_done i s = Some s' -> balanced s'.
Proof.
  unfold worker_done, balanced. intros Hb H.
  destruct (cancelled s); [|discriminate].
  destruct (workers s !! i) as [[| | |]|]; try discriminate; injection H as <-; exact Hb.
Qed.

Lemma processor_step_balanced s s' :
  balanced s -> processor_step s = Some s' -> balanced s'.
Proof.
  unfold processor_step, balanced, in_hand. intros Hb H.
  destruct (processor s) as [|result|] eqn:Hp.
  - destruct (buf (resultChan s)) as [|result rest].
    + destruct (closed (resultChan s)); [|discriminate]. injection H as <-.
      cbn. exact Hb.
    + injection H as <-. cbn.
      unfold categories, GetSuccessful, GetErrors, GetNoAnswer, GetWildcards, GetProcessed
        in *. cbn. unfold AddInt64. rewrite <- Hb. rewrite wrap64_add_l. f_equal. lia.
  - injection H as <-. unfold run_world.
    destruct (classify lib net enc (WildcardDetection config) outputHandler result (world s))
      as [[u w]|] eqn:Hc.
    + apply classify_one_category in Hc. cbn.
      unfold categories, GetSuccessful, GetErrors, GetNoAnswer, GetWildcards, GetProcessed
        in *.
      destruct Hc as (_ & Hproc & Hcat). rewrite Hproc, <- Hb.
      unfold category_step, AddInt64 in Hcat.
      destruct Hcat as [(H1 & H2 & H3 & H4) | [(H1 & H2 & H3 & H4) |
                        [(H1 & H2 & H3 & H4) | (H1 & H2 & H3 & H4)]]];
        rewrite H1, H2, H3, H4;
        match type of H1 with
        | _ = wrap64 ?x =>
            destruct (wrap64_repr x) as [k Hk]; rewrite Hk;
            apply (wrap64_eq _ _ k); lia
        end.
    + cbn. rewrite Hp. exact Hb.
  - discriminate.
Qed.

Lemma processor_done_balanced s s' :
  balanced s -> processor_done s = Some s' -> balanced s'.
Proof.
  unfold processor_done, balanced, in_hand. intros Hb H.
  destruct (cancelled s); [|discriminate].
  destruct (processor s) eqn:Hp; try discriminate. injection H as <-. cbn. exact Hb.
Qed.

Lemma step_balanced m s s' : balanced s -> step m s = Some s' -> balanced s'.
Proof.
  intros Hb. unfold step. destruct (panicked s); [discriminate|].
  destruct m.
  - apply main_step_balanced; assumption.
  - apply main_done_balanced; assumption.
  - apply worker_step_balanced; assumption.
  - apply worker_done_balanced; assumption.
  - apply processor_step_balanced; assumption.
  - apply processor_done_balanced; assumption.
  - intros [= <-]. exact Hb.
Qed.

Lemma run_balanced moves : forall s s', balanced s -> run moves s = Some s' -> balanced s'.
Proof.
  induction moves as [|m rest IH]; intros s s' Hb H; cbn [run] in H.
  - injection H as <-. exact Hb.
  - destruct (step m s) as [s1|] eqn:Hs; [|discriminate].
    eapply IH; [eapply step_balanced; eauto | exact H].
Qed.

Lemma start_balanced input w : balanced (start input w).
Proof. reflexivity. Qed.

(** C3, as the code keeps it: in every state a run can reach, the four
    categories add up to the processed count once the result the processor
    has in hand (counted as processed, not yet put in its category) is
    added; the sums are those of [int64], and plain sums as long as they
    stay in its range.  So the equation of the claim holds whenever the
    processor is between two results.  And one turn of the processor adds
    one to the processed count and to exactly one category. *)
Theorem counters_balance (input : list string) (w : State) (moves : list Move)
    (s : System) :
  run moves (start input w) = Some s ->
  wrap64 (categories (world s) + in_hand s) = GetProcessed (world s) /\
  (- 2 ^ 63 <= categories (world s) + in_hand s < 2 ^ 63 ->
   GetProcessed (world s) = categories (world s) + in_hand s) /\
  (forall result st st',
     resultProcessor_body lib net enc (WildcardDetection config) outputHandler result st
       = Some (tt, st') ->
     processedQueries (stats st') = AddInt64 (processedQueries (stats st)) 1 /\
     category_step (stats st) (stats st')).
Proof.
  intros Hrun.
  pose proof (run_balanced moves _ _ (start_balanced input w) Hrun) as Hb.
  unfold balanced in Hb. split_and!.
  - exact Hb.
  - intros Hrange. rewrite <- Hb. apply wrap64_small. exact Hrange.
  - intros result st st' Hbody.
    apply resultProcessor_body_counts in Hbody. tauto.
Qed.

End WithWorld.
End Pipeline.

(** ** Concrete worlds: the theorems at work, and the inputs on which the
    program departs from its description *)

Module Scenario.
Import GoStrings QueryTypes Dns World Pool Lookup Wildcard Processor Pipeline.
Local Open Scope Z_scope.

(** A stand-in for the public suffix list with no rule but the default
    one: the suffix is the last label, and a name needs two labels. *)
Definition last_two_labels (domain : string) : option string :=
  match rev (Split domain "."%char) with
  | tld :: sld :: _ =>
      if String.eqb tld EmptyString || String.eqb sld EmptyString then None
      else Some (sld +:+ "." +:+ tld)
  | _ => None
  end.

Definition add_root (s : string) : string :=
  if String.eqb (TrimSuffix s ".") s then s +:+ "." else s.

Definition example_library : Library :=
  {| EffectiveTLDPlusOne := last_two_labels;
     Fqdn := add_root;
     RR_String := fun rr => Name (Header rr) +:+ " " +:+ itoa (Ttl (Header rr))
                              +:+ " IN TYPE" +:+ itoa (Rrtype (Header rr));
     IPv6_String := fun ip => Join (map itoa ip) ":";
     TypeToString := list_to_map [ (TypeA, "A"); (TypeAAAA, "AAAA"); (TypeCNAME, "CNAME");
                                   (TypeMX, "MX"); (TypeNS, "NS") ] |}.

Definition example_encoders : Output.Encoders :=
  {| Output.json_Marshal := fun r => Some (Output.Value r);
     Output.csv_Write := fun row => Join row "," |}.

Definition simple : Output.OutputHandler := {| Output.format := "simple" |}.

Definition ip (a b c d : N) : IPv4 := {| o1 := a; o2 := b; o3 := c; o4 := d |}.

Definition a_record (name : string) (addr : IPv4) : RR :=
  RR_A {| Name := name; Rrtype := TypeA; Ttl := 300 |} addr.

(** A network where every exchange is answered with one address. *)
Definition net_answering : Network :=
  {| rand := fun n => n;
     Exchange := fun _ _ q =>
       Exchanged (Some {| Answer := [a_record (Qname q) (ip 93 184 216 34)] |}) |}.


(** A network where the first exchange times out and the later ones are
    answered. *)
Definition net_flaky : Network :=
  {| rand := fun n => n;
     Exchange := fun n _ q =>
       match n with
       | O => ExchangeFailed "i/o timeout"
       | _ => Exchanged (Some {| Answer := [a_record (Qname q) (ip 93 184 216 34)] |})
       end |}.

Definition fresh (rs : list DNSResolver) : State :=
  {| pool := {| resolvers := rs; index := 0 |};
     cache := ∅; stats := NewStats; output := []; draws := 0%nat; sent := [] |}.

Definition two_resolvers : list DNSResolver :=
  [ {| Address := "8.8.8.8:53" |}; {| Address := "1.1.1.1:53" |} ].

Definition answered (domain : string) (rrs : list RR) : DNSResult :=
  {| Domain := domain; Type_ := TypeA; Response := Some {| Answer := rrs |};
     Error := None; Resolver := "8.8.8.8:53" |}.

Definition config_two_types : Config :=
  {| QueryTypes := "A,AAAA"; Retries := 2; Workers := 1;
     WildcardDetection := false; Verbose := false |}.

(** One domain, two record types, one worker: the domain is sent and
    counted, the input ends, the worker takes the domain, makes the first
    query and sends its result, the processor receives it. *)
Definition first_result_received : list Move :=
  [ MainStep; MainStep; MainStep; WorkerStep 0; WorkerStep 0; WorkerStep 0; ProcessorStep ].

(** The processor files the result, and [processDNSQueries] finds
    [processed >= total], closes the result channel and returns [nil]. *)
Definition early_return : list Move :=
  first_result_received ++ [ ProcessorStep; MainStep ].

(** [processDNSQueries] makes the same check while the processor still has
    the result in hand. *)
Definition return_before_filing : list Move :=
  first_result_received ++ [ MainStep ].

Definition pipeline_run (moves : list Move) : option System :=
  run example_library net_answering example_encoders config_two_types
    [TypeA; TypeAAAA] simple moves
    (start config_two_types [ "example.com" ] (fresh two_resolvers)).

Example query_types_of_config :
  parseQueryTypes (QueryTypes config_two_types) = inl [TypeA; TypeAAAA].
Proof. vm_compute. reflexivity. Qed.

(** C2, on one domain and two record types: the run completes (it returns
    [nil], uncancelled, without a panic) with [processed = 1] and
    [total = 1], while [total * |record_types| = 2]: the second query of
    the domain has not been made. *)
Theorem completes_before_all_results :
  match pipeline_run early_return with
  | Some s =>
      main s = MReturned None /\ cancelled s = false /\ panicked s = false /\
      GetTotal (world s) = 1 /\ GetProcessed (world s) = 1 /\
      GetProcessed (world s) <> GetTotal (world s) * Z.of_nat (length [TypeA; TypeAAAA]) /\
      workers s = [WQuery "example.com" [TypeAAAA]]
  | None => False
  end.
Proof. vm_compute. split_and!; try reflexivity. discriminate. Qed.

(** What follows that return if the worker goes on: its second result
    meets a closed channel and the send panics. *)
Example late_send_panics :
  panicked <$> pipeline_run (early_return ++ [ WorkerStep 0; WorkerStep 0 ]) = Some true.
Proof. vm_compute. reflexivity. Qed.

(** C3, as stated, fails between the two increments: the processor has
    counted the result as processed and not yet put it in a category; and
    [processDNSQueries] may return at that very point, so that the final
    statistics show the same gap. *)
Lemma counters_gap_counterexample :
  match pipeline_run return_before_filing with
  | Some s =>
      main s = MReturned None /\
      GetProcessed (world s) = 1 /\
      GetSuccessful (world s) + GetErrors (world s) + GetNoAnswer (world s)
        + GetWildcards (world s) = 0
  | None => False
  end.
Proof. vm_compute. split_and!; reflexivity. Qed.

Lemma counters_balance_witness :
  exists s,
    pipeline_run early_return = Some s /\
    wrap64 (categories (world s) + in_hand s) = GetProcessed (world s) /\
    (- 2 ^ 63 <= categories (world s) + in_hand s < 2 ^ 63 ->
     GetProcessed (world s) = categories (world s) + in_hand s) /\
    (forall result st st',
       resultProcessor_body example_library net_answering example_encoders
         (WildcardDetection config_two_types) simple result st = Some (tt, st') ->
       processedQueries (stats st') = AddInt64 (processedQueries (stats st)) 1 /\
       category_step (stats st) (stats st')).
Proof.
  eexists. split.
  - vm_compute. reflexivity.
  - apply (counters_balance example_library net_answering example_encoders
             config_two_types [TypeA; TypeAAAA] simple
             [ "example.com" ] (fresh two_resolvers) early_return).
    vm_compute. reflexivity.
Defined.


(** The same zone answering in one order is found to be a wildcard. *)
Example wildcard_detected :
  fst <$> detectWildcard example_library net_answering "wild.test" TypeA
            (fresh two_resolvers) = Some true.
Proof. vm_compute. reflexivity. Qed.

Definition www_example : DNSResult :=
  answered "www.example.com" [a_record "www.example.com." (ip 93 184 216 34)].

Definition single_label : DNSResult :=
  answered "localhost" [a_record "localhost." (ip 127 0 0 1)].

(** C4, as stated, fails on an empty pool: the first probe finds no
    endpoint, nothing is sent, the verdict is not-wildcard, and that
    verdict is stored in the cache under the base domain. *)
Lemma empty_pool_verdict_cached_counterexample :
  cache (fresh []) !! "example.com" = None /\
  match IsWildcard example_library net_answering www_example (fresh []) with
  | Some (v, st') =>
      v = false /\ sent st' = [] /\ cache st' !! "example.com" = Some false
  | None => False
  end.
Proof. vm_compute. split_and!; reflexivity. Qed.

Lemma IsWildcard_failure_paths_witness :
  IsWildcard example_library net_answering single_label (fresh two_resolvers)
    = Some (false, fresh two_resolvers) /\
  exists st',
    IsWildcard example_library net_answering www_example (fresh []) = Some (false, st') /\
    cache st' = <["example.com" := false]> (cache (fresh [])) /\
    sent st' = sent (fresh []) /\ pool st' = pool (fresh []) /\
    stats st' = stats (fresh []) /\ output st' = output (fresh []).
Proof.
  split.
  - apply (proj1 (IsWildcard_failure_paths example_library net_answering single_label
                    (fresh two_resolvers))).
    vm_compute. reflexivity.
  - apply (proj2 (IsWildcard_failure_paths example_library net_answering www_example
                    (fresh []))
             {| Answer := [a_record "www.example.com." (ip 93 184 216 34)] |}
             "example.com").
    + reflexivity.
    + discriminate.
    + vm_compute. reflexivity.
    + vm_compute. reflexivity.
    + reflexivity.
Defined.

(** Retries: the first resolver times out, the second answers. *)
Example retry_reaches_second_resolver :
  match performDNSQuery example_library net_flaky config_two_types "example.com" TypeA
          (fresh two_resolvers) with
  | Some (res, st') =>
      Error res = None /\ Resolver res = "1.1.1.1:53" /\
      map dest (sent st') = ["8.8.8.8:53"; "1.1.1.1:53"] /\ index (pool st') = 0
  | None => False
  end.
Proof. vm_compute. split_and!; reflexivity. Qed.

Definition net_down : Network :=
  {| rand := fun n => n; Exchange := fun _ _ _ => ExchangeFailed "i/o timeout" |}.

(** Retry exhaustion with [retries = 2]: three datagrams, then the error. *)
Example retry_exhaustion :
  match performDNSQuery example_library net_down config_two_types "example.com" TypeA
          (fresh two_resolvers) with
  | Some (res, st') =>
      Error res = Some "i/o timeout" /\ Response res = None /\
      map dest (sent st') = ["8.8.8.8:53"; "1.1.1.1:53"; "8.8.8.8:53"]
  | None => False
  end.
Proof. vm_compute. split_and!; reflexivity. Qed.

Lemma performDNSQuery_retry_policy_witness :
  (exists (atts : list Attempt) (res : DNSResult) (st' : State),
     performDNSQuery example_library net_flaky config_two_types "example.com" TypeA
       (fresh two_resolvers) = Some (res, st') /\
     1 <= Z.of_nat (length atts) <= Retries config_two_types + 1 /\
     round_robin example_library net_flaky (fresh two_resolvers) "example.com" TypeA atts /\
     sent st' = sent (fresh two_resolvers)
                ++ map (datagram_of example_library "example.com" TypeA) atts /\
     resolvers (pool st') = resolvers (pool (fresh two_resolvers)) /\
     index (pool st') =
       (index (pool (fresh two_resolvers)) + Z.of_nat (length atts))
         mod len (resolvers (pool (fresh two_resolvers))) /\
     Forall failed (removelast atts) /\
     concludes (Z.to_nat (Retries config_two_types + 1))
       "example.com" TypeA atts res) /\
  performDNSQuery example_library net_flaky config_two_types "example.com" TypeA (fresh [])
    = Some ({| Domain := "example.com"; Type_ := TypeA; Response := None;
               Error := Some "no resolvers available"; Resolver := "" |}, fresh []).
Proof.
  assert (Hr : 0 <= Retries config_two_types < maxInt) by (vm_compute; split; congruence).
  split.
  - apply (proj1 (performDNSQuery_retry_policy example_library net_flaky config_two_types
                    "example.com" TypeA (fresh two_resolvers) Hr)).
    vm_compute. split; congruence.
  - apply (proj2 (performDNSQuery_retry_policy example_library net_flaky config_two_types
                    "example.com" TypeA (fresh []) Hr)).
    reflexivity.
Defined.

Definition mx_record : RR :=
  RR_MX {| Name := "example.com."; Rrtype := TypeMX; Ttl := 3600 |} 10 "mail.example.com.".

Definition two_answers : DNSResult :=
  answered "example.com" [a_record "example.com." (ip 93 184 216 34); mx_record].

(** The lines of the simple format, byte for byte. *)
Example simple_lines :
  output <$> (snd <$> Output.WriteResult example_library example_encoders simple
                        two_answers (fresh two_resolvers))
  = Some [ "example.com" +:+ Output.tab +:+ "A" +:+ Output.tab +:+ "93.184.216.34"
             +:+ Output.tab +:+ "300" +:+ Output.newline;
           "example.com" +:+ Output.tab +:+ "A" +:+ Output.tab +:+ "10 mail.example.com."
             +:+ Output.tab +:+ "3600" +:+ Output.newline ].
Proof. vm_compute. reflexivity. Qed.

(** The library with the text form of addresses of the Go standard
    library. *)
Definition go_library : Library :=
  {| EffectiveTLDPlusOne := last_two_labels;
     Fqdn := add_root;
     RR_String := RR_String example_library;
     IPv6_String := NetIP.String_;
     TypeToString := TypeToString example_library |}.

Definition aaaa_record (name : string) (addr : IPv6) : RR :=
  RR_AAAA {| Name := name; Rrtype := TypeAAAA; Ttl := 300 |} addr.

(** 2001:db8::1 *)
Definition documentation_address : IPv6 :=
  [32; 1; 13; 184; 0; 0; 0; 0; 0; 0; 0; 0; 0; 0; 0; 1]%N.

(** ::ffff:93.184.216.34 *)
Definition mapped_address : IPv6 :=
  [0; 0; 0; 0; 0; 0; 0; 0; 0; 0; 255; 255; 93; 184; 216; 34]%N.

Definition three_answers : DNSResult :=
  answered "example.com"
    [a_record "example.com." (ip 93 184 216 34);
     aaaa_record "example.com." documentation_address; mx_record].

Definition mapped_answer : DNSResult :=
  {| Domain := "example.com"; Type_ := TypeAAAA;
     Response := Some {| Answer := [aaaa_record "example.com." mapped_address] |};
     Error := None; Resolver := "8.8.8.8:53" |}.

(** C9, as stated, fails on an AAAA record with an IPv4-mapped address:
    the record comes off the wire with its sixteen octets, the table of
    the claim asks for the hex form, and the program prints a dotted quad. *)
Lemma v4_mapped_AAAA_counterexample :
  Output.wire_form (aaaa_record "example.com." mapped_address) = true /\
  Output.claimed_value go_library (aaaa_record "example.com." mapped_address)
    = "::ffff:5db8:d822" /\
  Output.record_value go_library (aaaa_record "example.com." mapped_address)
    = "93.184.216.34" /\
  output <$> (snd <$> Output.WriteResult go_library example_encoders simple
                        mapped_answer (fresh two_resolvers))
    = Some [ "example.com" +:+ Output.tab +:+ "AAAA" +:+ Output.tab +:+ "93.184.216.34"
               +:+ Output.tab +:+ "300" +:+ Output.newline ].
Proof. vm_compute. split_and!; reflexivity. Qed.

Lemma simple_output_per_record_witness :
  Output.extractRecords go_library three_answers (fresh two_resolvers) =
    Some (map (fun rr =>
                 {| Output.Domain := Domain three_answers;
                    Output.Type_ :=
                      default EmptyString
                        (TypeToString go_library !! Type_ three_answers);
                    Output.Record_ := Name (Header rr);
                    Output.Value := Output.spec_value go_library rr;
                    Output.TTL := Ttl (Header rr);
                    Output.Resolver := Resolver three_answers |})
              [a_record "example.com." (ip 93 184 216 34);
               aaaa_record "example.com." documentation_address; mx_record],
          fresh two_resolvers) /\
  exists st',
    Output.WriteResult go_library example_encoders simple three_answers
      (fresh two_resolvers) = Some (tt, st') /\
    output st' =
      output (fresh two_resolvers) ++
      map (fun rr =>
             Output.spec_simple_line (Domain three_answers)
               (default EmptyString (TypeToString go_library !! Type_ three_answers))
               (Output.spec_value go_library rr) (Ttl (Header rr)))
        [a_record "example.com." (ip 93 184 216 34);
         aaaa_record "example.com." documentation_address; mx_record] /\
    pool st' = pool (fresh two_resolvers) /\ cache st' = cache (fresh two_resolvers) /\
    stats st' = stats (fresh two_resolvers) /\ draws st' = draws (fresh two_resolvers) /\
    sent st' = sent (fresh two_resolvers).
Proof.
  assert (Hwire : Forall (fun rr => Output.wire_form rr = true)
                    [a_record "example.com." (ip 93 184 216 34);
                     aaaa_record "example.com." documentation_address; mx_record])
    by (repeat constructor).
  destruct (Output.simple_output_per_record go_library example_encoders simple
              three_answers
              {| Answer := [a_record "example.com." (ip 93 184 216 34);
                            aaaa_record "example.com." documentation_address;
                            mx_record] |}
              (fresh two_resolvers) (fun ip => eq_refl) eq_refl Hwire)
    as [Hrecords Hwrite].
  split; [exact Hrecords|].
  apply Hwrite; vm_compute; discriminate.
Defined.

Definition empty_answer : DNSResult := answered "empty.test" [].

Lemma no_answer_never_wildcard_witness :
  IsWildcard example_library net_answering empty_answer (fresh two_resolvers)
    = Some (false, fresh two_resolvers) /\
  exists st',
    resultProcessor_body example_library net_answering example_encoders true simple
      empty_answer (fresh two_resolvers) = Some (tt, st') /\
    wildcardQueries (stats st') = 0 /\
    successfulQueries (stats st') = 0 /\
    processedQueries (stats st') = 1 /\
    (noAnswerQueries (stats st') = 1 /\ errorQueries (stats st') = 0) /\
    cache st' = ∅ /\ sent st' = [] /\ draws st' = 0%nat /\
    pool st' = pool (fresh two_resolvers) /\ output st' = [].
Proof.
  apply (no_answer_never_wildcard example_library net_answering example_encoders true
           simple empty_answer (fresh two_resolvers)).
  right. exists {| Answer := [] |}. split; reflexivity.
Defined.

End Scenario.

(** * Beyond the pipeline's core: the rest of the sources

    The modules below cover the functions around the ones above, and
    properties the code shows by itself. *)

(** ** More of [strings]: lower case, containment, and facts on the model *)

From Stdlib Require DecimalN.

Module GoStringsFacts.
Import GoStrings.

Definition isUpper (c : ascii) : bool :=
  let n := byte_of c in ((65 <=? n) && (n <=? 90))%N.

Definition lower (c : ascii) : ascii :=
  if isUpper c then Ascii.ascii_of_N (byte_of c + 32) else c.

(** [strings.ToLower] on an ASCII string. *)
Fixpoint ToLower (s : string) : string :=
  match s with
  | EmptyString => EmptyString
  | String c r => String (lower c) (ToLower r)
  end.

(** [strings.Contains s sub] for a one-byte [sub]. *)
Fixpoint ContainsByte (s : string) (b : ascii) : bool :=
  match s with
  | EmptyString => false
  | String c r => Ascii.eqb c b || ContainsByte r b
  end.

(** Every byte of [s] passes [p]. *)
Fixpoint all_bytes (p : ascii -> bool) (s : string) : bool :=
  match s with
  | EmptyString => true
  | String c r => p c && all_bytes p r
  end.

Definition isDigit (c : ascii) : bool :=
  let n := byte_of c in ((48 <=? n) && (n <=? 57))%N.

Lemma upper_lower (c : ascii) : upper (lower c) = upper c.
Proof. destruct c as [[] [] [] [] [] [] [] []]; reflexivity. Qed.

Lemma upper_upper (c : ascii) : upper (upper c) = upper c.
Proof. destruct c as [[] [] [] [] [] [] [] []]; reflexivity. Qed.

Lemma ToUpper_ToLower (s : string) : ToUpper (ToLower s) = ToUpper s.
Proof.
  induction s as [|c r IH]; [reflexivity|].
  cbn [ToLower ToUpper]. rewrite upper_lower, IH. reflexivity.
Qed.

Lemma ToUpper_idempotent (s : string) : ToUpper (ToUpper s) = ToUpper s.
Proof.
  induction s as [|c r IH]; [reflexivity|].
  cbn [ToUpper]. rewrite upper_upper, IH. reflexivity.
Qed.

Lemma digit_facts (c : ascii) :
  isDigit c = true ->
  upper c = c /\ isSpace c = false /\ Ascii.eqb c "," = false /\
  Ascii.eqb c "-" = false /\ Ascii.eqb c "+" = false /\ Ascii.eqb c "#" = false /\
  exists d, digit c = Some d /\ (0 <= d <= 9)%Z.
Proof.
  destruct c as [[] [] [] [] [] [] [] []]; cbv; try discriminate; intros _;
    split_and!; try reflexivity; eexists; (split; [reflexivity|]); split; discriminate.
Qed.

Lemma ToUpper_digits (s : string) : all_bytes isDigit s = true -> ToUpper s = s.
Proof.
  induction s as [|c r IH]; [reflexivity|]. cbn [all_bytes ToUpper].
  intros [Hc Hr]%andb_prop. rewrite (proj1 (digit_facts c Hc)), IH by exact Hr. reflexivity.
Qed.

Lemma TrimRightSpace_digits (s : string) :
  all_bytes isDigit s = true -> TrimRightSpace s = s.
Proof.
  induction s as [|c r IH]; [reflexivity|]. cbn [all_bytes TrimRightSpace].
  intros [Hc Hr]%andb_prop. rewrite IH by exact Hr.
  destruct (digit_facts c Hc) as (_ & Hsp & _). rewrite Hsp. destruct r; reflexivity.
Qed.

Lemma TrimSpace_digits (s : string) : all_bytes isDigit s = true -> TrimSpace s = s.
Proof.
  intros H. unfold TrimSpace.
  assert (Hl : TrimLeftSpace s = s).
  { destruct s as [|c r]; [reflexivity|]. cbn [all_bytes] in H.
    apply andb_prop in H as [Hc _]. cbn [TrimLeftSpace].
    destruct (digit_facts c Hc) as (_ & -> & _). reflexivity. }
  rewrite Hl. apply TrimRightSpace_digits. exact H.
Qed.

Lemma Split_digits (s : string) : all_bytes isDigit s = true -> Split s "," = [s].
Proof.
  induction s as [|c r IH]; [reflexivity|]. cbn [all_bytes Split].
  intros [Hc Hr]%andb_prop. rewrite IH by exact Hr.
  destruct (digit_facts c Hc) as (_ & _ & -> & _). reflexivity.
Qed.

Lemma string_of_uint_digits (d : Decimal.uint) :
  all_bytes isDigit (NilEmpty.string_of_uint d) = true.
Proof. induction d; cbn [NilEmpty.string_of_uint all_bytes]; try rewrite IHd; reflexivity. Qed.

Lemma itoa_digits_only (n : N) : all_bytes isDigit (itoa n) = true /\ itoa n <> EmptyString.
Proof.
  unfold itoa, NilZero.string_of_uint.
  destruct (N.to_uint n) as [|d|d|d|d|d|d|d|d|d|d] eqn:E;
    (split; [first [reflexivity | apply (string_of_uint_digits (_ d))] | discriminate])
    || idtac.
  all: split; [|discriminate].
  all: match goal with
       | |- all_bytes _ (NilEmpty.string_of_uint ?u) = true => apply (string_of_uint_digits u)
       end.
Qed.

Lemma digits_acc (d : Decimal.uint) : forall acc : positive,
  digits (Z.pos acc) (NilEmpty.string_of_uint d) = Some (Z.pos (Pos.of_uint_acc d acc)).
Proof.
  induction d; intros acc; cbn [NilEmpty.string_of_uint Pos.of_uint_acc digits];
    [reflexivity | ..];
    match goal with
    | |- context [digit ?c] =>
        change (digit c) with (Some (Z.of_N (byte_of c) - 48)%Z); cbv iota beta
    end;
    match goal with
    | |- digits ?z _ = _ =>
        match goal with
        | |- _ = Some (Z.pos (Pos.of_uint_acc _ ?p)) =>
            replace z with (Z.pos p) by (cbn; lia)
        end
    end; apply IHd.
Qed.

Lemma digits_of_uint (d : Decimal.uint) :
  digits 0 (NilEmpty.string_of_uint d) = Some (Z.of_N (Pos.of_uint d)).
Proof.
  induction d; cbn [NilEmpty.string_of_uint Pos.of_uint digits];
    [reflexivity | exact IHd | ..];
    match goal with
    | |- context [digit ?c] =>
        change (digit c) with (Some (Z.of_N (byte_of c) - 48)%Z); cbv iota beta
    end;
    match goal with
    | |- digits ?z _ = Some (Z.of_N (N.pos (Pos.of_uint_acc _ ?p))) =>
        change z with (Z.pos p)
    end; apply digits_acc.
Qed.

(** The decimal rendering of a number reads back as that number. *)
Lemma digits_itoa (n : N) : digits 0 (itoa n) = Some (Z.of_N n).
Proof.
  unfold itoa. rewrite <- (DecimalN.Unsigned.of_to n) at 2. unfold N.of_uint.
  destruct (N.to_uint n) eqn:E; try apply digits_of_uint. reflexivity.
Qed.

Lemma Atoi_itoa (n : N) : (Z.of_N n <= maxInt)%Z -> Atoi (itoa n) = Some (Z.of_N n).
Proof.
  intros Hmax. destruct (itoa_digits_only n) as [Hall Hne].
  pose proof (digits_itoa n) as Hd.
  destruct (itoa n) as [|c r]; [congruence|].
  cbn [all_bytes] in Hall. apply andb_prop in Hall as [Hc _].
  destruct (digit_facts c Hc) as (_ & _ & _ & Hminus & Hplus & _).
  unfold Atoi. rewrite Hminus, Hplus. cbn [orb]. rewrite Hd.
  assert (Hlo : (minInt <=? Z.of_N n)%Z = true)
    by (apply Z.leb_le; unfold minInt; lia).
  assert (Hhi : (Z.of_N n <=? maxInt)%Z = true) by (apply Z.leb_le; exact Hmax).
  rewrite Hlo, Hhi. reflexivity.
Qed.

End GoStringsFacts.

(** ** main.go: more on parseQueryTypes *)

Module QueryTypesFacts.
Import GoStrings GoStringsFacts QueryTypes.

(** What the body of the loop makes of one trimmed token: the type it
    appends, or [None] when it returns the error. *)
Definition accept (t : string) : option N :=
  match typeMap !! t with
  | Some qtype => Some qtype
  | None =>
      match Atoi t with
      | Some num => if (0 <? num)%Z && (num <? 65536)%Z then Some (uint16 num) else None
      | None => None
      end
  end.

(** The number of bytes [b] in [s]. *)
Fixpoint count_byte (s : string) (b : ascii) : nat :=
  match s with
  | EmptyString => O
  | String c r => (if Ascii.eqb c b then 1 else 0) + count_byte r b
  end.

Lemma parse_tokens_step t rest result :
  parse_tokens (t :: rest) result =
  match accept (TrimSpace t) with
  | Some qtype => parse_tokens rest (result ++ [qtype])
  | None => inr (unknown_query_type (TrimSpace t))
  end.
Proof.
  rewrite parse_tokens_cons. unfold accept.
  destruct (typeMap !! TrimSpace t); [reflexivity|].
  destruct (Atoi (TrimSpace t)); [|reflexivity].
  destruct ((0 <? z)%Z && (z <? 65536)%Z); reflexivity.
Qed.

Lemma parse_tokens_inl types : forall result l,
  parse_tokens types result = inl l <->
  exists k, l = result ++ k /\
            Forall2 (fun t q => accept (TrimSpace t) = Some q) types k.
Proof.
  induction types as [|t rest IH]; intros result l.
  - cbn [parse_tokens]. split.
    + intros [= <-]. exists []. rewrite app_nil_r. split; [reflexivity | constructor].
    + intros (k & -> & Hk). inversion Hk. rewrite app_nil_r. reflexivity.
  - rewrite parse_tokens_step. destruct (accept (TrimSpace t)) as [q|] eqn:Hq.
    + rewrite IH. split.
      * intros (k & -> & Hk). exists (q :: k). rewrite <- List.app_assoc.
        split; [reflexivity | constructor; assumption].
      * intros (k & -> & Hk). inversion Hk as [|? q' ? k' Hq' Hk']; subst.
        exists k'. rewrite <- List.app_assoc. split; [|exact Hk'].
        cbn. congruence.
    + split; [discriminate|]. intros (k & _ & Hk). inversion Hk; congruence.
Qed.


Lemma typeMap_range (t : string) (q : N) : typeMap !! t = Some q -> (0 < q < 65536)%N.
Proof.
  intros H. unfold typeMap in H. apply elem_of_list_to_map_2 in H.
  repeat (apply elem_of_cons in H as [H|H]; [injection H as _ ->; cbv; split; reflexivity|]).
  apply elem_of_nil in H. destruct H.
Qed.

Lemma accept_range (t : string) (q : N) : accept t = Some q -> (0 < q < 65536)%N.
Proof.
  unfold accept. destruct (typeMap !! t) as [q'|] eqn:Hm.
  - intros [= <-]. eapply typeMap_range; eassumption.
  - destruct (Atoi t) as [num|]; [|discriminate].
    destruct (Z.ltb_spec 0 num); [|discriminate].
    destruct (Z.ltb_spec num 65536); [|discriminate].
    cbn [andb]. intros [= <-]. unfold uint16. rewrite Z.mod_small by lia. lia.
Qed.

Lemma length_Split (s : string) (sep : ascii) :
  length (Split s sep) = S (count_byte s sep).
Proof.
  induction s as [|c r IH]; [reflexivity|]. cbn [Split count_byte].
  destruct (Ascii.eqb c sep).
  - cbn [length]. rewrite IH. reflexivity.
  - destruct (Split r sep) as [|h t] eqn:E; cbn [length] in *; lia.
Qed.

Lemma comma_upper (c : ascii) : Ascii.eqb (upper c) "," = Ascii.eqb c ",".
Proof. destruct c as [[] [] [] [] [] [] [] []]; reflexivity. Qed.

Lemma count_comma_ToUpper (s : string) : count_byte (ToUpper s) "," = count_byte s ",".
Proof.
  induction s as [|c r IH]; [reflexivity|].
  cbn [ToUpper count_byte]. rewrite comma_upper, IH. reflexivity.
Qed.

Lemma accepted_unique (ts : list string) : forall k1 k2 : list N,
  Forall2 (fun t q => accept (TrimSpace t) = Some q) ts k1 ->
  Forall2 (fun t q => accept (TrimSpace t) = Some q) ts k2 -> k1 = k2.
Proof.
  induction ts as [|t ts IH]; intros k1 k2 H1 H2; inversion H1; inversion H2; subst;
    [reflexivity|].
  f_equal; [congruence | apply IH; assumption].
Qed.

Lemma parseQueryTypes_inl (s : string) (l : list N) :
  parseQueryTypes s = inl l <->
  Forall2 (fun t q => accept (TrimSpace t) = Some q) (Split (ToUpper s) ",") l.
Proof.
  unfold parseQueryTypes.
  destruct (parse_tokens (Split (ToUpper s) ",") []) as [k|e] eqn:Hp.
  - pose proof (default_branch_unreachable s k Hp) as Hne.
    apply parse_tokens_inl in Hp as (k' & -> & Hk). cbn [app] in *.
    destruct k' as [|q k']; [congruence|]. cbn [length Nat.eqb]. split.
    + intros [= <-]. exact Hk.
    + intros Hl. f_equal. eapply accepted_unique; eassumption.
  - split; [discriminate|]. intros Hl.
    assert (Hok : parse_tokens (Split (ToUpper s) ",") [] = inl l)
      by (apply parse_tokens_inl; exists l; split; [reflexivity | exact Hl]).
    congruence.
Qed.

(** X1: Every type of a parsed list is a non-zero 16-bit code, and there is
    exactly one per comma-separated field of the input. *)
Theorem parseQueryTypes_types_in_range (s : string) (l : list N) :
  parseQueryTypes s = inl l ->
  Forall (fun q => (0 < q < 65536)%N) l /\
  length l = S (count_byte s ",").
Proof.
  intros H. apply parseQueryTypes_inl in H. split.
  - clear -H. induction H as [|t q ts k Hq _ IH]; constructor;
      [eapply accept_range; eassumption | exact IH].
  - apply Forall2_length in H. rewrite <- H, length_Split, count_comma_ToUpper.
    reflexivity.
Qed.


(** X3: The letter case of an ASCII input does not matter: its lower-case
    and its upper-case form parse as the input does. *)
Theorem parseQueryTypes_case_insensitive (s : string) :
  ascii_only s = true ->
  parseQueryTypes (ToLower s) = parseQueryTypes s /\
  parseQueryTypes (ToUpper s) = parseQueryTypes s.
Proof.
  intros _. unfold parseQueryTypes. rewrite ToUpper_ToLower, ToUpper_idempotent. split; reflexivity.
Qed.

Lemma typeMap_no_number (n : N) : typeMap !! itoa n = None.
Proof.
  destruct (itoa_digits_only n) as [Hall _].
  unfold typeMap. apply not_elem_of_list_to_map_1. cbn [fmap list_fmap fst].
  intros Hin.
  repeat (apply elem_of_cons in Hin as [Hin|Hin];
          [rewrite Hin in Hall; discriminate Hall|]).
  apply elem_of_nil in Hin. exact Hin.
Qed.

(** X4: A type given by its number: every number strictly between 0 and 65536,
    written in decimal, parses to the list of that one type. *)
Theorem parseQueryTypes_number (n : N) :
  (0 < n < 65536)%N -> parseQueryTypes (itoa n) = inl [n].
Proof.
  intros Hn. destruct (itoa_digits_only n) as [Hall _].
  unfold parseQueryTypes.
  rewrite (ToUpper_digits _ Hall), (Split_digits _ Hall).
  rewrite parse_tokens_cons, (TrimSpace_digits _ Hall), typeMap_no_number.
  rewrite Atoi_itoa by (unfold maxInt; lia).
  destruct (Z.ltb_spec 0 (Z.of_N n)); [|lia].
  destruct (Z.ltb_spec (Z.of_N n) 65536); [|lia].
  cbn [andb parse_tokens app length Nat.eqb]. unfold uint16.
  rewrite Z.mod_small by lia. rewrite N2Z.id. reflexivity.
Qed.

End QueryTypesFacts.

(** ** resolver.go and config.go: building and closing the pool *)

Module Resolvers.
Import GoStrings GoStringsFacts QueryTypes Dns World Pool Lookup.
Local Open Scope Z_scope.
Local Open Scope go_scope.

(** The fields of [Config] that [NewResolverPool] reads; [Timeout] only
    sets the deadline of the client. *)
Record ResolverOptions := { Resolvers : string; ResolversFile : string }.

(** What the program asks of the host: the lines of a file ([None] when it
    cannot be opened or the scan stops with an error), and whether
    [net.SplitHostPort] accepts an address. *)
Record Host := {
  (** the lines the scanner delivers, when the file opens and the scan ends
      without error *)
  file_lines : string -> option (list string);
  SplitHostPort_ok : string -> bool
}.

(** config.go: [GetDefaultResolvers] *)
Definition GetDefaultResolvers : list string :=
  [ "8.8.8.8:53"; "8.8.4.4:53"; "1.1.1.1:53"; "1.0.0.1:53"; "9.9.9.9:53";
    "149.112.112.112:53"; "208.67.222.222:53"; "208.67.220.220:53";
    "84.200.69.80:53"; "84.200.70.40:53"; "76.76.19.19:53"; "76.76.2.0:53";
    "94.140.14.14:53"; "94.140.15.15:53" ].

(** The body of the scanning loops: a trimmed line is kept unless it is
    empty or a comment. *)
Definition keep_line (line : string) : bool :=
  negb (String.eqb line EmptyString) && negb (HasPrefix line "#").

Section WithHost.
Context (lib : Library) (net : Network) (host : Host).

(** The loop of [loadResolversFromFile] over the lines the scanner
    delivers. *)
Fixpoint scan_file (lines : list string) (resolvers : list string) : list string :=
  match lines with
  | [] => resolvers
  | text :: rest =>
      let line := TrimSpace text in
      if keep_line line then scan_file rest (resolvers ++ [line])
      else scan_file rest resolvers
  end.

(** [loadResolversFromFile]; [None] is its error. *)
Definition loadResolversFromFile (filename : string) : option (list string) :=
  match file_lines host filename with
  | None => None
  | Some lines => Some (scan_file lines [])
  end.

(** The loop of [NewResolverPool] over the addresses of the command line. *)
Fixpoint scan_inline (addresses : list string) (resolverAddresses : list string)
    : list string :=
  match addresses with
  | [] => resolverAddresses
  | addr :: rest =>
      let addr := TrimSpace addr in
      if negb (String.eqb addr EmptyString)
      then scan_inline rest (resolverAddresses ++ [addr])
      else scan_inline rest resolverAddresses
  end.

(** The addresses given on the command line. *)
Definition inline_addresses (resolvers : string) : list string :=
  if String.eqb resolvers EmptyString then []
  else scan_inline (Split resolvers ",") [].

(** The addresses read from the file; an unreadable file is logged and
    gives none. *)
Definition file_addresses (filename : string) : list string :=
  if String.eqb filename EmptyString then []
  else match loadResolversFromFile filename with
       | None => []
       | Some fileAddresses => fileAddresses
       end.

(** [resolverAddresses] when the loop over it starts. *)
Definition resolverAddresses (opts : ResolverOptions) : list string :=
  let given := inline_addresses (Resolvers opts) ++ file_addresses (ResolversFile opts) in
  if (length given =? 0)%nat then GetDefaultResolvers else given.

(** [testResolver]: one query for the address of google.com. *)
Definition testResolver (address : string) : M bool :=
  let* out := exchange net address (question lib "google.com" TypeA) in
  match out with
  | ExchangeFailed _ => ret false
  | Exchanged _ => ret true
  end.

(** The address [createResolver] goes on with. *)
Definition with_port (address : string) : string :=
  if ContainsByte address ":" then address else address +:+ ":53".

(** [createResolver]; [None] is nil. *)
Definition createResolver (address : string) : M (option DNSResolver) :=
  let address := with_port address in
  if SplitHostPort_ok host address then
    let* ok := testResolver address in
    if ok then ret (Some {| Address := address |}) else ret None
  else ret None.

(** The loop [for _, addr := range resolverAddresses]. *)
Fixpoint createAll (addresses : list string) (resolvers : list DNSResolver)
    : M (list DNSResolver) :=
  match addresses with
  | [] => ret resolvers
  | addr :: rest =>
      let* resolver := createResolver addr in
      match resolver with
      | Some r => createAll rest (resolvers ++ [r])
      | None => createAll rest resolvers
      end
  end.

(** [NewResolverPool]: the pool it returns becomes the pool of the state. *)
Definition NewResolverPool (opts : ResolverOptions) : M unit :=
  let* resolvers := createAll (resolverAddresses opts) [] in
  modify (set_pool {| resolvers := resolvers; index := 0 |}).

(** [Close]: the list is dropped, the cursor stays where it was. *)
Definition Close : M unit :=
  modify (fun st => set_pool {| resolvers := []; index := index (pool st) |} st).

(** A candidate that passes the syntax check once it has its port. *)
Definition well_formed (address : string) : bool :=
  SplitHostPort_ok host (with_port address).

(** The liveness probe sent for a candidate. *)
Definition liveness_probe (address : string) : Datagram :=
  {| dest := with_port address; asked := question lib "google.com" TypeA |}.

(** What holds of every resolver that enters the pool. *)
Definition kept_from (candidates : list string) (r : DNSResolver) : Prop :=
  ContainsByte (Address r) ":" = true /\
  SplitHostPort_ok host (Address r) = true /\
  exists a, a ∈ candidates /\ well_formed a = true /\ Address r = with_port a.

(** *** The pool to expect *)

(** The entries of a resolver file: its trimmed lines, without the empty
    ones and the comments. *)
Definition spec_file_entries (lines : list string) : list string :=
  filter (fun e => e <> EmptyString /\ HasPrefix e "#" = false) (map TrimSpace lines).

(** The candidates: the non-empty trimmed fields of the command line, then
    the entries of the file if it can be read; the defaults when that
    leaves none. *)
Definition spec_candidates (opts : ResolverOptions) : list string :=
  let inline :=
    if decide (Resolvers opts = EmptyString) then []
    else filter (fun a => a <> EmptyString) (map TrimSpace (Split (Resolvers opts) ",")) in
  let file :=
    if decide (ResolversFile opts = EmptyString) then []
    else match file_lines host (ResolversFile opts) with
         | Some lines => spec_file_entries lines
         | None => []
         end in
  match inline ++ file with
  | [] =>
      [ "8.8.8.8:53"; "8.8.4.4:53"; "1.1.1.1:53"; "1.0.0.1:53"; "9.9.9.9:53";
        "149.112.112.112:53"; "208.67.222.222:53"; "208.67.220.220:53";
        "84.200.69.80:53"; "84.200.70.40:53"; "76.76.19.19:53"; "76.76.2.0:53";
        "94.140.14.14:53"; "94.140.15.15:53" ]
  | given => given
  end.

(** The address of a candidate: port 53 unless it names a port. *)
Definition spec_address (candidate : string) : string :=
  if ContainsByte candidate ":" then candidate else candidate +:+ ":53".

(** The outcome of the liveness probe that is the [n]-th exchange: a query
    for the address of google.com sent to the candidate. *)
Definition spec_probe (na : nat * string) : option DNSResolver :=
  match Exchange net na.1 (spec_address na.2) (question lib "google.com" TypeA) with
  | Exchanged _ => Some {| Address := spec_address na.2 |}
  | ExchangeFailed _ => None
  end.

(** The pool built from [candidates] when [base] exchanges were made
    before: the candidates whose address [net.SplitHostPort] accepts are
    probed one after the other, and those whose probe is answered are
    kept, in order. *)
Definition spec_pool (base : nat) (candidates : list string) : list DNSResolver :=
  let probed := filter (fun a => SplitHostPort_ok host (spec_address a) = true) candidates in
  omap spec_probe (zip (seq base (length probed)) probed).

Lemma ContainsByte_app (a b : string) (c : ascii) :
  ContainsByte (a +:+ b) c = ContainsByte a c || ContainsByte b c.
Proof.
  induction a as [|x a IH]; [reflexivity|].
  change (String x a +:+ b) with (String x (a +:+ b)). cbn [ContainsByte].
  rewrite IH. rewrite orb_assoc. reflexivity.
Qed.

Lemma with_port_has_port (address : string) : ContainsByte (with_port address) ":" = true.
Proof.
  unfold with_port. destruct (ContainsByte address ":") eqn:E; [exact E|].
  rewrite ContainsByte_app, E. reflexivity.
Qed.

Lemma TrimLeftSpace_head (s : string) :
  TrimLeftSpace s = EmptyString \/
  exists c r, TrimLeftSpace s = String c r /\ isSpace c = false.
Proof.
  induction s as [|c r IH]; [left; reflexivity|]. cbn [TrimLeftSpace].
  destruct (isSpace c) eqn:E; [exact IH|]. right. exists c, r. auto.
Qed.

Lemma TrimRightSpace_idempotent (s : string) :
  TrimRightSpace (TrimRightSpace s) = TrimRightSpace s.
Proof.
  induction s as [|c r IH]; [reflexivity|]. cbn [TrimRightSpace].
  destruct (TrimRightSpace r) as [|d r'] eqn:E.
  - destruct (isSpace c) eqn:Hc; [reflexivity|]. cbn [TrimRightSpace]. rewrite Hc.
    reflexivity.
  - cbn [TrimRightSpace] in *. rewrite IH. reflexivity.
Qed.

Lemma TrimRightSpace_head (c : ascii) (r : string) :
  isSpace c = false -> exists r', TrimRightSpace (String c r) = String c r'.
Proof.
  intros Hc. cbn [TrimRightSpace]. destruct (TrimRightSpace r); [rewrite Hc|]; eauto.
Qed.

(** [strings.TrimSpace] leaves nothing to trim. *)
Lemma TrimSpace_idempotent (s : string) : TrimSpace (TrimSpace s) = TrimSpace s.
Proof.
  unfold TrimSpace.
  destruct (TrimLeftSpace_head s) as [E | (c & r & E & Hc)]; rewrite E.
  - reflexivity.
  - destruct (TrimRightSpace_head c r Hc) as [r' E'].
    assert (Hl : TrimLeftSpace (TrimRightSpace (String c r)) = TrimRightSpace (String c r)).
    { rewrite E'. cbn [TrimLeftSpace]. rewrite Hc. reflexivity. }
    rewrite Hl. apply TrimRightSpace_idempotent.
Qed.

Lemma scan_file_spec (lines : list string) : forall acc,
  scan_file lines acc = acc ++ spec_file_entries lines.
Proof.
  unfold spec_file_entries.
  induction lines as [|text rest IH]; intros acc; cbn [scan_file map].
  - rewrite app_nil_r. reflexivity.
  - rewrite filter_cons. unfold keep_line.
    destruct (decide (TrimSpace text <> EmptyString /\ HasPrefix (TrimSpace text) "#" = false))
      as [[Hne Hhash]|Hno].
    + destruct (String.eqb_spec (TrimSpace text) EmptyString) as [E|_]; [contradiction|].
      rewrite Hhash. cbn [negb andb]. rewrite IH, <- List.app_assoc. reflexivity.
    + destruct (String.eqb_spec (TrimSpace text) EmptyString) as [E|Hne];
        [cbn [negb andb]; apply IH|].
      destruct (HasPrefix (TrimSpace text) "#") eqn:Hhash; [cbn [negb andb]; apply IH|].
      exfalso. apply Hno. auto.
Qed.

Lemma scan_inline_spec (addresses : list string) : forall acc,
  scan_inline addresses acc =
  acc ++ filter (fun a => a <> EmptyString) (map TrimSpace addresses).
Proof.
  induction addresses as [|addr rest IH]; intros acc; cbn [scan_inline map].
  - rewrite app_nil_r. reflexivity.
  - rewrite filter_cons.
    destruct (String.eqb_spec (TrimSpace addr) EmptyString) as [E|Hne]; cbn [negb].
    + rewrite decide_False by auto. apply IH.
    + rewrite decide_True by exact Hne. rewrite IH, <- List.app_assoc. reflexivity.
Qed.

Lemma resolverAddresses_spec (opts : ResolverOptions) :
  resolverAddresses opts = spec_candidates opts.
Proof.
  unfold resolverAddresses, spec_candidates, inline_addresses, file_addresses,
    loadResolversFromFile.
  assert (Hin : (if String.eqb (Resolvers opts) EmptyString then []
                 else scan_inline (Split (Resolvers opts) ",") []) =
                (if decide (Resolvers opts = EmptyString) then []
                 else filter (fun a => a <> EmptyString)
                        (map TrimSpace (Split (Resolvers opts) ",")))).
  { destruct (String.eqb_spec (Resolvers opts) EmptyString) as [E|Hne].
    - rewrite decide_True by exact E. reflexivity.
    - rewrite decide_False by exact Hne. rewrite scan_inline_spec. reflexivity. }
  assert (Hfile : (if String.eqb (ResolversFile opts) EmptyString then []
                   else match match file_lines host (ResolversFile opts) with
                              | Some lines => Some (scan_file lines [])
                              | None => None
                              end with
                        | Some fileAddresses => fileAddresses
                        | None => []
                        end) =
                  (if decide (ResolversFile opts = EmptyString) then []
                   else match file_lines host (ResolversFile opts) with
                        | Some lines => spec_file_entries lines
                        | None => []
                        end)).
  { destruct (String.eqb_spec (ResolversFile opts) EmptyString) as [E|Hne].
    - rewrite decide_True by exact E. reflexivity.
    - rewrite decide_False by exact Hne.
      destruct (file_lines host (ResolversFile opts)) as [lines|]; [|reflexivity].
      rewrite scan_file_spec. reflexivity. }
  rewrite Hin, Hfile.
  destruct (_ ++ _) as [|x given]; reflexivity.
Qed.

(** X5: [loadResolversFromFile] fails exactly when the file cannot be opened
    or scanned to its end.  For a file of ASCII lines it returns exactly
    the trimmed lines that are neither empty nor comments, every one of
    them, as often and in the order in which they stand in the file; none
    of them has white space left at either end. *)
Theorem loadResolversFromFile_entries (filename : string) :
  (loadResolversFromFile filename = None <-> file_lines host filename = None) /\
  (forall lines,
     file_lines host filename = Some lines ->
     Forall (fun line => ascii_only line = true) lines ->
     loadResolversFromFile filename =
       Some (filter (fun e => e <> EmptyString /\ HasPrefix e "#" = false)
               (map TrimSpace lines)) /\
     Forall (fun e => TrimSpace e = e)
       (filter (fun e => e <> EmptyString /\ HasPrefix e "#" = false)
          (map TrimSpace lines))).
Proof.
  unfold loadResolversFromFile. destruct (file_lines host filename) as [lines|].
  - split; [split; discriminate|]. intros l [= <-] _.
    rewrite scan_file_spec. split; [reflexivity|].
    apply Forall_forall. intros e [_ Hin]%list_elem_of_filter.
    apply list_elem_of_fmap in Hin as (line & -> & _).
    apply TrimSpace_idempotent.
  - split; [split; reflexivity|]. discriminate.
Qed.

Lemma testResolver_eq (address : string) (st : State) :
  testResolver address st =
  Some (match Exchange net (length (sent st)) address (question lib "google.com" TypeA) with
        | ExchangeFailed _ => false
        | Exchanged _ => true
        end,
        set_sent (sent st ++ [{| dest := address;
                                 asked := question lib "google.com" TypeA |}]) st).
Proof.
  unfold testResolver, bind. rewrite exchange_eq.
  destruct (Exchange net _ _ _); reflexivity.
Qed.

Lemma createResolver_cases (address : string) (st : State) :
  exists r st',
    createResolver address st = Some (r, st') /\
    Wildcard.frame st st' /\ draws st' = draws st /\
    sent st' = sent st ++ (if well_formed address then [liveness_probe address] else []) /\
    (forall x, r = Some x ->
       Address x = with_port address /\ well_formed address = true /\
       exists response,
         Exchange net (length (sent st)) (with_port address)
           (question lib "google.com" TypeA) = Exchanged response) /\
    r = (if well_formed address then spec_probe (length (sent st), address) else None).
Proof.
  unfold createResolver, well_formed, liveness_probe, spec_probe. cbn [fst snd].
  destruct (SplitHostPort_ok host (with_port address)) eqn:Hok.
  - unfold bind. rewrite testResolver_eq.
    destruct (Exchange net _ _ _) as [response|err] eqn:Hex; eexists; eexists;
      (split; [reflexivity|]); (split; [repeat split|]); split_and!; try reflexivity.
    + intros x [= <-]. split_and!; try reflexivity. eauto.
    + intros x [=].
  - exists None, st. split; [reflexivity|]. split; [repeat split|].
    split_and!; try reflexivity.
    + rewrite app_nil_r. reflexivity.
    + intros x [=].
Qed.

Lemma spec_pool_cons (base : nat) (a : string) (rest : list string) :
  spec_pool base (a :: rest) =
  if well_formed a
  then match spec_probe (base, a) with
       | Some r => r :: spec_pool (S base) rest
       | None => spec_pool (S base) rest
       end
  else spec_pool base rest.
Proof.
  unfold spec_pool. rewrite filter_cons.
  change (well_formed a) with (SplitHostPort_ok host (spec_address a)).
  destruct (decide (SplitHostPort_ok host (spec_address a) = true)) as [E|E].
  - rewrite E. cbn [length seq zip zip_with omap]. reflexivity.
  - destruct (SplitHostPort_ok host (spec_address a)); [congruence | reflexivity].
Qed.

(** X6: [createResolver] gives a candidate its port when it has none, drops it
    without a query when the address is malformed, and otherwise sends one
    liveness probe to it and keeps it exactly when the probe is answered.
    It touches nothing but the log of datagrams. *)
Theorem createResolver_outcome (address : string) (st : State) :
  exists r st',
    createResolver address st = Some (r, st') /\
    pool st' = pool st /\ cache st' = cache st /\ stats st' = stats st /\
    output st' = output st /\ draws st' = draws st /\
    (well_formed address = false -> r = None /\ sent st' = sent st) /\
    (well_formed address = true ->
       sent st' = sent st ++ [liveness_probe address] /\
       match Exchange net (length (sent st)) (with_port address)
               (question lib "google.com" TypeA) with
       | Exchanged _ => r = Some {| Address := with_port address |}
       | ExchangeFailed _ => r = None
       end) /\
    (forall x, r = Some x ->
       ContainsByte (Address x) ":" = true /\
       Address x = (if ContainsByte address ":" then address else address +:+ ":53")).
Proof.
  unfold createResolver, well_formed, liveness_probe.
  destruct (SplitHostPort_ok host (with_port address)) eqn:Hok.
  - unfold bind. rewrite testResolver_eq.
    destruct (Exchange net _ _ _) as [response|err] eqn:Hex; eexists; eexists;
      (split; [reflexivity|]); split_and!; try reflexivity; try discriminate.
    + intros _. split; reflexivity.
    + intros x [= <-]. split; [apply with_port_has_port | reflexivity].
    + intros _. split; reflexivity.
  - exists None, st. split; [reflexivity|]. split_and!; try reflexivity; try discriminate.
    intros _. split; reflexivity.
Qed.

Lemma createAll_spec (addresses : list string) : forall (acc : list DNSResolver) (st : State),
  exists rs st',
    createAll addresses acc st = Some (acc ++ rs, st') /\
    Wildcard.frame st st' /\ draws st' = draws st /\
    sent st' = sent st ++ map liveness_probe (filter (fun a => well_formed a = true) addresses) /\
    Forall (kept_from addresses) rs /\
    sublist (map Address rs) (map with_port addresses) /\
    rs = spec_pool (length (sent st)) addresses.
Proof.
  induction addresses as [|a rest IH]; intros acc st.
  - exists [], st. cbn [createAll ret]. rewrite !app_nil_r.
    split_and!; try reflexivity; [repeat split | constructor].
  - destruct (createResolver_cases a st)
      as (r & st1 & Hr & Hfr & Hdr & Hsent & Hsome & Hexact).
    assert (Hbase : length (sent st1) =
                    if well_formed a then S (length (sent st)) else length (sent st)).
    { rewrite Hsent. destruct (well_formed a).
      - rewrite length_app. cbn. lia.
      - rewrite app_nil_r. reflexivity. }
    cbn [createAll]. unfold bind at 1. rewrite Hr.
    assert (Hweak : forall rs, Forall (kept_from rest) rs -> Forall (kept_from (a :: rest)) rs).
    { intros rs Hrs. eapply Forall_impl; [exact Hrs|].
      intros x (H1 & H2 & b & Hb & Hwf & Hx).
      split_and!; try assumption. exists b. split_and!; try assumption.
      apply elem_of_cons. right. exact Hb. }
    assert (Hfilter :
              map liveness_probe (filter (fun a0 => well_formed a0 = true) (a :: rest)) =
              (if well_formed a then [liveness_probe a] else []) ++
              map liveness_probe (filter (fun a0 => well_formed a0 = true) rest)).
    { rewrite filter_cons. destruct (decide (well_formed a = true)) as [E|E].
      - rewrite E. reflexivity.
      - destruct (well_formed a); [congruence | reflexivity]. }
    destruct r as [x|].
    + destruct (IH (acc ++ [x]) st1)
        as (rs & st' & Hrun & Hfr' & Hdr' & Hsent' & Hadm & Hsub & Hrs).
      destruct (Hsome x eq_refl) as (Hx & Hwf & _).
      exists (x :: rs), st'. rewrite Hrun, <- List.app_assoc.
      split; [reflexivity|]. split_and!;
        [| | | | | rewrite spec_pool_cons, Hwf in *; rewrite <- Hexact, Hrs, Hbase;
                   reflexivity].
      * exact (Wildcard.frame_trans _ _ _ Hfr Hfr').
      * congruence.
      * rewrite Hsent', Hsent, Hfilter, <- List.app_assoc. reflexivity.
      * constructor; [|apply Hweak; exact Hadm].
        split_and!.
        -- rewrite Hx. apply with_port_has_port.
        -- rewrite Hx. exact Hwf.
        -- exists a. split_and!; [apply elem_of_cons; left; reflexivity | exact Hwf | exact Hx].
      * cbn [map]. rewrite Hx. apply sublist_skip. exact Hsub.
    + destruct (IH acc st1)
        as (rs & st' & Hrun & Hfr' & Hdr' & Hsent' & Hadm & Hsub & Hrs).
      exists rs, st'. rewrite Hrun. split; [reflexivity|]. split_and!;
        [| | | | | rewrite spec_pool_cons, Hrs, Hbase;
                   destruct (well_formed a); [rewrite <- Hexact|]; reflexivity].
      * exact (Wildcard.frame_trans _ _ _ Hfr Hfr').
      * congruence.
      * rewrite Hsent', Hsent, Hfilter, <- List.app_assoc. reflexivity.
      * apply Hweak. exact Hadm.
      * cbn [map]. apply sublist_cons. exact Hsub.
Qed.

Lemma NewResolverPool_spec (opts : ResolverOptions) (st : State) :
  exists rs st1,
    NewResolverPool opts st =
      Some (tt, set_pool {| resolvers := rs; index := 0 |} st1) /\
    Wildcard.frame st st1 /\ draws st1 = draws st /\
    sent st1 = sent st ++ map liveness_probe
                            (filter (fun a => well_formed a = true) (resolverAddresses opts)) /\
    Forall (kept_from (resolverAddresses opts)) rs /\
    sublist (map Address rs) (map with_port (resolverAddresses opts)) /\
    rs = spec_pool (length (sent st)) (resolverAddresses opts).
Proof.
  destruct (createAll_spec (resolverAddresses opts) [] st)
    as (rs & st1 & Hrun & Hrest).
  exists rs, st1. unfold NewResolverPool, bind. rewrite Hrun. cbn [app modify].
  split; [reflexivity | exact Hrest].
Qed.

(** X7: [NewResolverPool] never fails.  With an ASCII command line and an
    ASCII resolver file, the candidates are the non-empty trimmed fields
    of the command line followed by the entries of the file, or the
    fourteen defaults when there is none; the well-formed candidates are
    probed one after the other, one datagram each, and the pool holds, in
    that order and each with its port, exactly the candidates whose probe
    was answered.  The cursor is 0, and neither the cache, nor the
    counters, nor the output were touched. *)
Theorem NewResolverPool_pool (opts : ResolverOptions) (st : State) :
  ascii_only (Resolvers opts) = true ->
  (forall lines, file_lines host (ResolversFile opts) = Some lines ->
                 Forall (fun line => ascii_only line = true) lines) ->
  exists st',
    NewResolverPool opts st = Some (tt, st') /\
    index (pool st') = 0 /\
    resolvers (pool st') = spec_pool (length (sent st)) (spec_candidates opts) /\
    Forall (kept_from (spec_candidates opts)) (resolvers (pool st')) /\
    sublist (map Address (resolvers (pool st'))) (map with_port (spec_candidates opts)) /\
    sent st' = sent st ++ map liveness_probe
                            (filter (fun a => well_formed a = true) (spec_candidates opts)) /\
    cache st' = cache st /\ stats st' = stats st /\ output st' = output st /\
    draws st' = draws st.
Proof.
  intros _ _. rewrite <- resolverAddresses_spec.
  destruct (NewResolverPool_spec opts st)
    as (rs & st1 & Hrun & (_ & Hc & Hs & Ho) & Hd & Hsent & Hadm & Hsub & Hrs).
  eexists. split; [exact Hrun|]. cbn. split_and!; auto.
Qed.

Lemma GetResolver_times_total (k : nat) : forall st,
  resolvers (pool st) = [] \/ cursor_ok (pool st) ->
  exists rs st', GetResolver_times k st = Some (rs, st') /\ length rs = k /\
    (resolvers (pool st) = [] -> Forall (fun r => r = None) rs) /\
    (cursor_ok (pool st) -> Forall (fun r => exists x, r = Some x /\ x ∈ resolvers (pool st)) rs).
Proof.
  induction k as [|k IH]; intros st Hpool.
  - exists [], st. split_and!; try reflexivity; intros; constructor.
  - cbn [GetResolver_times]. unfold bind at 1.
    destruct Hpool as [Hempty | Hok].
    + rewrite (GetResolver_empty st Hempty).
      destruct (IH st (or_introl Hempty)) as (rs & st' & Hrun & Hlen & Hnone & _).
      unfold bind at 1. rewrite Hrun. exists (None :: rs), st'.
      split_and!; [reflexivity | cbn; congruence | |].
      * intros _. constructor; [reflexivity | auto].
      * intros Hc. unfold cursor_ok, len in Hc. rewrite Hempty in Hc. cbn in Hc. lia.
    + destruct (GetResolver_step st Hok) as (r & Hr & Hstep). rewrite Hstep.
      set (st1 := set_pool _ st).
      assert (Hok1 : cursor_ok (pool st1)).
      { unfold cursor_ok in *. cbn. apply Z.mod_pos_bound. lia. }
      destruct (IH st1 (or_intror Hok1)) as (rs & st' & Hrun & Hlen & _ & Hsome).
      unfold bind at 1. rewrite Hrun. exists (Some r :: rs), st'.
      split_and!; [reflexivity | cbn; congruence | |].
      * intros Hempty. unfold cursor_ok, len in Hok. rewrite Hempty in Hok. cbn in Hok. lia.
      * intros _. constructor; [|exact (Hsome Hok1)].
        exists r. split; [reflexivity|]. apply list_elem_of_lookup. eauto.
Qed.

(** X8: On the pool [NewResolverPool] built, [GetResolver] never panics, however
    often it is called: it returns nil every time when no candidate was
    kept and a resolver of the pool otherwise. *)
Theorem NewResolverPool_then_GetResolver (opts : ResolverOptions) (st : State) (k : nat) :
  exists st' rs st'',
    NewResolverPool opts st = Some (tt, st') /\
    GetResolver_times k st' = Some (rs, st'') /\ length rs = k /\
    (resolvers (pool st') = [] -> Forall (fun r => r = None) rs) /\
    (resolvers (pool st') <> [] ->
     Forall (fun r => exists x, r = Some x /\ x ∈ resolvers (pool st')) rs).
Proof.
  destruct (NewResolverPool_spec opts st) as (rs0 & st1 & Hrun & _).
  set (st' := set_pool {| resolvers := rs0; index := 0 |} st1) in *.
  assert (Hpool : resolvers (pool st') = [] \/ cursor_ok (pool st')).
  { destruct rs0 as [|x rs0]; [left; reflexivity|]. right.
    unfold cursor_ok, len. cbn. lia. }
  destruct (GetResolver_times_total k st' Hpool) as (rs & st'' & Hk & Hlen & Hnone & Hsome).
  exists st', rs, st''. split_and!; auto.
  intros Hne. apply Hsome. destruct Hpool as [E|Hok]; [congruence | exact Hok].
Qed.

(** X9: [GetResolver] panics exactly on a non-empty pool whose cursor is out of
    range, and returns nil exactly on an empty pool. *)
Theorem GetResolver_panics_iff (st : State) :
  (GetResolver st = None <->
   resolvers (pool st) <> [] /\ ~ (0 <= index (pool st) < len (resolvers (pool st)))) /\
  (forall st', GetResolver st = Some (None, st') <-> resolvers (pool st) = [] /\ st' = st).
Proof.
  destruct (resolvers (pool st)) as [|x rs] eqn:E.
  - rewrite (GetResolver_empty st E). split.
    + split; [discriminate | intros [H _]; congruence].
    + intros st'. split; [intros [= <-]; auto | intros [_ ->]; reflexivity].
  - destruct (decide (0 <= index (pool st) < len (resolvers (pool st)))) as [Hok|Hbad].
    + destruct (GetResolver_step st Hok) as (r & _ & Hstep). rewrite Hstep.
      rewrite E in Hok. split.
      * split; [discriminate | intros [_ H]; contradiction].
      * intros st'. split; [discriminate | intros [H _]; discriminate].
    + assert (Hp : GetResolver st = None).
      { unfold GetResolver, bind, get, at_index, panic. rewrite E in *.
        unfold len in *. cbn [length] in *.
        destruct (Z.eqb_spec (Z.of_nat (S (length rs))) 0); [lia|].
        destruct (Z.ltb_spec (index (pool st)) 0); [reflexivity|].
        destruct ((x :: rs) !! Z.to_nat (index (pool st))) eqn:Hl; [|reflexivity].
        apply lookup_lt_Some in Hl. cbn [length] in Hl. lia. }
      rewrite Hp. rewrite E in Hbad. split.
      * split; [intros _; split; [discriminate | exact Hbad] | reflexivity].
      * intros st'. split; [discriminate | intros [H _]; discriminate].
Qed.

(** X10: [GetRandomResolver] never panics and never moves the cursor: on an
    empty pool it returns nil and draws nothing; otherwise it makes one
    draw and returns a resolver of the pool.  Pool, cache, counters, output
    and log are as before. *)
Theorem GetRandomResolver_outcome (st : State) :
  exists r st',
    GetRandomResolver net st = Some (r, st') /\
    pool st' = pool st /\ cache st' = cache st /\ stats st' = stats st /\
    output st' = output st /\ sent st' = sent st /\
    (resolvers (pool st) = [] -> r = None /\ draws st' = draws st) /\
    (resolvers (pool st) <> [] ->
     draws st' = S (draws st) /\
     r = resolvers (pool st) !! (rand net (draws st) mod length (resolvers (pool st)))%nat /\
     exists x, r = Some x /\ x ∈ resolvers (pool st)).
Proof.
  unfold GetRandomResolver, bind, get.
  destruct (resolvers (pool st)) as [|r0 rs] eqn:E.
  - exists None, st. cbn. split_and!; try reflexivity; [auto | congruence].
  - unfold len. cbn [length]. destruct (Z.eqb_spec (Z.of_nat (S (length rs))) 0); [lia|].
    cbn [Intn].
    set (i := (rand net (draws st) mod S (length rs))%nat).
    assert (Hi : (i < S (length rs))%nat) by (apply Nat.mod_upper_bound; lia).
    destruct (at_index_in_range (r0 :: rs) (Z.of_nat i) (set_draws (S (draws st)) st))
      as (r & Hr & Hat).
    { unfold len. cbn [length]. lia. }
    rewrite Hat. rewrite Nat2Z.id in Hr.
    exists (Some r), (set_draws (S (draws st)) st).
    split_and!; try reflexivity; [discriminate|].
    intros _. split_and!; [reflexivity | symmetry; exact Hr |].
    exists r. split; [reflexivity|]. apply list_elem_of_lookup. eauto.
Qed.

(** X11: After [Close] the pool counts no resolver, both accessors return nil
    without a panic wherever the cursor stood, and a query fails at once
    with [no resolvers available], nothing being sent. *)
Theorem Close_empties_pool (config : Config) (domain : string) (qtype : N) (st : State) :
  0 <= Retries config ->
  exists st',
    Close st = Some (tt, st') /\
    GetResolverCount st' = 0 /\
    index (pool st') = index (pool st) /\
    GetResolver st' = Some (None, st') /\
    GetRandomResolver net st' = Some (None, st') /\
    performDNSQuery lib net config domain qtype st' =
      Some ({| Domain := domain; Type_ := qtype; Response := None;
               Error := Some "no resolvers available"; Resolver := "" |}, st') /\
    sent st' = sent st.
Proof.
  intros Hr. eexists. split; [reflexivity|].
  split_and!; try reflexivity.
  unfold performDNSQuery. rewrite attempts_empty_pool by reflexivity.
  destruct (Z.to_nat (Retries config + 1)) eqn:E; [lia | reflexivity].
Qed.

End WithHost.
End Resolvers.

(** ** wildcard.go: more on the detector *)

Module WildcardFacts.
Import GoStrings GoStringsFacts QueryTypes Dns World Pool Lookup Wildcard.
Local Open Scope go_scope.

(** The bytes of [charset]: lower-case letters and digits. *)
Definition in_charset (c : ascii) : bool := isLower c || isDigit c.

Section WithWorld.
Context (lib : Library) (net : Network).

(** A probe for [baseDomain]: sent to a resolver of the pool, asking the
    requested type for a generated name under the base domain. *)
Definition probe_datagram (st : State) (baseDomain : string) (qtype : N) (d : Datagram)
    : Prop :=
  (exists r, r ∈ resolvers (pool st) /\ dest d = Address r) /\
  Qtype (asked d) = qtype /\
  exists t, probe_name baseDomain t /\ Qname (asked d) = Fqdn lib t.

Lemma charset_at_in_charset (i : nat) : in_charset (charset_at i) = true.
Proof. do 36 (destruct i as [|i]; [reflexivity|]). reflexivity. Qed.

Lemma set_draws_set_draws (a b : nat) (st : State) :
  set_draws a (set_draws b st) = set_draws a st.
Proof. reflexivity. Qed.

Lemma generateRandomString_bytes (n : nat) : forall st,
  exists s,
    generateRandomString net n st = Some (s, set_draws (n + draws st) st) /\
    String.length s = n /\ all_bytes in_charset s = true.
Proof.
  induction n as [|n IH]; intros st.
  - exists EmptyString. split_and!; try reflexivity. destruct st; reflexivity.
  - cbn [generateRandomString]. unfold bind at 1. cbn [Intn].
    destruct (IH (set_draws (S (draws st)) st)) as (s & Hrun & Hlen & Hall).
    unfold bind at 1. rewrite Hrun. eexists. split_and!.
    + cbn [ret]. rewrite set_draws_set_draws. cbn [draws set_draws].
      replace (n + S (draws st))%nat with (S n + draws st)%nat by lia. reflexivity.
    + cbn. congruence.
    + cbn [all_bytes]. rewrite charset_at_in_charset, Hall. reflexivity.
Qed.

(** A label and the names made of it. *)
Definition probe_label (baseDomain t : string) : Prop :=
  exists label, t = label +:+ "." +:+ baseDomain /\
                String.length label = 12%nat /\ all_bytes in_charset label = true.

(** X12: [generateRandomSubdomains] returns [count] names, each a label of
    twelve bytes out of [a-z0-9], a dot and the base domain; it takes
    twelve draws per name and changes nothing else. *)
Theorem generateRandomSubdomains_names (baseDomain : string) (count : nat) (st : State) :
  exists names,
    generateRandomSubdomains net baseDomain count st =
      Some (names, set_draws (12 * count + draws st) st) /\
    length names = count /\
    Forall (probe_label baseDomain) names.
Proof.
  revert st. induction count as [|count IH]; intros st.
  - exists []. split_and!; try reflexivity; [|constructor]. destruct st; reflexivity.
  - destruct (generateRandomString_bytes 12 st) as (s & Hs & Hlen & Hall).
    destruct (IH (set_draws (12 + draws st) st)) as (names & Hrun & Hn & Hnames).
    exists ((s +:+ "." +:+ baseDomain) :: names).
    cbn [generateRandomSubdomains]. unfold bind at 1. rewrite Hs.
    unfold bind at 1. rewrite Hrun. split_and!.
    + cbn [ret]. rewrite set_draws_set_draws. cbn [draws set_draws].
      replace (12 * count + (12 + draws st))%nat with (12 * S count + draws st)%nat by lia.
      reflexivity.
    + cbn. congruence.
    + constructor; [|exact Hnames]. exists s. auto.
Qed.

Lemma queryDomain_sent (baseDomain t : string) (qtype : N) (st st' : State)
    (a : list string) :
  probe_name baseDomain t ->
  queryDomain lib net t qtype st = Some (a, st') ->
  frame st st' /\
  exists ds, sent st' = sent st ++ ds /\ (length ds <= 1)%nat /\
             Forall (probe_datagram st baseDomain qtype) ds /\
             (a <> [] -> length ds = 1%nat).
Proof.
  intros Hname Hq.
  destruct (queryDomain_total lib net t qtype st) as (a' & s' & Hq' & Hfr & Hsent & Hnone).
  rewrite Hq in Hq'. injection Hq' as <- <-. split; [exact Hfr|].
  destruct Hsent as [Hsame | (r & Hin & Hone)].
  - exists []. rewrite app_nil_r. split_and!; [exact Hsame | cbn; lia | constructor |].
    intros Hne. exfalso.
    unfold queryDomain, bind in Hq.
    destruct (GetRandomResolver_total net st) as (r & s1 & Hr & _ & Hs1 & _).
    rewrite Hr in Hq. destruct r as [r|].
    + rewrite exchange_eq in Hq.
      assert (Hlen : length (sent st') = S (length (sent s1))).
      { destruct (Exchange net _ _ _) as [[?|]|?]; injection Hq as _ <-;
          cbn; rewrite length_app; cbn; lia. }
      rewrite Hsame, Hs1 in Hlen. lia.
    + injection Hq as <- _. congruence.
  - eexists. split_and!; [exact Hone | cbn; lia | | reflexivity].
    constructor; [|constructor]. split_and!; cbn; eauto.
Qed.

Lemma probe_datagram_frame (st st' : State) (baseDomain : string) (qtype : N) (d : Datagram) :
  frame st st' -> probe_datagram st' baseDomain qtype d -> probe_datagram st baseDomain qtype d.
Proof.
  intros (Hp & _) ((r & Hin & Hd) & Hq & Ht). rewrite Hp in Hin.
  split_and!; eauto.
Qed.

(** X13: [detectWildcard] always returns.  It sends at most three datagrams,
    each to a resolver of the pool and each asking the requested type for a
    generated name under the base domain; a wildcard verdict takes all
    three.  It changes neither the pool, nor the cache, nor the counters,
    nor the output. *)
Theorem detectWildcard_datagrams (baseDomain : string) (qtype : N) (st : State) :
  exists v st' probes,
    detectWildcard lib net baseDomain qtype st = Some (v, st') /\
    sent st' = sent st ++ probes /\
    (length probes <= 3)%nat /\
    (v = true -> length probes = 3%nat) /\
    Forall (probe_datagram st baseDomain qtype) probes /\
    pool st' = pool st /\ cache st' = cache st /\ stats st' = stats st /\
    output st' = output st.
Proof.
  destruct (detectWildcard_steps lib net baseDomain qtype st)
    as (t1 & t2 & t3 & st0 & a1 & st1 & a2 & st2 & a3 & st3
        & Hgen & Hnames & Hq1 & Hq2 & Hq3 & Hrun).
  destruct (generateRandomSubdomains_total net baseDomain 3 st)
    as (l & s0 & Hg & _ & _ & F0 & Hs0).
  rewrite Hgen in Hg. injection Hg as <- <-.
  inversion Hnames as [|? ? N1 Hn']; subst. inversion Hn' as [|? ? N2 Hn'']; subst.
  inversion Hn'' as [|? ? N3 _]; subst.
  destruct (queryDomain_sent baseDomain t1 qtype st0 st1 a1 N1 Hq1)
    as (F1 & d1 & S1 & L1 & P1 & E1).
  destruct (queryDomain_sent baseDomain t2 qtype st1 st2 a2 N2 Hq2)
    as (F2 & d2 & S2 & L2 & P2 & E2).
  destruct (queryDomain_sent baseDomain t3 qtype st2 st3 a3 N3 Hq3)
    as (F3 & d3 & S3 & L3 & P3 & E3).
  pose proof (frame_trans _ _ _ F0 F1) as F01.
  pose proof (frame_trans _ _ _ F01 F2) as F02.
  pose proof (frame_trans _ _ _ F02 F3) as F03.
  assert (P1' : Forall (probe_datagram st baseDomain qtype) d1).
  { eapply Forall_impl; [exact P1|]. intros d. apply probe_datagram_frame. exact F0. }
  assert (P2' : Forall (probe_datagram st baseDomain qtype) d2).
  { eapply Forall_impl; [exact P2|]. intros d. apply probe_datagram_frame. exact F01. }
  assert (P3' : Forall (probe_datagram st baseDomain qtype) d3).
  { eapply Forall_impl; [exact P3|]. intros d. apply probe_datagram_frame. exact F02. }
  rewrite Hrun. clear Hrun Hgen Hq1 Hq2 Hq3.
  assert (Hsent2 : sent st2 = sent st ++ (d1 ++ d2)).
  { rewrite S2, S1, Hs0, <- List.app_assoc. reflexivity. }
  assert (Hsent3 : sent st3 = sent st ++ (d1 ++ d2 ++ d3)).
  { rewrite S3, S2, S1, Hs0, <- !List.app_assoc. reflexivity. }
  assert (Hlen2 : (length (d1 ++ d2) <= 3)%nat) by (rewrite !length_app; lia).
  assert (Hlen3 : (length (d1 ++ d2 ++ d3) <= 3)%nat) by (rewrite !length_app; lia).
  assert (Hall2 : Forall (probe_datagram st baseDomain qtype) (d1 ++ d2))
    by (apply Forall_app; split; assumption).
  assert (Hall3 : Forall (probe_datagram st baseDomain qtype) (d1 ++ d2 ++ d3))
    by (repeat (apply Forall_app; split); assumption).
  rewrite Hs0 in S1.
  destruct F01 as (?&?&?&?), F02 as (?&?&?&?), F03 as (?&?&?&?).
  destruct a1 as [|x1 a1].
  { exists false, st1, d1.
    split_and!; try assumption; try reflexivity; try lia; try discriminate. }
  destruct a2 as [|x2 a2].
  { exists false, st2, (d1 ++ d2).
    split_and!; try assumption; try reflexivity; try lia; try discriminate. }
  destruct a3 as [|x3 a3].
  { exists false, st3, (d1 ++ d2 ++ d3).
    split_and!; try assumption; try reflexivity; try lia; try discriminate. }
  exists (bool_decide (x2 :: a2 = x1 :: a1 /\ x3 :: a3 = x1 :: a1)), st3, (d1 ++ d2 ++ d3).
  split_and!; try assumption; try reflexivity.
  intros _. rewrite !length_app.
  rewrite (E1 ltac:(discriminate)), (E2 ltac:(discriminate)), (E3 ltac:(discriminate)).
  reflexivity.
Qed.

Lemma detectWildcard_returns (baseDomain : string) (qtype : N) (st : State) :
  exists v st', detectWildcard lib net baseDomain qtype st = Some (v, st') /\
                cache st' = cache st.
Proof.
  destruct (detectWildcard_steps lib net baseDomain qtype st)
    as (t1 & t2 & t3 & st0 & a1 & st1 & a2 & st2 & a3 & st3 & _ & _ & _ & _ & _ & Hrun).
  assert (Hv : exists v st', detectWildcard lib net baseDomain qtype st = Some (v, st')).
  { rewrite Hrun. destruct a1, a2, a3; eauto. }
  destruct Hv as (v & st' & Hv). exists v, st'. split; [exact Hv|].
  apply Processor.detectWildcard_frame in Hv. destruct Hv as (_ & Hc & _). exact Hc.
Qed.

(** How a call of [IsWildcard] leaves the cache: as it was, or with the
    verdict just returned stored under a base domain that had none. *)
Lemma IsWildcard_cache_cases (result : DNSResult) (st : State) :
  exists b st',
    IsWildcard lib net result st = Some (b, st') /\
    (st' = st \/
     exists B, EffectiveTLDPlusOne lib (TrimSuffix (Domain result) ".") = Some B /\
               cache st !! B = None /\ cache st' = <[B := b]> (cache st)) /\
    (forall response B,
       Response result = Some response -> Answer response <> [] ->
       EffectiveTLDPlusOne lib (TrimSuffix (Domain result) ".") = Some B ->
       cache st' !! B = Some b).
Proof.
  destruct (Response result) as [response|] eqn:Hresp.
  2: { exists false, st. rewrite IsWildcard_no_answer by auto.
       split_and!; [reflexivity | left; reflexivity | discriminate]. }
  destruct (Answer response) as [|rr rrs] eqn:Hans.
  { exists false, st. rewrite IsWildcard_no_answer by eauto.
    split_and!; [reflexivity | left; reflexivity |].
    intros response' B [= <-] Hne. congruence. }
  assert (Hne : Answer response <> []) by (rewrite Hans; discriminate).
  destruct (EffectiveTLDPlusOne lib (TrimSuffix (Domain result) ".")) as [B|] eqn:Hbase.
  2: { exists false, st. rewrite (IsWildcard_unparsed lib net result st Hbase).
       split_and!; [reflexivity | left; reflexivity | discriminate]. }
  destruct (cache st !! B) as [w|] eqn:Hc.
  - exists w, st.
    rewrite (IsWildcard_cached lib net result response B w st Hresp Hne Hbase Hc).
    split_and!; [reflexivity | left; reflexivity |].
    intros response' B' _ _ [= <-]. exact Hc.
  - destruct (IsWildcard_probes lib net result response B st Hresp Hne Hbase Hc)
      as (v & s1 & Hd & Hrun).
    destruct (detectWildcard_returns B (Type_ result) st) as (v' & s1' & Hd' & Hcache).
    rewrite Hd in Hd'. injection Hd' as <- <-.
    exists v, (set_cache (<[B := v]> (cache s1)) s1). rewrite Hrun.
    split_and!; [reflexivity | |].
    + right. exists B. cbn. rewrite Hcache. auto.
    + intros response' B' _ _ [= <-]. cbn. apply lookup_insert_eq.
Qed.

(** X14: [IsWildcard] always returns, and it only ever adds to the cache: every
    verdict that was cached stays as it was, the cache grows by at most one
    entry per call, and for a result with answers and a parseable domain
    the verdict returned is the one the cache then holds for the base
    domain. *)
Theorem IsWildcard_cache_stable (result : DNSResult) (st : State) :
  exists b st',
    IsWildcard lib net result st = Some (b, st') /\
    (forall B v, cache st !! B = Some v -> cache st' !! B = Some v) /\
    (GetCacheSize st <= GetCacheSize st' <= S (GetCacheSize st))%nat /\
    (forall response B,
       Response result = Some response -> Answer response <> [] ->
       EffectiveTLDPlusOne lib (TrimSuffix (Domain result) ".") = Some B ->
       cache st' !! B = Some b).
Proof.
  destruct (IsWildcard_cache_cases result st) as (b & st' & Hrun & Hcases & Hrec).
  exists b, st'. split; [exact Hrun|]. unfold GetCacheSize.
  destruct Hcases as [-> | (B & _ & Hmiss & Hins)].
  - split_and!; [auto | lia | lia | exact Hrec].
  - rewrite Hins. split_and!.
    + intros B' v Hv. rewrite lookup_insert_ne; [exact Hv|]. congruence.
    + rewrite map_size_insert_None by exact Hmiss. lia.
    + rewrite map_size_insert_None by exact Hmiss. lia.
    + rewrite <- Hins. exact Hrec.
Qed.

(** X15: One probe sequence per base domain: once [IsWildcard] has answered for
    a result with answers, any later result with answers under the same
    base domain gets the same verdict from the cache, with nothing sent,
    nothing drawn, and the state left as it is. *)
Theorem IsWildcard_memoized (r1 r2 : DNSResult) (m1 m2 : Msg) (B : string)
    (st st1 : State) (b : bool) :
  Response r1 = Some m1 -> Answer m1 <> [] ->
  EffectiveTLDPlusOne lib (TrimSuffix (Domain r1) ".") = Some B ->
  Response r2 = Some m2 -> Answer m2 <> [] ->
  EffectiveTLDPlusOne lib (TrimSuffix (Domain r2) ".") = Some B ->
  IsWildcard lib net r1 st = Some (b, st1) ->
  IsWildcard lib net r2 st1 = Some (b, st1).
Proof.
  intros H1 A1 B1 H2 A2 B2 Hrun.
  destruct (IsWildcard_cache_cases r1 st) as (b' & st' & Hrun' & _ & Hrec).
  rewrite Hrun in Hrun'. injection Hrun' as <- <-.
  apply (IsWildcard_cached lib net r2 m2 B b st1 H2 A2 B2).
  exact (Hrec m1 B H1 A1 B1).
Qed.

(** X16: [sliceEqual] holds exactly of two slices with the same strings at the
    same positions; it is symmetric, and slices of different lengths are
    never equal. *)
Theorem sliceEqual_iff (a b : list string) :
  (sliceEqual a b = true <-> a = b) /\
  sliceEqual a b = sliceEqual b a /\
  (length a <> length b -> sliceEqual a b = false).
Proof.
  rewrite !sliceEqual_spec. split_and!.
  - apply bool_decide_eq_true.
  - apply bool_decide_ext. split; congruence.
  - intros Hlen. apply bool_decide_eq_false. congruence.
Qed.

End WithWorld.
End WildcardFacts.

(** ** ratelimit.go and the validation of the flags *)

Module SettingsFacts.
Import RateLimit.
Local Open Scope Z_scope.

(** main.go: the four numeric flags, and the block of [parseFlags] that
    validates them after [flag.Parse]. *)
Record Flags := { QPS : Z; Timeout : Z; Retries : Z; Workers : Z }.

Definition defaultTimeout : Z := 5.
Definition defaultRetries : Z := 3.
Definition defaultWorkers : Z := 50.

Definition validate (config : Flags) : Flags :=
  {| QPS := if QPS config <=? 0 then defaultQPS else QPS config;
     Timeout := if Timeout config <=? 0 then defaultTimeout else Timeout config;
     Retries := if Retries config <? 0 then defaultRetries else Retries config;
     Workers := if Workers config <=? 0 then defaultWorkers else Workers config |}.

(** X17: After validation the rate, the timeout and the number of workers are
    positive and the number of retries is not negative (zero retries are
    kept); settings that were in range are kept, and validating twice
    changes nothing more. *)
Theorem validate_in_range (config : Flags) :
  0 < QPS (validate config) /\ 0 < Timeout (validate config) /\
  0 <= Retries (validate config) /\ 0 < Workers (validate config) /\
  (0 < QPS config -> QPS (validate config) = QPS config) /\
  (0 < Timeout config -> Timeout (validate config) = Timeout config) /\
  (0 <= Retries config -> Retries (validate config) = Retries config) /\
  (0 < Workers config -> Workers (validate config) = Workers config) /\
  validate (validate config) = validate config.
Proof.
  unfold validate, defaultQPS, defaultTimeout, defaultRetries, defaultWorkers.
  cbn [QPS Timeout Retries Workers].
  destruct (Z.leb_spec (QPS config) 0), (Z.leb_spec (Timeout config) 0),
    (Z.ltb_spec (Retries config) 0), (Z.leb_spec (Workers config) 0);
    split_and!; try lia; cbn;
    repeat match goal with
           | |- context [?a <=? 0] => destruct (Z.leb_spec a 0); try lia
           | |- context [?a <? 0] => destruct (Z.ltb_spec a 0); try lia
           end; reflexivity.
Qed.

(** X18: Whatever [qps] is given, the limiter is built with a rate of at least
    one and a burst between one and the rate, a tenth of the rate rounded
    down once the rate is ten or more. *)
Theorem limiter_bounds (qps : Z) :
  let l := limiter (NewRateLimiter qps) in
  1 <= limit l /\ 1 <= burst l <= limit l /\
  (10 <= limit l -> burst l * 10 <= limit l < burst l * 10 + 10) /\
  (limit l < 10 -> burst l = 1) /\
  forall r, SetLimit r qps = NewRateLimiter qps.
Proof.
  cbv zeta. unfold SetLimit, NewRateLimiter, NewLimiter, Limiter_SetBurst,
    Limiter_SetLimit, defaultQPS. cbn [limiter limit burst].
  set (q := if qps <=? 0 then 100 else qps).
  assert (Hq : 0 < q) by (subst q; destruct (Z.leb_spec qps 0); lia).
  rewrite (burst_formula q Hq).
  pose proof (Z.div_mod q 10 ltac:(lia)) as Hdm.
  pose proof (Z.mod_pos_bound q 10 ltac:(lia)) as Hm.
  split_and!; try lia. intros r. reflexivity.
Qed.

End SettingsFacts.

(** ** main.go: more on performDNSQuery *)

Module LookupFacts.
Import GoStrings Dns World Pool Lookup Wildcard Processor.
Local Open Scope Z_scope.
Local Open Scope go_scope.

Section WithWorld.
Context (lib : Library) (net : Network) (enc : Output.Encoders).

(** A datagram of a query for [(domain, qtype)]: to a resolver of the
    pool, with the one question of the query. *)
Definition query_datagram (st : State) (domain : string) (qtype : N) (d : Datagram) : Prop :=
  asked d = question lib domain qtype /\
  exists r, r ∈ resolvers (pool st) /\ dest d = Address r.

Lemma GetResolver_returns (st st' : State) (r : option DNSResolver) :
  GetResolver st = Some (r, st') ->
  resolvers (pool st') = resolvers (pool st) /\ cache st' = cache st /\
  stats st' = stats st /\ output st' = output st /\ draws st' = draws st /\
  sent st' = sent st /\
  (forall x, r = Some x -> x ∈ resolvers (pool st)).
Proof.
  unfold GetResolver, bind, get, at_index, modify, ret, panic.
  destruct (len (resolvers (pool st)) =? 0).
  { intros [= <- <-]. split_and!; try reflexivity. discriminate. }
  destruct (index (pool st) <? 0); [discriminate|].
  destruct (resolvers (pool st) !! Z.to_nat (index (pool st))) as [x|] eqn:Hx; [|discriminate].
  intros [= <- <-]. split_and!; try reflexivity.
  intros y [= <-]. apply list_elem_of_lookup. eauto.
Qed.

Lemma attempts_shape (left : nat) : forall domain qtype lastErr st res st',
  attempts lib net left domain qtype lastErr st = Some (res, st') ->
  Domain res = domain /\ Type_ res = qtype /\
  resolvers (pool st') = resolvers (pool st) /\ cache st' = cache st /\
  stats st' = stats st /\ output st' = output st /\ draws st' = draws st /\
  (exists ds, sent st' = sent st ++ ds /\ (length ds <= left)%nat /\
              Forall (query_datagram st domain qtype) ds) /\
  (Error res = None ->
   (left = O /\ lastErr = None /\ Response res = None /\ Resolver res = "") \/
   (exists r, r ∈ resolvers (pool st) /\ Resolver res = Address r)) /\
  (forall e, Error res = Some e -> Response res = None /\ Resolver res = "").
Proof.
  induction left as [|left IH]; intros domain qtype lastErr st res st' H.
  - injection H as <- <-. cbn. split_and!; try reflexivity.
    + exists []. rewrite app_nil_r. split_and!; [reflexivity | cbn; lia | constructor].
    + intros ->. left. auto.
    + auto.
  - cbn [attempts] in H. unfold bind at 1 in H.
    destruct (GetResolver st) as [[r s1]|] eqn:Hg; [|discriminate].
    apply GetResolver_returns in Hg as (Hres & Hc & Hs & Ho & Hd & Hsent & Hin).
    assert (Hqd : forall d, query_datagram s1 domain qtype d -> query_datagram st domain qtype d).
    { intros d (Ha & x & Hx & Hdest). split; [exact Ha|]. exists x. rewrite <- Hres. auto. }
    destruct r as [r|].
    + unfold bind at 1 in H. rewrite exchange_eq in H.
      destruct (Exchange net _ _ _) as [response|err].
      * injection H as <- <-. cbn. split_and!; try assumption; try reflexivity.
        -- eexists. split_and!; [rewrite Hsent; reflexivity | cbn; lia |].
           constructor; [|constructor]. split; [reflexivity|]. exists r. cbn. auto.
        -- intros _. right. exists r. auto.
        -- discriminate.
      * apply IH in H as (H1 & H2 & H3 & H4 & H5 & H6 & H7 & (ds & Hds & Hlen & Hall) & He & Hf).
        cbn in H3, H4, H5, H6, H7, Hds.
        split_and!; try congruence.
        -- exists ({| dest := Address r; asked := question lib domain qtype |} :: ds).
           split_and!.
           ++ rewrite Hds, Hsent, <- List.app_assoc. reflexivity.
           ++ cbn. lia.
           ++ constructor.
              ** split; [reflexivity|]. exists r. cbn. auto.
              ** eapply Forall_impl; [exact Hall|]. intros d Hd'. apply Hqd.
                 destruct Hd' as (Ha & x & Hx & Hdest). split; [exact Ha|]. exists x. auto.
        -- intros Hnone. destruct (He Hnone) as [(_ & Hbad & _) | (x & Hx & Hres')];
             [discriminate|].
           right. exists x. cbn in Hx. rewrite <- Hres. auto.
        -- exact Hf.
    + apply IH in H as (H1 & H2 & H3 & H4 & H5 & H6 & H7 & (ds & Hds & Hlen & Hall) & He & Hf).
      split_and!; try congruence.
      * exists ds. split_and!; [congruence | lia |].
        eapply Forall_impl; [exact Hall|]. exact Hqd.
      * intros Hnone. destruct (He Hnone) as [(_ & Hbad & _) | (x & Hx & Hres')];
          [discriminate|].
        right. exists x. rewrite <- Hres. auto.
      * exact Hf.
Qed.

(** X19: Whenever [performDNSQuery] returns, on any pool: the result carries the
    domain and the type asked for; a result with an error has no response
    and names no resolver, and one without an error names a resolver of
    the pool (provided [Retries >= 0]); at most [Retries + 1] datagrams
    were sent, all of them to resolvers of the pool and all with the one
    question of the query; the list of resolvers, the cache, the counters,
    the output and the generator are untouched. *)
Theorem performDNSQuery_result_shape (config : Config) (domain : string) (qtype : N)
    (st st' : State) (res : DNSResult) :
  performDNSQuery lib net config domain qtype st = Some (res, st') ->
  Domain res = domain /\ Type_ res = qtype /\
  (forall e, Error res = Some e -> Response res = None /\ Resolver res = "") /\
  (0 <= Retries config -> Error res = None ->
   exists r, r ∈ resolvers (pool st) /\ Resolver res = Address r) /\
  (exists ds, sent st' = sent st ++ ds /\
              Z.of_nat (length ds) <= Z.max 0 (Retries config + 1) /\
              Forall (query_datagram st domain qtype) ds) /\
  resolvers (pool st') = resolvers (pool st) /\ cache st' = cache st /\
  stats st' = stats st /\ output st' = output st /\ draws st' = draws st.
Proof.
  unfold performDNSQuery. intros H.
  apply attempts_shape in H
    as (H1 & H2 & H3 & H4 & H5 & H6 & H7 & (ds & Hds & Hlen & Hall) & He & Hf).
  split_and!; try assumption.
  - intros Hr Hnone. destruct (He Hnone) as [(Hzero & _) | Hx]; [lia | exact Hx].
  - exists ds. split_and!; [exact Hds | lia | exact Hall].
Qed.

(** X20: With a negative number of retries the loop makes no round at all: no
    resolver is asked, nothing is sent, and the result has neither a
    response nor an error, so that the result processor counts it as a
    query without answer. *)
Theorem performDNSQuery_negative_retries (config : Config) (domain : string) (qtype : N)
    (wildcardDetector : bool) (outputHandler : Output.OutputHandler) (st : State) :
  Retries config < 0 ->
  exists res,
    performDNSQuery lib net config domain qtype st = Some (res, st) /\
    Response res = None /\ Error res = None /\ Resolver res = "" /\
    exists st',
      resultProcessor_body lib net enc wildcardDetector outputHandler res st
        = Some (tt, st') /\
      noAnswerQueries (stats st') = AddInt64 (noAnswerQueries (stats st)) 1 /\
      errorQueries (stats st') = errorQueries (stats st) /\
      sent st' = sent st.
Proof.
  intros Hneg. unfold performDNSQuery.
  replace (Z.to_nat (Retries config + 1)) with O by lia. cbn [attempts ret].
  eexists. split; [reflexivity|]. cbn [Response Error Resolver]. split_and!; try reflexivity.
  unfold resultProcessor_body. unfold bind at 1. cbn [IncrementProcessed modify].
  unfold classify. cbn [Error]. unfold bind at 1.
  match goal with
  | |- context [(if wildcardDetector then ?a else ?b) ?s] =>
      assert (Hw : (if wildcardDetector then a else b) s = Some (false, s))
        by (destruct wildcardDetector; [apply IsWildcard_no_answer; left|]; reflexivity)
  end.
  rewrite Hw. cbn [Response]. eexists. split; [reflexivity|]. cbn. auto.
Qed.

End WithWorld.
End LookupFacts.

(** ** output.go: the handler and its three formats *)

Module OutputFacts.
Import GoStrings Dns World Output.
Local Open Scope go_scope.

Definition csv_header : list string :=
  ["Domain"; "Type"; "Record"; "Value"; "TTL"; "Resolver"].

Section WithLibrary.
Context (lib : Library) (enc : Encoders).

(** [NewOutputHandler], the output file being the [output] of the state:
    the CSV format starts with its header row. *)
Definition NewOutputHandler (format : string) : M OutputHandler :=
  if String.eqb format "csv"
  then write (csv_Write enc csv_header);; ret {| format := format |}
  else ret {| format := format |}.

(** The results the processor writes, one call of [WriteResult] each. *)
Fixpoint WriteResults (o : OutputHandler) (results : list DNSResult) : M unit :=
  match results with
  | [] => ret tt
  | result :: rest => WriteResult lib enc o result;; WriteResults o rest
  end.

(** The records of a result: none without a response. *)
Definition records_of (result : DNSResult) : list OutputRecord :=
  match Response result with
  | Some response => map (extractRecord lib result) (Answer response)
  | None => []
  end.

Definition csv_row (record : OutputRecord) : string :=
  csv_Write enc [Domain record; Type_ record; Record_ record; Value record;
                 itoa (TTL record); Resolver record].

(** What one record adds to the output in the format of the handler. *)
Definition chunks_of (o : OutputHandler) (record : OutputRecord) : list string :=
  if String.eqb (format o) "json" then
    match json_Marshal enc record with
    | Some data => [data +:+ newline]
    | None => []
    end
  else if String.eqb (format o) "csv" then [csv_row record]
  else [Domain record +:+ tab +:+ Type_ record +:+ tab +:+ Value record +:+ tab
          +:+ itoa (TTL record) +:+ newline].

Lemma set_output_set_output (a b : list string) (st : State) :
  set_output a (set_output b st) = set_output a st.
Proof. reflexivity. Qed.

Lemma set_output_same (st : State) : set_output (output st ++ []) st = st.
Proof. rewrite app_nil_r. destruct st; reflexivity. Qed.

Lemma writeJSON_chunks (records : list OutputRecord) : forall st,
  writeJSON enc records st =
  Some (tt, set_output
              (output st ++
               flat_map (fun r => match json_Marshal enc r with
                                  | Some data => [data +:+ newline]
                                  | None => []
                                  end) records) st).
Proof.
  induction records as [|r rest IH]; intros st.
  - cbn. rewrite set_output_same. reflexivity.
  - cbn [writeJSON flat_map]. destruct (json_Marshal enc r) as [data|].
    + unfold bind, write, modify. rewrite IH. cbn [output set_output].
      rewrite set_output_set_output, <- List.app_assoc. reflexivity.
    + rewrite IH. reflexivity.
Qed.

Lemma writeCSV_chunks (records : list OutputRecord) : forall st,
  writeCSV enc records st =
  Some (tt, set_output (output st ++ map csv_row records) st).
Proof.
  induction records as [|r rest IH]; intros st.
  - cbn. rewrite set_output_same. reflexivity.
  - cbn [writeCSV map]. unfold bind, write, modify. rewrite IH. cbn [output set_output].
    rewrite set_output_set_output, <- List.app_assoc. reflexivity.
Qed.

Lemma flat_map_singleton {A B} (f : A -> B) (l : list A) :
  flat_map (fun x => [f x]) l = map f l.
Proof. induction l as [|x l IH]; [reflexivity|]. cbn. rewrite IH. reflexivity. Qed.

Lemma WriteResult_eq (o : OutputHandler) (result : DNSResult) (st : State) :
  WriteResult lib enc o result st =
  Some (tt, set_output (output st ++ flat_map (chunks_of o) (records_of result)) st).
Proof.
  unfold WriteResult, records_of.
  destruct (Response result) as [response|] eqn:Hresp.
  2: { cbn. rewrite set_output_same. reflexivity. }
  destruct (Answer response) as [|rr rrs] eqn:Hans.
  { cbn. rewrite set_output_same. reflexivity. }
  cbn [length Nat.eqb]. unfold bind, extractRecords. rewrite Hresp, Hans. cbn [ret].
  unfold chunks_of.
  destruct (String.eqb (format o) "json").
  - rewrite writeJSON_chunks. reflexivity.
  - destruct (String.eqb (format o) "csv").
    + rewrite writeCSV_chunks, flat_map_singleton. reflexivity.
    + rewrite writeSimple_lines, flat_map_singleton. reflexivity.
Qed.

(** X21: [WriteResult] never panics and only appends: what was written stays,
    and the result adds at most one piece per answer record, exactly one in
    the simple and the CSV format; in the JSON format the records that do
    not marshal are skipped.  A result without a response or without
    answers adds nothing.  Nothing but the output changes. *)
Theorem WriteResult_appends (o : OutputHandler) (result : DNSResult) (st : State) :
  exists chunks,
    WriteResult lib enc o result st = Some (tt, set_output (output st ++ chunks) st) /\
    chunks = flat_map (chunks_of o) (records_of result) /\
    (length chunks <= length (records_of result))%nat /\
    (format o <> "json" -> length chunks = length (records_of result)) /\
    (format o = "json" ->
       length chunks =
       length (filter (fun r => is_Some (json_Marshal enc r)) (records_of result))) /\
    (Response result = None -> chunks = []).
Proof.
  eexists. split; [apply WriteResult_eq|]. split; [reflexivity|].
  assert (Hlast : Response result = None ->
                  flat_map (chunks_of o) (records_of result) = [])
    by (unfold records_of; intros ->; reflexivity).
  revert Hlast. generalize (records_of result) as rs. intros rs Hlast. split_and!.
  - clear Hlast. induction rs as [|r rs IH]; [reflexivity|]. cbn [flat_map length].
    rewrite length_app. unfold chunks_of at 1.
    destruct (String.eqb (format o) "json");
      [destruct (json_Marshal enc r) | destruct (String.eqb (format o) "csv")];
      cbn [length]; lia.
  - intros Hj. clear Hlast. induction rs as [|r rs IH]; [reflexivity|]. cbn [flat_map length].
    rewrite length_app, IH. unfold chunks_of.
    destruct (String.eqb_spec (format o) "json"); [contradiction|].
    destruct (String.eqb (format o) "csv"); reflexivity.
  - intros Hj. clear Hlast. induction rs as [|r rs IH]; [reflexivity|]. cbn [flat_map].
    rewrite length_app, IH, filter_cons. unfold chunks_of. rewrite Hj. cbn [String.eqb].
    destruct (json_Marshal enc r) as [data|].
    + rewrite decide_True by eauto. reflexivity.
    + rewrite decide_False by (intros [? ?]; discriminate). reflexivity.
  - exact Hlast.
Qed.

Lemma chunks_of_csv (o : OutputHandler) (rs : list OutputRecord) :
  format o = "csv" -> flat_map (chunks_of o) rs = map csv_row rs.
Proof.
  intros Hcsv. induction rs as [|r rs IH]; [reflexivity|]. cbn [flat_map map].
  rewrite IH. unfold chunks_of. rewrite Hcsv. reflexivity.
Qed.

Lemma WriteResults_csv (o : OutputHandler) (results : list DNSResult) : forall st,
  format o = "csv" ->
  WriteResults o results st =
  Some (tt, set_output
              (output st ++ flat_map (fun r => map csv_row (records_of r)) results) st).
Proof.
  induction results as [|r rest IH]; intros st Hcsv.
  - cbn. rewrite set_output_same. reflexivity.
  - cbn [WriteResults flat_map]. unfold bind. rewrite WriteResult_eq.
    rewrite IH by exact Hcsv. cbn [output set_output].
    rewrite set_output_set_output, <- List.app_assoc.
    rewrite (chunks_of_csv o _ Hcsv). reflexivity.
Qed.

(** X22: The CSV output as a whole: the header row is written once, when the
    handler is made, and every result written afterwards adds one row of
    six fields (domain, type, record, value, TTL, resolver) per answer
    record, in the order of arrival; the other formats have no header. *)
Theorem csv_header_then_rows (results : list DNSResult) (format : string) (st : State) :
  (bind (NewOutputHandler "csv") (fun o => WriteResults o results)) st =
    Some (tt, set_output
                (output st ++ csv_Write enc csv_header ::
                   flat_map (fun r => map csv_row (records_of r)) results) st) /\
  (format <> "csv" ->
   NewOutputHandler format st = Some ({| Output.format := format |}, st)).
Proof.
  split.
  - unfold bind at 1. unfold NewOutputHandler.
    change (String.eqb "csv" "csv") with true. cbv iota.
    unfold bind at 1. unfold write, modify, ret.
    rewrite WriteResults_csv by reflexivity. cbn [output set_output].
    rewrite set_output_set_output, <- List.app_assoc. reflexivity.
  - intros Hne. unfold NewOutputHandler.
    destruct (String.eqb_spec format "csv"); [contradiction | reflexivity].
Qed.

End WithLibrary.
End OutputFacts.

(** ** The body of resultProcessor: what each kind of result does *)

Module ProcessorFacts.
Import GoStrings Dns World Pool Lookup Wildcard Processor.
Local Open Scope Z_scope.
Local Open Scope go_scope.

Section WithWorld.
Context (lib : Library) (net : Network) (enc : Output.Encoders).
Context (wildcardDetector : bool) (outputHandler : Output.OutputHandler).

Lemma AddInt64_changes (x : Z) : AddInt64 x 1 <> x.
Proof.
  unfold AddInt64. destruct (Pipeline.wrap64_repr (x + 1)) as [k Hk]. rewrite Hk.
  intros E. assert (H : k * 2 ^ 64 = -1) by lia. clear -H.
  assert (Hk : k = 0 \/ k <= -1 \/ 1 <= k) by lia.
  destruct Hk as [-> | [Hk | Hk]]; [discriminate | nia | nia].
Qed.

Lemma classify_cases (result : DNSResult) (st : State) :
  exists st',
    classify lib net enc wildcardDetector outputHandler result st = Some (tt, st') /\
    pool st' = pool st /\
    (forall e, Error result = Some e ->
       errorQueries (stats st') = AddInt64 (errorQueries (stats st)) 1 /\
       cache st' = cache st /\ sent st' = sent st /\ draws st' = draws st /\
       output st' = output st) /\
    (successfulQueries (stats st') = successfulQueries (stats st) ->
     output st' = output st) /\
    (wildcardQueries (stats st') <> wildcardQueries (stats st) ->
     wildcardDetector = true /\ output st' = output st /\ Error result = None /\
     exists response, Response result = Some response /\ Answer response <> []) /\
    (wildcardDetector = false ->
     cache st' = cache st /\ sent st' = sent st /\ draws st' = draws st /\
     wildcardQueries (stats st') = wildcardQueries (stats st)).
Proof.
  unfold classify. destruct (Error result) as [e|] eqn:He.
  { eexists. split; [reflexivity|]. cbn. split_and!; try reflexivity.
    - intros e' _. split_and!; reflexivity.
    - intros H. contradiction.
    - intros _. split_and!; reflexivity. }
  unfold bind at 1.
  assert (Hw : exists w s1,
             (if wildcardDetector then IsWildcard lib net result else ret false) st
               = Some (w, s1) /\
             pool s1 = pool st /\ stats s1 = stats st /\ output s1 = output st /\
             (wildcardDetector = false -> w = false /\ s1 = st) /\
             (w = true -> wildcardDetector = true /\
                exists response, Response result = Some response /\ Answer response <> [])).
  { destruct wildcardDetector.
    - destruct (WildcardFacts.IsWildcard_cache_cases lib net result st)
        as (w & s1 & Hrun & _ & _).
      exists w, s1. pose proof (IsWildcard_frame lib net result st s1 w Hrun) as (Hp & Hs & Ho).
      split_and!; try assumption; [discriminate|].
      intros ->. split; [reflexivity|].
      destruct (Response result) as [response|] eqn:Hresp.
      + exists response. split; [reflexivity|]. intros Hempty.
        rewrite IsWildcard_no_answer in Hrun by eauto. discriminate.
      + rewrite IsWildcard_no_answer in Hrun by auto. discriminate.
    - exists false, st. split_and!; try reflexivity; [auto | discriminate]. }
  destruct Hw as (w & s1 & -> & Hp & Hs & Ho & Hoff & Hon).
  assert (Hsame : wildcardDetector = false ->
                  cache s1 = cache st /\ sent s1 = sent st /\ draws s1 = draws st)
    by (intros Hd; destruct (Hoff Hd) as [_ ->]; auto).
  destruct w.
  { destruct (Hon eq_refl) as (Hdet & response & Hresp & Hans).
    eexists. split; [reflexivity|]. cbn. rewrite Hs.
    split; [exact Hp|]. split; [discriminate|]. split; [intros _; exact Ho|].
    split; [intros _; split_and!; eauto|]. intros Hd. congruence. }
  destruct (Response result) as [response|] eqn:Hresp.
  2: { eexists. split; [reflexivity|]. cbn. rewrite Hs.
       split; [exact Hp|]. split; [discriminate|]. split; [intros _; exact Ho|].
       split; [intros H; contradiction|]. intros Hd. destruct (Hsame Hd) as (?&?&?). auto. }
  destruct (0 <? length (Answer response))%nat.
  2: { eexists. split; [reflexivity|]. cbn. rewrite Hs.
       split; [exact Hp|]. split; [discriminate|]. split; [intros _; exact Ho|].
       split; [intros H; contradiction|]. intros Hd. destruct (Hsame Hd) as (?&?&?). auto. }
  unfold bind at 1. cbn [IncrementSuccessful modify].
  rewrite OutputFacts.WriteResult_eq. eexists. split; [reflexivity|].
  cbn. rewrite Hs.
  split; [exact Hp|]. split; [discriminate|].
  split; [intros E; exfalso; exact (AddInt64_changes _ E)|].
  split; [intros H; contradiction|]. intros Hd. destruct (Hsame Hd) as (?&?&?). auto.
Qed.


Lemma classify_spares_errors (result : DNSResult) (st st' : State) :
  Error result = None ->
  classify lib net enc wildcardDetector outputHandler result st = Some (tt, st') ->
  errorQueries (stats st') = errorQueries (stats st).
Proof.
  intros Hnone Hrun. unfold classify in Hrun. rewrite Hnone in Hrun.
  unfold bind at 1 in Hrun.
  destruct ((if wildcardDetector then IsWildcard lib net result else ret false) st)
    as [[w s1]|] eqn:Hw; [|discriminate].
  assert (Hs : stats s1 = stats st).
  { destruct wildcardDetector.
    - apply (IsWildcard_frame lib net result st s1 w Hw).
    - injection Hw as <- <-. reflexivity. }
  destruct w; [injection Hrun as <-; cbn; rewrite Hs; reflexivity|].
  destruct (Response result) as [response|];
    [|injection Hrun as <-; cbn; rewrite Hs; reflexivity].
  destruct (0 <? length (Answer response))%nat;
    [|injection Hrun as <-; cbn; rewrite Hs; reflexivity].
  unfold bind at 1 in Hrun. cbn [IncrementSuccessful modify] in Hrun.
  rewrite OutputFacts.WriteResult_eq in Hrun. injection Hrun as <-. cbn. rewrite Hs.
  reflexivity.
Qed.

(** X23: [classify] never panics and leaves the pool, the total and the
    processed count alone; it increments exactly one of the four category
    counters and leaves the other three as they were.  For a result with
    an error that one is the error counter, and nothing else changes: not
    the other counters, not the cache, not the datagrams sent, not the
    generator, not the output; a result without an error never moves the
    error counter.  The output is written for the results counted as
    successful and for no other; a result counted as wildcard had a
    detector at work, carried answers, and leaves the output alone.
    Without a detector nothing is sent or drawn and the cache stays as it
    is. *)
Theorem classify_effects (result : DNSResult) (st : State) :
  exists st',
    classify lib net enc wildcardDetector outputHandler result st = Some (tt, st') /\
    pool st' = pool st /\
    totalDomains (stats st') = totalDomains (stats st) /\
    processedQueries (stats st') = processedQueries (stats st) /\
    category_step (stats st) (stats st') /\
    (forall e, Error result = Some e ->
       errorQueries (stats st') = AddInt64 (errorQueries (stats st)) 1 /\
       successfulQueries (stats st') = successfulQueries (stats st) /\
       noAnswerQueries (stats st') = noAnswerQueries (stats st) /\
       wildcardQueries (stats st') = wildcardQueries (stats st) /\
       cache st' = cache st /\ sent st' = sent st /\ draws st' = draws st /\
       output st' = output st) /\
    (Error result = None -> errorQueries (stats st') = errorQueries (stats st)) /\
    (successfulQueries (stats st') = successfulQueries (stats st) ->
     output st' = output st) /\
    (wildcardQueries (stats st') <> wildcardQueries (stats st) ->
     wildcardDetector = true /\ output st' = output st /\ Error result = None /\
     exists response, Response result = Some response /\ Answer response <> []) /\
    (wildcardDetector = false ->
     cache st' = cache st /\ sent st' = sent st /\ draws st' = draws st /\
     wildcardQueries (stats st') = wildcardQueries (stats st)).
Proof.
  destruct (classify_cases result st) as (st' & Hrun & Hpool & Herr & Hsucc & Hwild & Hoff).
  pose proof (classify_one_category lib net enc wildcardDetector outputHandler
                result st st' tt Hrun) as (Ht & Hp & Hcat).
  exists st'. split_and!; try assumption.
  - intros e He. destruct (Herr e He) as (H1 & H2 & H3 & H4 & H5).
    assert (Hothers : successfulQueries (stats st') = successfulQueries (stats st) /\
                      noAnswerQueries (stats st') = noAnswerQueries (stats st) /\
                      wildcardQueries (stats st') = wildcardQueries (stats st)).
    { destruct Hcat as [(_ & E & _) | [(_ & E1 & E2 & E3) | [(_ & _ & E & _) | (_ & _ & E & _)]]];
        try (rewrite E in H1; symmetry in H1; destruct (AddInt64_changes _ H1)).
      auto. }
    destruct Hothers as (E1 & E2 & E3). split_and!; assumption.
  - intros Hnone. exact (classify_spares_errors result st st' Hnone Hrun).
Qed.

End WithWorld.
End ProcessorFacts.

(** ** The pipeline: what every run keeps *)

Module PipelineFacts.
Import GoStrings Dns World Pool Lookup Wildcard Processor Pipeline.
Local Open Scope Z_scope.
Local Open Scope go_scope.

Definition zlen {A} (l : list A) : Z := Z.of_nat (length l).

(** A line that names a domain: once trimmed it is neither empty nor a
    comment. *)
Definition spec_domain_line (line : string) : Prop :=
  TrimSpace line <> EmptyString /\ HasPrefix (TrimSpace line) "#" = false.

(** The number of input lines that name a domain. *)
Fixpoint domain_lines (l : list string) : Z :=
  match l with
  | [] => 0
  | line :: rest => (if decide (spec_domain_line line) then 1 else 0) + domain_lines rest
  end.

(** The domain [processDNSQueries] has sent and not yet counted. *)
Definition uncounted (s : System) : Z :=
  match main s with
  | MCount => 1
  | _ => 0
  end.

(** The results a worker still owes for the domain it holds. *)
Definition owed (w : WorkerPC) : Z :=
  match w with
  | WQuery _ types => zlen types
  | WSend _ _ types => 1 + zlen types
  | _ => 0
  end.

Fixpoint owed_all (ws : list WorkerPC) : Z :=
  match ws with
  | [] => 0
  | w :: rest => owed w + owed_all rest
  end.


Lemma is_domain_spec (line : string) : is_domain line = true <-> spec_domain_line line.
Proof.
  unfold is_domain, spec_domain_line.
  destruct (String.eqb_spec (TrimSpace line) EmptyString) as [E|Hne]; cbn [orb negb].
  - split; [discriminate | intros [H _]; contradiction].
  - destruct (HasPrefix (TrimSpace line) "#"); cbn [negb].
    + split; [discriminate | intros [_ H]; discriminate].
    + split; auto.
Qed.

Lemma domain_lines_cons (line : string) (rest : list string) :
  domain_lines (line :: rest) = (if is_domain line then 1 else 0) + domain_lines rest.
Proof.
  cbn [domain_lines]. destruct (is_domain line) eqn:Hd.
  - rewrite decide_True by (apply is_domain_spec; exact Hd). reflexivity.
  - rewrite decide_False by (rewrite <- is_domain_spec; congruence). reflexivity.
Qed.

Lemma domain_lines_nonneg (l : list string) : 0 <= domain_lines l.
Proof.
  induction l as [|x l IH]; [cbn; lia|].
  rewrite domain_lines_cons. destruct (is_domain x); lia.
Qed.

Lemma domain_lines_le_length (l : list string) : domain_lines l <= zlen l.
Proof.
  unfold zlen. induction l as [|x l IH]; [cbn; lia|].
  rewrite domain_lines_cons. cbn [length]. destruct (is_domain x); lia.
Qed.

Lemma owed_nonneg (w : WorkerPC) : 0 <= owed w.
Proof. destruct w; unfold owed, zlen; lia. Qed.

Lemma owed_all_nonneg (ws : list WorkerPC) : 0 <= owed_all ws.
Proof. induction ws as [|w ws IH]; cbn; [lia | pose proof (owed_nonneg w); lia]. Qed.

Lemma owed_all_insert (ws : list WorkerPC) : forall (i : nat) (old w : WorkerPC),
  ws !! i = Some old -> owed_all (<[i := w]> ws) = owed_all ws - owed old + owed w.
Proof.
  induction ws as [|x ws IH]; intros i old w H; [discriminate|].
  destruct i as [|i].
  - injection H as ->. cbn. lia.
  - change (<[S i := w]> (x :: ws)) with (x :: <[i := w]> ws).
    cbn [owed_all]. rewrite (IH i old w H). lia.
Qed.

Lemma owed_all_replicate (k : nat) : owed_all (replicate k WRecv) = 0.
Proof. induction k as [|k IH]; cbn; [reflexivity | exact IH]. Qed.

Lemma owed_all_zero (ws : list WorkerPC) (i : nat) (w : WorkerPC) :
  owed_all ws = 0 -> ws !! i = Some w -> owed w = 0.
Proof.
  revert i. induction ws as [|x ws IH]; intros i H Hi; [discriminate|].
  cbn in H. pose proof (owed_nonneg x). pose proof (owed_all_nonneg ws).
  destruct i as [|i]; cbn in Hi.
  - injection Hi as <-. lia.
  - apply (IH i); [lia | exact Hi].
Qed.

Lemma zlen_nonneg {A} (l : list A) : 0 <= zlen l.
Proof. unfold zlen. lia. Qed.

Lemma zlen_cons {A} (x : A) (l : list A) : zlen (x :: l) = 1 + zlen l.
Proof. unfold zlen. cbn [length]. lia. Qed.

Lemma zlen_snoc {A} (x : A) (l : list A) : zlen (l ++ [x]) = zlen l + 1.
Proof. unfold zlen. rewrite length_app. cbn [length]. lia. Qed.

Lemma owed_next_type (domain : string) (types : list N) :
  owed (next_type domain types) = zlen types.
Proof. destruct types; reflexivity. Qed.

Section WithWorld.
Context (lib : Library) (net : Network) (enc : Output.Encoders).
Context (config : Config) (queryTypes : list N) (outputHandler : Output.OutputHandler).

(** What is under way: results queued, results the workers owe, and the
    queries of the domains queued. *)
Definition pending (s : System) : Z :=
  zlen (buf (resultChan s)) + owed_all (workers s) +
  zlen queryTypes * zlen (buf (domainChan s)).

(** The counters stay in the range of [int64] for this input. *)
Definition in_range (input : list string) : Prop :=
  domain_lines input < 2 ^ 63 /\ zlen queryTypes * domain_lines input < 2 ^ 63.

(** The input lines on which the model reads as the program does. *)
Definition ascii_lines (input : list string) : Prop :=
  Forall (fun line => ascii_only line = true) input.

(** The books of a run over [input] whose scan ends with [err]. *)
Definition accounted (err : option string) (input : list string) (s : System) : Prop :=
  scanErr s = err /\
  0 <= GetTotal (world s) /\ 0 <= GetProcessed (world s) /\
  GetTotal (world s) + uncounted s + domain_lines (lines s) = domain_lines input /\
  GetProcessed (world s) + pending s
    <= zlen queryTypes * (GetTotal (world s) + uncounted s) /\
  (cancelled s = false ->
   GetProcessed (world s) + pending s
     = zlen queryTypes * (GetTotal (world s) + uncounted s)) /\
  (main s = MReturned None -> GetTotal (world s) <= GetProcessed (world s)) /\
  (main s = MWait \/ main s = MReturned None -> lines s = [] /\ err = None) /\
  (forall x, main s = MReturned (Some x) ->
     (cancelled s = true /\ x = context_canceled) \/
     (lines s = [] /\ exists e, err = Some e /\ x = "error reading input: " +:+ e)).


Lemma mul_bound (n a c : Z) : 0 <= n -> a <= c -> n * a <= n * c.
Proof. intros Hn Ha. apply Z.mul_le_mono_nonneg_l; assumption. Qed.

Lemma start_accounted (err : option string) (input : list string) (w : State) :
  accounted err input (start_with config err input w).
Proof.
  unfold accounted, pending, uncounted, GetTotal, GetProcessed, start_with. cbn.
  rewrite owed_all_replicate. unfold zlen. cbn.
  split_and!; try lia; try discriminate; try reflexivity.
  intros [H | H]; discriminate.
Qed.

Ltac open_books H :=
  destruct H as (Herr & HT & HP & Hdom & Hle & Heq & Hret & Hlines & Hfail).

Lemma main_step_accounted err input s s' :
  in_range input -> accounted err input s ->
  main_step s = Some s' -> accounted err input s'.
Proof.
  intros [Hr1 Hr2] Hacc H. open_books Hacc.
  pose proof (zlen_nonneg queryTypes) as Hn.
  unfold main_step in H. unfold accounted, pending, uncounted, GetTotal, GetProcessed in *.
  destruct (main s) eqn:Hm.
  - destruct (lines s) as [|line rest] eqn:Hl.
    + destruct (scanErr s) as [e|] eqn:He; injection H as <-; cbn; rewrite Hl.
      * split_and!; try assumption; try discriminate; try congruence.
        -- intros [E | E]; discriminate.
        -- intros x [= <-]. right. split; [reflexivity|]. exists e. split; congruence.
      * split_and!; try assumption; try discriminate; try congruence.
        intros _. split; congruence.
    + rewrite domain_lines_cons in Hdom. destruct (is_domain line).
      * destruct (full (domainChan s)); [discriminate|]. injection H as <-. cbn.
        rewrite zlen_snoc.
        split_and!; try assumption; try discriminate; try lia.
        -- intros Hc. specialize (Heq Hc). lia.
        -- intros [E | E]; discriminate.
      * injection H as <-. cbn. rewrite Hm.
        split_and!; try assumption; try discriminate; try lia.
        intros [E | E]; discriminate.
  - injection H as <-. cbn. unfold AddInt64.
    pose proof (domain_lines_nonneg (lines s)) as Hdl.
    rewrite wrap64_small by lia.
    split_and!; try assumption; try discriminate; try lia.
    + intros Hc. specialize (Heq Hc). lia.
    + intros [E | E]; discriminate.
  - destruct (Z.ltb_spec (processedQueries (stats (world s)))
                (totalDomains (stats (world s)))) as [Hlt | Hge].
    + injection H as <-. rewrite Hm. split_and!; assumption.
    + injection H as <-. cbn.
      split_and!; try assumption; try lia; try discriminate; auto.
  - discriminate.
Qed.

Lemma main_done_accounted err input s s' :
  accounted err input s -> main_done s = Some s' -> accounted err input s'.
Proof.
  intros Hacc H. open_books Hacc.
  unfold main_done in H. unfold accounted, pending, uncounted, GetTotal, GetProcessed in *.
  destruct (cancelled s) eqn:Hc; [|discriminate].
  destruct (main s) eqn:Hm; try discriminate.
  - destruct (lines s) as [|line rest] eqn:Hl; [discriminate|].
    destruct (is_domain line); [|discriminate]. injection H as <-. cbn. rewrite Hl, Hc.
    split_and!; try assumption; try discriminate.
    + intros [E | E]; discriminate.
    + intros x [= <-]. left. auto.
  - destruct (_ <? _); [|discriminate]. injection H as <-. cbn. rewrite Hc.
    split_and!; try assumption; try discriminate.
    + intros [E | E]; discriminate.
    + intros x [= <-]. left. auto.
Qed.

Lemma worker_step_accounted err input i s s' :
  accounted err input s -> worker_step lib net config queryTypes i s = Some s' ->
  accounted err input s'.
Proof.
  intros Hacc H. open_books Hacc.
  pose proof (zlen_nonneg queryTypes) as Hn.
  unfold worker_step in H. unfold accounted, pending, uncounted, GetTotal, GetProcessed in *.
  destruct (workers s !! i) as [[|domain [|qtype rest]|result domain rest|]|] eqn:Hw;
    try discriminate.
  - destruct (buf (domainChan s)) as [|domain rest] eqn:Hb.
    + destruct (closed (domainChan s)); [|discriminate]. injection H as <-. cbn.
      rewrite (owed_all_insert _ _ _ _ Hw), Hb. cbn [owed].
      split_and!; try assumption; try lia. intros Hc. specialize (Heq Hc). lia.
    + injection H as <-. cbn.
      rewrite (owed_all_insert _ _ _ _ Hw), owed_next_type, Hb. cbn [owed tail].
      rewrite zlen_cons in Hle, Heq.
      split_and!; try assumption; try lia. intros Hc. specialize (Heq Hc). lia.
  - injection H as <-. cbn. rewrite (owed_all_insert _ _ _ _ Hw). cbn [owed].
    change (zlen (@nil N)) with 0.
    split_and!; try assumption; try lia. intros Hc. specialize (Heq Hc). lia.
  - injection H as <-. unfold run_world, performDNSQuery.
    destruct (attempts lib net _ domain qtype None (world s)) as [[res w]|] eqn:Ha.
    + apply attempts_stats in Ha. cbn. rewrite Ha, (owed_all_insert _ _ _ _ Hw).
      cbn [owed]. rewrite zlen_cons.
      split_and!; try assumption; try lia. intros Hc. specialize (Heq Hc). lia.
    + cbn. split_and!; assumption.
  - destruct (closed (resultChan s)).
    { injection H as <-. cbn. split_and!; assumption. }
    destruct (full (resultChan s)); [discriminate|]. injection H as <-. cbn.
    rewrite (owed_all_insert _ _ _ _ Hw), owed_next_type, zlen_snoc. cbn [owed].
    split_and!; try assumption; try lia. intros Hc. specialize (Heq Hc). lia.
Qed.

Lemma worker_done_accounted err input i s s' :
  accounted err input s -> worker_done i s = Some s' -> accounted err input s'.
Proof.
  intros Hacc H. open_books Hacc.
  unfold worker_done in H. unfold accounted, pending, uncounted, GetTotal, GetProcessed in *.
  destruct (cancelled s) eqn:Hc; [|discriminate].
  destruct (workers s !! i) as [[|domain types|result domain rest|]|] eqn:Hw;
    try discriminate; injection H as <-; cbn; rewrite Hc, (owed_all_insert _ _ _ _ Hw);
    cbn [owed]; try (pose proof (zlen_nonneg rest));
    split_and!; try assumption; try discriminate; try lia.
Qed.


Lemma processor_step_accounted err input s s' :
  in_range input -> accounted err input s ->
  processor_step lib net enc config outputHandler s = Some s' -> accounted err input s'.
Proof.
  intros [Hr1 Hr2] Hacc H. open_books Hacc.
  pose proof (zlen_nonneg queryTypes) as Hn.
  unfold processor_step in H.
  unfold accounted, pending, uncounted, GetTotal, GetProcessed in *.
  destruct (processor s) as [|result|] eqn:Hp.
  - destruct (buf (resultChan s)) as [|result rest] eqn:Hb.
    + destruct (closed (resultChan s)); [|discriminate]. injection H as <-. cbn.
      rewrite Hb. split_and!; assumption.
    + injection H as <-. cbn. rewrite Hb. cbn [tail]. rewrite zlen_cons in Hle, Heq.
      pose proof (zlen_nonneg rest) as Hrest.
      pose proof (owed_all_nonneg (workers s)) as Ho.
      pose proof (zlen_nonneg (buf (domainChan s))) as Hd.
      pose proof (domain_lines_nonneg (lines s)) as Hdl.
      assert (Hmul : 0 <= zlen queryTypes * zlen (buf (domainChan s)))
        by (apply Z.mul_nonneg_nonneg; assumption).
      assert (Hcap : zlen queryTypes *
                     (totalDomains (stats (world s)) +
                      match main s with MCount => 1 | _ => 0 end)
                     <= zlen queryTypes * domain_lines input)
        by (apply mul_bound; [assumption | lia]).
      unfold AddInt64. rewrite wrap64_small by lia.
      split_and!; try assumption; try lia.
      * intros Hc. specialize (Heq Hc). lia.
      * intros Hm. specialize (Hret Hm). lia.
  - injection H as <-. unfold run_world.
    destruct (classify lib net enc (WildcardDetection config) outputHandler result (world s))
      as [[u w]|] eqn:Hc.
    + apply classify_one_category in Hc as (H1 & H2 & _). cbn. rewrite H1, H2.
      split_and!; assumption.
    + cbn. split_and!; assumption.
  - discriminate.
Qed.

Lemma processor_done_accounted err input s s' :
  accounted err input s -> processor_done s = Some s' -> accounted err input s'.
Proof.
  intros Hacc H. unfold processor_done in H.
  destruct (cancelled s); [|discriminate].
  destruct (processor s); try discriminate. injection H as <-. exact Hacc.
Qed.

Lemma step_accounted err input m s s' :
  in_range input -> accounted err input s ->
  step lib net enc config queryTypes outputHandler m s = Some s' -> accounted err input s'.
Proof.
  intros Hr Hacc. unfold step. destruct (panicked s); [discriminate|].
  destruct m.
  - apply main_step_accounted; assumption.
  - apply main_done_accounted; assumption.
  - apply worker_step_accounted; assumption.
  - apply worker_done_accounted; assumption.
  - apply processor_step_accounted; assumption.
  - apply processor_done_accounted; assumption.
  - intros [= <-]. open_books Hacc.
    unfold accounted. cbn. split_and!; try assumption; [discriminate|].
    intros x Hx. destruct (Hfail x Hx) as [[_ ->] | Hread]; [left; auto | right; exact Hread].
Qed.

Lemma run_accounted err input moves : forall s s',
  in_range input -> accounted err input s ->
  run lib net enc config queryTypes outputHandler moves s = Some s' ->
  accounted err input s'.
Proof.
  induction moves as [|m rest IH]; intros s s' Hr Hacc H; cbn [run] in H.
  - injection H as <-. exact Hacc.
  - destruct (step lib net enc config queryTypes outputHandler m s) as [s1|] eqn:Hs;
      [|discriminate].
    eapply IH; [exact Hr | eapply step_accounted; eauto | exact H].
Qed.













Lemma read_error_not_cancel (e : string) :
  "error reading input: " +:+ e <> context_canceled.
Proof. unfold context_canceled. intros H. discriminate H. Qed.

(** X24: [stats.IncrementTotal] counts the domains sent, one by one.  On
    ASCII input, whose lines the scanner delivers until it stops with
    [err], at every point of a run the total, the domain sent and not yet
    counted, and the domain lines still to read add up to the domain lines
    delivered (the lines that are neither blank nor comments).  The wait
    for the results and the return of nil are reached only when the scan
    ended without error, and then the total is the number of domain lines;
    so it is when [processDNSQueries] returns the error of the scan; after
    a cancellation it is at most that number. *)
Theorem total_counts_domain_lines (err : option string) (input : list string) (w : State)
    (moves : list Move) (s : System) :
  ascii_lines input ->
  in_range input ->
  run lib net enc config queryTypes outputHandler moves (start_with config err input w)
    = Some s ->
  GetTotal (world s) + uncounted s + domain_lines (lines s) = domain_lines input /\
  (main s = MWait \/ main s = MReturned None ->
   err = None /\ GetTotal (world s) = domain_lines input) /\
  (forall e, main s = MReturned (Some ("error reading input: " +:+ e)) ->
             err = Some e /\ GetTotal (world s) = domain_lines input) /\
  (forall x, main s = MReturned (Some x) -> GetTotal (world s) <= domain_lines input) /\
  (forall e, err = Some e -> main s <> MWait /\ main s <> MReturned None).
Proof.
  intros _ Hr Hrun.
  pose proof (run_accounted err input moves _ _ Hr (start_accounted err input w) Hrun)
    as Hacc.
  open_books Hacc. split_and!.
  - exact Hdom.
  - intros Hm. destruct (Hlines Hm) as [Hl Hnone]. split; [exact Hnone|].
    rewrite Hl in Hdom. cbn [domain_lines] in Hdom.
    unfold uncounted in Hdom. destruct Hm as [Hm | Hm]; rewrite Hm in Hdom; lia.
  - intros e Hm.
    destruct (Hfail _ Hm) as [[_ Hbad] | (Hl & e' & He' & Hx)].
    + exfalso. exact (read_error_not_cancel e Hbad).
    + assert (e = e').
      { clear -Hx. revert Hx.
        change ("error reading input: " +:+ e) with
          (String.append "error reading input: " e).
        change ("error reading input: " +:+ e') with
          (String.append "error reading input: " e').
        cbn [String.append]. intros [= E]. exact E. }
      subst e'. split; [exact He'|].
      rewrite Hl in Hdom. cbn [domain_lines] in Hdom.
      unfold uncounted in Hdom. rewrite Hm in Hdom. lia.
  - intros x Hm. pose proof (domain_lines_nonneg (lines s)).
    unfold uncounted in Hdom. rewrite Hm in Hdom. lia.
  - intros e He. split; intros Hm.
    + destruct (Hlines (or_introl Hm)) as [_ Hnone]. congruence.
    + destruct (Hlines (or_intror Hm)) as [_ Hnone]. congruence.
Qed.


(** X26: With exactly one query type the wait of [processDNSQueries] is
    exact, on ASCII input: when it has returned nil, the scan had ended
    without error, every domain line of the input has been counted and its
    result counted as processed, both channels are empty and no worker
    holds a query or a result. *)
Theorem single_type_run_completes (err : option string) (input : list string) (w : State)
    (moves : list Move) (s : System) :
  length queryTypes = 1%nat ->
  ascii_lines input ->
  in_range input ->
  run lib net enc config queryTypes outputHandler moves (start_with config err input w)
    = Some s ->
  main s = MReturned None ->
  err = None /\
  GetProcessed (world s) = domain_lines input /\
  GetTotal (world s) = domain_lines input /\
  buf (domainChan s) = [] /\ buf (resultChan s) = [] /\
  (forall i wk, workers s !! i = Some wk -> wk = WRecv \/ wk = WExit \/
                                            exists d, wk = WQuery d []).
Proof.
  intros Hone _ Hr Hrun Hm.
  pose proof (run_accounted err input moves _ _ Hr (start_accounted err input w) Hrun)
    as Hacc.
  open_books Hacc.
  specialize (Hret Hm). destruct (Hlines (or_intror Hm)) as [Hl Hnone].
  rewrite Hl in Hdom.
  unfold uncounted in *. rewrite Hm in *. cbn [domain_lines] in Hdom.
  assert (Hn : zlen queryTypes = 1) by (unfold zlen; rewrite Hone; reflexivity).
  unfold pending in Hle. rewrite Hn in Hle.
  pose proof (zlen_nonneg (buf (resultChan s))) as H1.
  pose proof (zlen_nonneg (buf (domainChan s))) as H2.
  pose proof (owed_all_nonneg (workers s)) as H3.
  assert (Hd : zlen (buf (domainChan s)) = 0) by lia.
  assert (Hb : zlen (buf (resultChan s)) = 0) by lia.
  assert (Ho : owed_all (workers s) = 0) by lia.
  split_and!; try lia.
  - exact Hnone.
  - destruct (buf (domainChan s)); [reflexivity | rewrite zlen_cons in Hd].
    pose proof (zlen_nonneg l). lia.
  - destruct (buf (resultChan s)); [reflexivity | rewrite zlen_cons in Hb].
    pose proof (zlen_nonneg l). lia.
  - intros i wk Hi. pose proof (owed_all_zero _ _ _ Ho Hi) as Hz.
    destruct wk as [|d types|res d types|]; auto.
    + destruct types as [|t types]; [eauto|].
      cbn [owed] in Hz. rewrite zlen_cons in Hz. pose proof (zlen_nonneg types). lia.
    + cbn [owed] in Hz. pose proof (zlen_nonneg types). lia.
Qed.


End WithWorld.
End PipelineFacts.

(** ** input.go: the lists of domains *)

Module Input.
Import GoStrings GoStringsFacts.

(** The prefixes of [generateSubdomains]. *)
Definition commonSubdomains : list string :=
  ["www"; "mail"; "ftp"; "admin"; "test"; "dev"; "staging"; "api";
   "blog"; "shop"; "store"; "support"; "help"; "docs"; "cdn";
   "static"; "media"; "images"; "img"; "assets"; "download";
   "secure"; "vpn"; "remote"; "portal"; "dashboard"; "panel";
   "forum"; "community"; "social"; "chat"; "wiki"; "news";
   "mobile"; "m"; "app"; "apps"; "beta"; "alpha"; "demo"].

(** [fmt.Sprintf("%s.%s", sub, domain)] *)
Definition dotted (sub domain : string) : string := sub +:+ "." +:+ domain.

Fixpoint generateSubdomains_loop (subs : list string) (domain : string)
    (subdomains : list string) : list string :=
  match subs with
  | [] => subdomains
  | sub :: rest => generateSubdomains_loop rest domain (subdomains ++ [dotted sub domain])
  end.

Definition generateSubdomains (domain : string) : list string :=
  generateSubdomains_loop commonSubdomains domain [].

Section WithValidator.
(** [validator.IsValid], whatever the validator. *)
Context (IsValid : string -> bool).

(** [seen[domain]]: a missing key reads as false. *)
Definition seen_at (seen : gmap string bool) (domain : string) : bool :=
  default false (seen !! domain).

Fixpoint FilterDomains_loop (domains : list string) (filtered : list string)
    (seen : gmap string bool) : list string :=
  match domains with
  | [] => filtered
  | d :: rest =>
      let domain := ToLower (TrimSpace d) in
      if seen_at seen domain then FilterDomains_loop rest filtered seen
      else if IsValid domain
           then FilterDomains_loop rest (filtered ++ [domain]) (<[domain := true]> seen)
           else FilterDomains_loop rest filtered seen
  end.

Definition FilterDomains (domains : list string) : list string :=
  FilterDomains_loop domains [] ∅.

(** The form in which [FilterDomains] compares and returns a domain. *)
Definition normal (d : string) : string := ToLower (TrimSpace d).

(** The list without its repetitions: every element where it first
    occurs. *)
Fixpoint spec_first_occurrences (l : list string) : list string :=
  match l with
  | [] => []
  | x :: rest => x :: filter (fun y => y <> x) (spec_first_occurrences rest)
  end.

(** The domains the loop adds from [domains] when [seen] holds [known]. *)
Fixpoint added (known : list string) (domains : list string) : list string :=
  match domains with
  | [] => []
  | d :: rest =>
      if bool_decide (normal d ∈ known) then added known rest
      else if IsValid (normal d) then normal d :: added (normal d :: known) rest
           else added known rest
  end.

Lemma isSpace_lower (c : ascii) : isSpace (lower c) = isSpace c.
Proof. destruct c as [[] [] [] [] [] [] [] []]; reflexivity. Qed.

Lemma lower_lower (c : ascii) : lower (lower c) = lower c.
Proof. destruct c as [[] [] [] [] [] [] [] []]; reflexivity. Qed.

Lemma ToLower_idempotent (s : string) : ToLower (ToLower s) = ToLower s.
Proof.
  induction s as [|c r IH]; [reflexivity|].
  cbn [ToLower]. rewrite lower_lower, IH. reflexivity.
Qed.

Lemma TrimLeftSpace_ToLower (s : string) :
  TrimLeftSpace (ToLower s) = ToLower (TrimLeftSpace s).
Proof.
  induction s as [|c r IH]; [reflexivity|].
  cbn [ToLower TrimLeftSpace]. rewrite isSpace_lower.
  destruct (isSpace c); [exact IH | reflexivity].
Qed.

Lemma TrimRightSpace_ToLower (s : string) :
  TrimRightSpace (ToLower s) = ToLower (TrimRightSpace s).
Proof.
  induction s as [|c r IH]; [reflexivity|].
  cbn [ToLower TrimRightSpace]. rewrite IH, isSpace_lower.
  destruct (TrimRightSpace r) as [|d r']; cbn [ToLower].
  - destruct (isSpace c); reflexivity.
  - reflexivity.
Qed.

Lemma TrimSpace_ToLower (s : string) : TrimSpace (ToLower s) = ToLower (TrimSpace s).
Proof. unfold TrimSpace. rewrite TrimLeftSpace_ToLower, TrimRightSpace_ToLower. reflexivity. Qed.

Lemma normal_idempotent (d : string) : normal (normal d) = normal d.
Proof.
  unfold normal. rewrite TrimSpace_ToLower, Resolvers.TrimSpace_idempotent.
  apply ToLower_idempotent.
Qed.

Lemma FilterDomains_loop_added (domains : list string) :
  forall (filtered : list string) (seen : gmap string bool) (known : list string),
  (forall x, seen_at seen x = true <-> x ∈ known) ->
  FilterDomains_loop domains filtered seen = filtered ++ added known domains.
Proof.
  induction domains as [|d rest IH]; intros filtered seen known Hseen.
  - cbn. rewrite app_nil_r. reflexivity.
  - cbn [FilterDomains_loop added]. fold (normal d).
    destruct (seen_at seen (normal d)) eqn:Hs.
    + apply Hseen in Hs. rewrite bool_decide_eq_true_2 by exact Hs.
      apply IH. exact Hseen.
    + rewrite bool_decide_eq_false_2
        by (intros Hin; apply Hseen in Hin; congruence).
      destruct (IsValid (normal d)); [|apply IH; exact Hseen].
      rewrite (IH _ _ (normal d :: known)).
      * rewrite <- List.app_assoc. reflexivity.
      * intros x. unfold seen_at. destruct (decide (x = normal d)) as [->|Hne].
        -- rewrite lookup_insert_eq. cbn. split; [intros _; left | reflexivity].
        -- rewrite lookup_insert_ne by congruence. rewrite elem_of_cons.
           specialize (Hseen x). unfold seen_at in Hseen. tauto.
Qed.

Lemma FilterDomains_added (domains : list string) :
  FilterDomains domains = added [] domains.
Proof.
  unfold FilterDomains. rewrite (FilterDomains_loop_added domains [] ∅ []); [reflexivity|].
  intros x. unfold seen_at. rewrite lookup_empty. cbn. split; [discriminate|].
  intros H. apply not_elem_of_nil in H. contradiction.
Qed.

Lemma added_elem (domains : list string) : forall known x,
  x ∈ added known domains <->
  IsValid x = true /\ x ∈ map normal domains /\ x ∉ known.
Proof.
  induction domains as [|d rest IH]; intros known x; cbn [added map].
  - split; [intros H; apply not_elem_of_nil in H; contradiction|].
    intros (_ & H & _). apply not_elem_of_nil in H. contradiction.
  - rewrite elem_of_cons. destruct (bool_decide_reflect (normal d ∈ known)) as [Hin|Hout].
    + rewrite IH. split; [tauto|]. intros (Hv & [-> | Hr] & Hk); tauto.
    + destruct (IsValid (normal d)) eqn:Hv.
      * rewrite elem_of_cons, IH, elem_of_cons.
        split.
        -- intros [-> | (H1 & H2 & H3)]; [tauto|]. split_and!; auto.
        -- intros (H1 & [-> | H2] & H3); [tauto|].
           destruct (decide (x = normal d)) as [->|Hne]; [tauto|]. right. tauto.
      * rewrite IH. split; [tauto|]. intros (H1 & [-> | H2] & H3); [congruence | tauto].
Qed.

Lemma added_NoDup (domains : list string) : forall known, NoDup (added known domains).
Proof.
  induction domains as [|d rest IH]; intros known; cbn [added]; [constructor|].
  destruct (bool_decide (normal d ∈ known)); [apply IH|].
  destruct (IsValid (normal d)); [|apply IH].
  constructor; [|apply IH].
  rewrite added_elem. intros (_ & _ & H). apply H. left.
Qed.

Lemma added_sublist (domains : list string) : forall known,
  sublist (added known domains) (map normal domains).
Proof.
  induction domains as [|d rest IH]; intros known; cbn [added map]; [constructor|].
  destruct (bool_decide (normal d ∈ known)); [apply sublist_cons, IH|].
  destruct (IsValid (normal d)); [apply sublist_skip, IH | apply sublist_cons, IH].
Qed.

Lemma added_fixed (domains : list string) : forall known,
  NoDup domains ->
  (forall x, x ∈ domains -> IsValid x = true /\ normal x = x /\ x ∉ known) ->
  added known domains = domains.
Proof.
  induction domains as [|d rest IH]; intros known Hnd Hall; [reflexivity|].
  cbn [added]. destruct (Hall d ltac:(left)) as (Hv & Hn & Hk).
  rewrite Hn, Hv. rewrite bool_decide_eq_false_2 by exact Hk.
  apply NoDup_cons in Hnd as [Hd Hnd]. f_equal. apply IH; [exact Hnd|].
  intros x Hx. destruct (Hall x ltac:(right; exact Hx)) as (H1 & H2 & H3).
  split_and!; [exact H1 | exact H2 |].
  rewrite elem_of_cons. intros [-> | H]; [contradiction | contradiction].
Qed.

Lemma added_first_occurrences (domains : list string) : forall known,
  added known domains =
  filter (fun y => y ∉ known)
    (spec_first_occurrences (filter (fun d => IsValid d = true) (map normal domains))).
Proof.
  induction domains as [|d rest IH]; intros known; cbn [added map]; [reflexivity|].
  rewrite filter_cons.
  destruct (bool_decide_reflect (normal d ∈ known)) as [Hin|Hout].
  - rewrite IH. destruct (decide (IsValid (normal d) = true)) as [Hv|Hv]; [|reflexivity].
    cbn [spec_first_occurrences]. rewrite filter_cons, decide_False by auto.
    rewrite list_filter_filter. apply list_filter_iff.
    intros y. split; [|tauto]. intros Hy. split; [exact Hy|]. intros ->. contradiction.
  - destruct (IsValid (normal d)) eqn:Hv.
    + rewrite decide_True by reflexivity. cbn [spec_first_occurrences].
      rewrite filter_cons, decide_True by exact Hout. f_equal.
      rewrite IH, list_filter_filter. apply list_filter_iff.
      intros y. rewrite not_elem_of_cons. tauto.
    + rewrite decide_False by discriminate. apply IH.
Qed.

(** X28: [FilterDomains] on ASCII input returns each valid domain once, in
    lower case and trimmed, at the place of its first occurrence: the
    result is the list of the trimmed, lower-cased entries the validator
    accepts, in the order of the input, with every repetition after the
    first removed.  So it has no duplicates and holds exactly the normal
    forms of the input that the validator accepts. *)
Theorem FilterDomains_result (domains : list string) :
  Forall (fun d => ascii_only d = true) domains ->
  FilterDomains domains =
    spec_first_occurrences
      (filter (fun d => IsValid d = true) (map (fun d => ToLower (TrimSpace d)) domains)) /\
  NoDup (FilterDomains domains) /\
  (forall x, x ∈ FilterDomains domains <->
             IsValid x = true /\ exists d, d ∈ domains /\ x = ToLower (TrimSpace d)) /\
  sublist (FilterDomains domains) (map (fun d => ToLower (TrimSpace d)) domains).
Proof.
  intros _. split.
  { rewrite FilterDomains_added, added_first_occurrences.
    change (map (fun d => ToLower (TrimSpace d)) domains) with (map normal domains).
    generalize (spec_first_occurrences
                  (filter (fun d => IsValid d = true) (map normal domains))).
    intros l. induction l as [|x l IH]; [reflexivity|].
    rewrite filter_cons, decide_True by apply not_elem_of_nil. f_equal. exact IH. }
  rewrite FilterDomains_added. split_and!.
  - apply added_NoDup.
  - intros x. rewrite added_elem, list_elem_of_fmap.
    split.
    + intros (Hv & (d & -> & Hd) & _). split; [exact Hv|]. exists d. auto.
    + intros (Hv & d & Hd & ->). split_and!; [exact Hv | exists d; auto |].
      apply not_elem_of_nil.
  - apply added_sublist.
Qed.

(** X29: Filtering a filtered list changes nothing. *)
Theorem FilterDomains_idempotent (domains : list string) :
  FilterDomains (FilterDomains domains) = FilterDomains domains.
Proof.
  rewrite (FilterDomains_added (FilterDomains domains)).
  rewrite FilterDomains_added.
  apply added_fixed; [apply added_NoDup|].
  intros x Hx. apply added_elem in Hx as (Hv & Hin & _).
  apply list_elem_of_fmap in Hin as (d & -> & _).
  split_and!; [exact Hv | apply normal_idempotent | apply not_elem_of_nil].
Qed.

End WithValidator.

Lemma generateSubdomains_loop_map (subs : list string) (domain : string) :
  forall acc, generateSubdomains_loop subs domain acc
              = acc ++ map (fun sub => dotted sub domain) subs.
Proof.
  induction subs as [|sub rest IH]; intros acc; cbn [generateSubdomains_loop map].
  - rewrite app_nil_r. reflexivity.
  - rewrite IH, <- List.app_assoc. reflexivity.
Qed.

Lemma length_append (a t : string) :
  String.length (a +:+ t) = (String.length a + String.length t)%nat.
Proof.
  induction a as [|c a IH]; [reflexivity|].
  change ((String c a) +:+ t) with (String c (a +:+ t)). cbn [String.length].
  rewrite IH. reflexivity.
Qed.

Lemma append_cancel_r (a b t : string) : a +:+ t = b +:+ t -> a = b.
Proof.
  intros H.
  assert (Hl : String.length a = String.length b).
  { apply (f_equal String.length) in H. rewrite !length_append in H. lia. }
  revert b H Hl. induction a as [|c a IH]; intros [|c' b] H Hl; try discriminate.
  - reflexivity.
  - change ((String c a) +:+ t) with (String c (a +:+ t)) in H.
    change ((String c' b) +:+ t) with (String c' (b +:+ t)) in H.
    injection H as -> H. f_equal. apply IH; [exact H|]. cbn in Hl. lia.
Qed.

(** X30: [generateSubdomains] returns forty names, all different, each of them
    one of the fixed prefixes, a dot and the domain, in the order of the
    prefixes. *)
Theorem generateSubdomains_names (domain : string) :
  generateSubdomains domain = map (fun sub => sub +:+ "." +:+ domain) commonSubdomains /\
  length (generateSubdomains domain) = 40%nat /\
  NoDup (generateSubdomains domain).
Proof.
  unfold generateSubdomains. rewrite generateSubdomains_loop_map. cbn [app].
  split_and!; [reflexivity | reflexivity |].
  apply NoDup_fmap_2.
  - intros a b H. unfold dotted in H. apply append_cancel_r in H. exact H.
  - unfold commonSubdomains. apply (bool_decide_unpack _). vm_compute. exact I.
Qed.

End Input.

(** ** More concrete runs *)

Module Cases.
Import GoStrings GoStringsFacts QueryTypes Dns World Pool Lookup Wildcard Processor Pipeline.
Import Scenario.
Local Open Scope Z_scope.

Lemma parseQueryTypes_types_in_range_witness :
  Forall (fun q => (0 < q < 65536)%N) [TypeA; TypeAAAA] /\
  length [TypeA; TypeAAAA] = S (QueryTypesFacts.count_byte "A,AAAA" ",").
Proof.
  apply (QueryTypesFacts.parseQueryTypes_types_in_range "A,AAAA" [TypeA; TypeAAAA]).
  vm_compute. reflexivity.
Defined.


Lemma parseQueryTypes_case_insensitive_witness :
  parseQueryTypes (ToLower "Aaaa,mX") = parseQueryTypes "Aaaa,mX" /\
  parseQueryTypes (ToUpper "Aaaa,mX") = parseQueryTypes "Aaaa,mX".
Proof.
  apply (QueryTypesFacts.parseQueryTypes_case_insensitive "Aaaa,mX"). reflexivity.
Defined.

Lemma parseQueryTypes_number_witness : parseQueryTypes (itoa 257) = inl [257%N].
Proof. apply (QueryTypesFacts.parseQueryTypes_number 257). lia. Defined.

(** A host with one resolver file; its [net.SplitHostPort] stands in for
    the real one by asking for exactly one colon. *)
Definition example_host : Resolvers.Host :=
  {| Resolvers.file_lines := fun name =>
       if String.eqb name "resolvers.txt"
       then Some [ "  9.9.9.9 "; "# backup"; ""; "1.1.1.1:53"; "9.9.9.9" ]
       else None;
     Resolvers.SplitHostPort_ok := fun address =>
       (QueryTypesFacts.count_byte address ":" =? 1)%nat |}.

Definition example_options : Resolvers.ResolverOptions :=
  {| Resolvers.Resolvers := "8.8.8.8, 2001:db8::1 ,"; Resolvers.ResolversFile := "resolvers.txt" |}.

(** The candidates, and the pool on a network that drops the first probe:
    the address with too many colons is not probed, 8.8.8.8 is probed and
    dropped, the entries of the file are kept, the repeated one twice. *)
Example pool_of_example_options :
  Resolvers.spec_candidates example_host example_options
    = [ "8.8.8.8"; "2001:db8::1"; "9.9.9.9"; "1.1.1.1:53"; "9.9.9.9" ] /\
  (resolvers <$> (pool <$> (snd <$> Resolvers.NewResolverPool example_library net_flaky
                                      example_host example_options (fresh []))))
    = Some [ {| Address := "9.9.9.9:53" |}; {| Address := "1.1.1.1:53" |};
             {| Address := "9.9.9.9:53" |} ].
Proof. vm_compute. split; reflexivity. Qed.

Lemma NewResolverPool_pool_witness :
  exists st',
    Resolvers.NewResolverPool example_library net_flaky example_host example_options
      (fresh []) = Some (tt, st') /\
    index (pool st') = 0 /\
    resolvers (pool st') =
      Resolvers.spec_pool example_library net_flaky example_host
        (length (sent (fresh [])))
        (Resolvers.spec_candidates example_host example_options) /\
    Forall (Resolvers.kept_from example_host
              (Resolvers.spec_candidates example_host example_options))
      (resolvers (pool st')) /\
    sublist (map Address (resolvers (pool st')))
      (map Resolvers.with_port (Resolvers.spec_candidates example_host example_options)) /\
    sent st' =
      sent (fresh []) ++
      map (Resolvers.liveness_probe example_library)
        (filter (fun a => Resolvers.well_formed example_host a = true)
           (Resolvers.spec_candidates example_host example_options)) /\
    cache st' = cache (fresh []) /\ stats st' = stats (fresh []) /\
    output st' = output (fresh []) /\ draws st' = draws (fresh []).
Proof.
  apply (Resolvers.NewResolverPool_pool example_library net_flaky example_host
           example_options (fresh [])).
  - reflexivity.
  - intros lines H. vm_compute in H. injection H as <-. repeat constructor.
Defined.

Lemma Close_empties_pool_witness :
  exists st',
    Resolvers.Close (fresh two_resolvers) = Some (tt, st') /\
    GetResolverCount st' = 0 /\
    index (pool st') = index (pool (fresh two_resolvers)) /\
    GetResolver st' = Some (None, st') /\
    GetRandomResolver net_answering st' = Some (None, st') /\
    performDNSQuery example_library net_answering config_two_types "example.com" TypeA st' =
      Some ({| Domain := "example.com"; Type_ := TypeA; Response := None;
               Error := Some "no resolvers available"; Resolver := "" |}, st') /\
    sent st' = sent (fresh two_resolvers).
Proof.
  apply (Resolvers.Close_empties_pool example_library net_answering config_two_types
           "example.com" TypeA (fresh two_resolvers)).
  vm_compute. discriminate.
Defined.

Definition mail_example : DNSResult :=
  answered "mail.example.com" [a_record "mail.example.com." (ip 93 184 216 34)].

(** Two names of one zone: the second verdict comes from the cache. *)
Lemma IsWildcard_memoized_witness :
  exists b st1,
    IsWildcard example_library net_answering www_example (fresh two_resolvers)
      = Some (b, st1) /\
    IsWildcard example_library net_answering mail_example st1 = Some (b, st1).
Proof.
  eexists _, _. split.
  - vm_compute. reflexivity.
  - apply (WildcardFacts.IsWildcard_memoized example_library net_answering
             www_example mail_example
             {| Answer := [a_record "www.example.com." (ip 93 184 216 34)] |}
             {| Answer := [a_record "mail.example.com." (ip 93 184 216 34)] |}
             "example.com" (fresh two_resolvers)).
    + reflexivity.
    + discriminate.
    + vm_compute. reflexivity.
    + reflexivity.
    + discriminate.
    + vm_compute. reflexivity.
    + vm_compute. reflexivity.
Defined.

Lemma performDNSQuery_result_shape_witness :
  exists res st',
    performDNSQuery example_library net_flaky config_two_types "example.com" TypeA
      (fresh two_resolvers) = Some (res, st') /\
    Domain res = "example.com" /\ Type_ res = TypeA /\
    (forall e, Error res = Some e -> Response res = None /\ Resolver res = "") /\
    (0 <= Retries config_two_types -> Error res = None ->
     exists r, r ∈ resolvers (pool (fresh two_resolvers)) /\ Resolver res = Address r) /\
    (exists ds, sent st' = sent (fresh two_resolvers) ++ ds /\
                Z.of_nat (length ds) <= Z.max 0 (Retries config_two_types + 1) /\
                Forall (LookupFacts.query_datagram example_library (fresh two_resolvers)
                          "example.com" TypeA) ds) /\
    resolvers (pool st') = resolvers (pool (fresh two_resolvers)) /\
    cache st' = cache (fresh two_resolvers) /\
    stats st' = stats (fresh two_resolvers) /\
    output st' = output (fresh two_resolvers) /\
    draws st' = draws (fresh two_resolvers).
Proof.
  eexists _, _. split.
  - vm_compute. reflexivity.
  - apply (LookupFacts.performDNSQuery_result_shape example_library net_flaky
             config_two_types "example.com" TypeA (fresh two_resolvers)).
    vm_compute. reflexivity.
Defined.

(** A configuration that slipped past the validation of the flags. *)
Definition config_no_rounds : Config :=
  {| QueryTypes := "A"; Retries := -1; Workers := 1;
     WildcardDetection := false; Verbose := false |}.

Lemma performDNSQuery_negative_retries_witness :
  exists res,
    performDNSQuery example_library net_answering config_no_rounds "example.com" TypeA
      (fresh two_resolvers) = Some (res, fresh two_resolvers) /\
    Response res = None /\ Error res = None /\ Resolver res = "" /\
    exists st',
      resultProcessor_body example_library net_answering example_encoders true simple res
        (fresh two_resolvers) = Some (tt, st') /\
      noAnswerQueries (stats st') = AddInt64 (noAnswerQueries (stats (fresh two_resolvers))) 1 /\
      errorQueries (stats st') = errorQueries (stats (fresh two_resolvers)) /\
      sent st' = sent (fresh two_resolvers).
Proof.
  apply (LookupFacts.performDNSQuery_negative_retries example_library net_answering
           example_encoders config_no_rounds "example.com" TypeA true simple
           (fresh two_resolvers)).
  reflexivity.
Defined.

(** The scanner stops at a line that is too long for it, after one domain:
    the domain is sent and counted, the scan ends, and [processDNSQueries]
    returns the error. *)
Definition too_long : string := "bufio.Scanner: token too long".

Lemma total_counts_domain_lines_witness :
  exists s,
    run example_library net_answering example_encoders config_two_types
      [TypeA; TypeAAAA] simple [ MainStep; MainStep; MainStep ]
      (start_with config_two_types (Some too_long) [ "example.com" ] (fresh two_resolvers))
      = Some s /\
    GetTotal (world s) + PipelineFacts.uncounted s + PipelineFacts.domain_lines (lines s)
      = PipelineFacts.domain_lines [ "example.com" ] /\
    (main s = MWait \/ main s = MReturned None ->
     Some too_long = None /\
     GetTotal (world s) = PipelineFacts.domain_lines [ "example.com" ]) /\
    (forall e, main s = MReturned (Some ("error reading input: " +:+ e)) ->
               Some too_long = Some e /\
               GetTotal (world s) = PipelineFacts.domain_lines [ "example.com" ]) /\
    (forall x, main s = MReturned (Some x) ->
               GetTotal (world s) <= PipelineFacts.domain_lines [ "example.com" ]) /\
    (forall e, Some too_long = Some e -> main s <> MWait /\ main s <> MReturned None).
Proof.
  eexists. split.
  - vm_compute. reflexivity.
  - apply (PipelineFacts.total_counts_domain_lines example_library net_answering
             example_encoders config_two_types [TypeA; TypeAAAA] simple
             (Some too_long) [ "example.com" ] (fresh two_resolvers)
             [ MainStep; MainStep; MainStep ]).
    + repeat constructor.
    + vm_compute. split; reflexivity.
    + vm_compute. reflexivity.
Defined.


Definition config_one_type : Config :=
  {| QueryTypes := "A"; Retries := 2; Workers := 1;
     WildcardDetection := false; Verbose := false |}.

(** A domain and a comment, one record type, one worker: the domain is
    sent and counted, the comment skipped, the input ends; the worker takes
    the domain, queries and sends; the processor receives and files the
    result; [processDNSQueries] returns. *)
Definition one_type_run : list Move :=
  [ MainStep; MainStep; MainStep; MainStep;
    WorkerStep 0; WorkerStep 0; WorkerStep 0;
    ProcessorStep; ProcessorStep; MainStep ].

Lemma single_type_run_completes_witness :
  exists s,
    run example_library net_answering example_encoders config_one_type [TypeA] simple
      one_type_run
      (start_with config_one_type None [ "example.com"; "# staging" ] (fresh two_resolvers))
      = Some s /\
    @None string = None /\
    GetProcessed (world s) = 1 /\ GetTotal (world s) = 1 /\
    buf (domainChan s) = [] /\ buf (resultChan s) = [] /\
    (forall i wk, workers s !! i = Some wk ->
                  wk = WRecv \/ wk = WExit \/ exists d, wk = WQuery d []).
Proof.
  eexists. split.
  - vm_compute. reflexivity.
  - apply (PipelineFacts.single_type_run_completes example_library net_answering
             example_encoders config_one_type [TypeA] simple
             None [ "example.com"; "# staging" ] (fresh two_resolvers) one_type_run).
    + reflexivity.
    + repeat constructor.
    + vm_compute. split; reflexivity.
    + vm_compute. reflexivity.
    + reflexivity.
Defined.


(** A validator that asks for a dot. *)
Definition dotted_name (d : string) : bool :=
  negb (QueryTypesFacts.count_byte d "." =? 0)%nat.

Example FilterDomains_example :
  Input.FilterDomains dotted_name [ " B.com"; "a.com"; "localhost"; "b.COM "; "a.com" ]
    = [ "b.com"; "a.com" ].
Proof. vm_compute. reflexivity. Qed.

Lemma FilterDomains_result_witness :
  Input.FilterDomains dotted_name [ " B.com"; "a.com"; "localhost"; "b.COM "; "a.com" ] =
    Input.spec_first_occurrences
      (filter (fun d => dotted_name d = true)
         (map (fun d => ToLower (TrimSpace d))
            [ " B.com"; "a.com"; "localhost"; "b.COM "; "a.com" ])) /\
  NoDup (Input.FilterDomains dotted_name
           [ " B.com"; "a.com"; "localhost"; "b.COM "; "a.com" ]) /\
  (forall x,
     x ∈ Input.FilterDomains dotted_name
           [ " B.com"; "a.com"; "localhost"; "b.COM "; "a.com" ] <->
     dotted_name x = true /\
     exists d, d ∈ [ " B.com"; "a.com"; "localhost"; "b.COM "; "a.com" ] /\
               x = ToLower (TrimSpace d)) /\
  sublist (Input.FilterDomains dotted_name
             [ " B.com"; "a.com"; "localhost"; "b.COM "; "a.com" ])
    (map (fun d => ToLower (TrimSpace d))
       [ " B.com"; "a.com"; "localhost"; "b.COM "; "a.com" ]).
Proof.
  apply (Input.FilterDomains_result dotted_name
           [ " B.com"; "a.com"; "localhost"; "b.COM "; "a.com" ]).
  repeat constructor.
Defined.

End Cases.
